(** * embed_cover: the per-file cover pipeline and its batch drivers

    A shallow embedding of [embed_cover.py] (the console script) and of the
    worker and thread-pool driver of [gui.py].  The external programs
    (ffprobe, ffmpeg), the temporary-file module and the file-system calls are
    modelled as operations on an explicit state; an environment record says,
    per call, whether the external program is present, crashes or behaves.

    Idealisations: Python floats are exact rationals ([Q]); paths follow
    [posixpath]; [os.remove] and [os.path.exists] do not fail. *)

From Stdlib Require Import QArith Lqa Ascii.
From stdpp Require Import gmap strings list fin_maps.

Local Open Scope string_scope.
Set Warnings "-register-all".

(** ** Exceptions and results *)

Inductive exn :=
| CalledProcessError
| FileNotFoundError
| FileExistsError
| OSError
| JSONDecodeError
| AttributeError
| TypeError
| ValueError
| RuntimeError (msg : string)
| NameError (name : string)
| SystemExit (code : Z).

Inductive res (A : Type) :=
| Ret (a : A)
| Raise (e : exn).
Arguments Ret {A} a.
Arguments Raise {A} e.

Definition rbind {A B} (r : res A) (k : A → res B) : res B :=
  match r with
  | Ret a => k a
  | Raise e => Raise e
  end.

(** ** JSON values as [json.loads] returns them

    [JNumStr q] is a JSON string whose text is a decimal numeral denoting [q]
    (ffprobe prints durations that way); [JStr] holds any other text. *)

Inductive json :=
| JNull
| JBool (b : bool)
| JNum (q : Q)
| JNumStr (q : Q)
| JStr (s : string)
| JArr (l : list json)
| JObj (kv : list (string * json)).

(** [d.get(k, default)] on the key/value pairs of a dict; [json.loads] keeps the
    last of two equal keys. *)
Fixpoint dict_find (k : string) (kv : list (string * json)) : option json :=
  match kv with
  | [] => None
  | (k', v) :: rest =>
      match dict_find k rest with
      | Some v' => Some v'
      | None => if bool_decide (k' = k) then Some v else None
      end
  end.

Definition dict_get (k : string) (kv : list (string * json)) (default : json) : json :=
  match dict_find k kv with
  | Some v => v
  | None => default
  end.

(** [x.get(k, default)]: only a dict has [get]. *)
Definition py_get (x : json) (k : string) (default : json) : res json :=
  match x with
  | JObj kv => Ret (dict_get k kv default)
  | _ => Raise AttributeError
  end.

(** [x == 1] for a JSON value: the numbers equal to one, and [True]. *)
Definition py_eq_one (x : json) : bool :=
  match x with
  | JNum q => Qeq_bool q 1
  | JBool b => b
  | _ => false
  end.

(** [x == s] for a string literal [s]. *)
Definition py_eq_str (x : json) (s : string) : bool :=
  match x with
  | JStr s' => bool_decide (s' = s)
  | _ => false
  end.

(** [float(x)] *)
Definition py_float (x : json) : res Q :=
  match x with
  | JNum q | JNumStr q => Ret q
  | JBool b => Ret (if b then 1 else 0)%Q
  | JStr _ => Raise ValueError
  | JNull | JArr _ | JObj _ => Raise TypeError
  end.

(** What [for x in v] iterates over: the items of a list, the keys of a dict,
    the characters of a string; anything else is not iterable. *)
Definition py_iter (v : json) : res (list json) :=
  match v with
  | JArr l => Ret l
  | JObj kv => Ret (map (fun p => JStr p.1) kv)
  | JStr s => Ret (map (fun a => JStr (String a EmptyString)) (String.list_ascii_of_string s))
  | JNumStr _ => Raise TypeError
  | JNull | JBool _ | JNum _ => Raise TypeError
  end.

(** ** Media containers *)

Abbreviation bytes := string (only parsing).

(** The data of a stream: as stored, or re-encoded by a named encoder. *)
Inductive payload :=
| Stored (b : bytes)
| Transcoded (encoder : string) (p : payload).

(** [codec_type] of a stream; only a video stream carries the
    [attached_pic] disposition. *)
Inductive codec_type :=
| Video (attached_pic : bool)
| Audio
| Subtitle
| Data.

Record stream := Stream {
  s_type : codec_type;
  s_codec : string;
  s_data : payload
}.

Record container := Container {
  streams : list stream;
  fmt_duration : option Q
}.

(** What a path holds: a media container, a picture, or other bytes. *)
Inductive content :=
| Media (c : container)
| Image (px : bytes)
| Bytes (b : bytes).

Definition is_video (s : stream) : bool :=
  match s_type s with Video _ => true | _ => false end.

Definition is_audio (s : stream) : bool :=
  match s_type s with Audio => true | _ => false end.

Definition is_attached_pic (s : stream) : bool :=
  match s_type s with Video b => b | _ => false end.

Definition codec_type_name (t : codec_type) : string :=
  match t with
  | Video _ => "video"
  | Audio => "audio"
  | Subtitle => "subtitle"
  | Data => "data"
  end.

(** [os.path.getsize]: a container or a picture is never empty. *)
Definition getsize (c : content) : nat :=
  match c with
  | Media _ => 1
  | Image px => S (String.length px)
  | Bytes b => String.length b
  end.

(** *** What ffprobe prints ([-print_format json]) *)

Definition stream_json (s : stream) : json :=
  JObj [ ("codec_name", JStr (s_codec s));
         ("codec_type", JStr (codec_type_name (s_type s)));
         ("disposition",
           JObj [ ("default", JNum 0);
                  ("attached_pic", JNum (if is_attached_pic s then 1 else 0)) ]) ].

Definition show_streams_json (c : container) : json :=
  JObj [ ("streams", JArr (map stream_json (streams c))) ].

Definition show_format_json (path : string) (c : container) : json :=
  JObj [ ("format",
           JObj (("filename", JStr path) ::
                 match fmt_duration c with
                 | Some d => [ ("duration", JNumStr d) ]
                 | None => []
                 end)) ].

(** ** Paths ([posixpath]) and the string methods the scripts use *)

Definition chars (s : string) : list ascii := String.list_ascii_of_string s.
Definition str (l : list ascii) : string := String.string_of_list_ascii l.

(** [s.rfind(c)]: the last index of [c] in [s], or -1. *)
Fixpoint rfind_from (c : ascii) (l : list ascii) (i last : Z) : Z :=
  match l with
  | [] => last
  | a :: r => rfind_from c r (i + 1) (if Ascii.eqb a c then i else last)
  end.

Definition rfind (c : ascii) (s : string) : Z := rfind_from c (chars s) 0 (-1).

(** [s[:i]], [s[i:]] and [s[i:j]] for indices that are not negative. *)
Definition slice_to (i : Z) (s : string) : string := str (take (Z.to_nat i) (chars s)).
Definition slice_from (i : Z) (s : string) : string := str (drop (Z.to_nat i) (chars s)).
Definition slice (i j : Z) (s : string) : list ascii :=
  take (Z.to_nat j - Z.to_nat i) (drop (Z.to_nat i) (chars s)).

Definition basename (p : string) : string := slice_from (rfind "/" p + 1) p.

(** [os.path.splitext]: the extension starts at the last dot of the last
    component, unless that component has only dots before it. *)
Definition splitext (p : string) : string * string :=
  let sepIndex := rfind "/" p in
  let dotIndex := rfind "." p in
  if (sepIndex <? dotIndex)%Z then
    if forallb (fun a => Ascii.eqb a ".") (slice (sepIndex + 1) dotIndex p)
    then (p, "")
    else (slice_to dotIndex p, slice_from dotIndex p)
  else (p, "").

Definition starts_with (pre s : string) : bool := String.prefix pre s.

Definition ends_with (suf s : string) : bool :=
  bool_decide (slice_from (Z.of_nat (String.length s) - Z.of_nat (String.length suf)) s = suf)
  && (String.length suf <=? String.length s)%nat.

(** [os.path.join(a, b)] *)
Definition path_join (a b : string) : string :=
  if starts_with "/" b then b
  else if bool_decide (a = "") || ends_with "/" a then a +:+ b
  else a +:+ "/" +:+ b.

(** [s.lower()] on ASCII letters. *)
Definition lower_ascii (a : ascii) : ascii :=
  let n := Ascii.nat_of_ascii a in
  if ((65 <=? n) && (n <=? 90))%nat then Ascii.ascii_of_nat (n + 32) else a.

Definition lower (s : string) : string := str (map lower_ascii (chars s)).

(** [s.endswith(t)] for a tuple [t] of suffixes. *)
Definition ends_with_any (sufs : list string) (s : string) : bool :=
  existsb (fun suf => ends_with suf s) sufs.

(** ** The external media tool: commands *)

(** Stream specifiers: nothing (every stream), [v], [a], [v:1], ... *)
Inductive type_sel := SelV | SelA.

Inductive stream_spec :=
| AllStreams
| OfType (t : type_sel) (idx : option nat).

(** [-map 0], [-map 0:v:0], [-map 0:a?] *)
Record map_arg := MapArg {
  map_input : nat;
  map_spec : stream_spec;
  map_optional : bool
}.

Inductive codec_choice :=
| CodecCopy
| CodecEncoder (name : string).

(** The two shapes of ffmpeg command line the scripts build. *)
Inductive ffmpeg_cmd :=
| GrabFrame (ss : Q) (seek_input : bool) (input : string) (vframes : nat) (out : string)
| Remux (inputs : list string) (maps : list map_arg)
        (codecs : list (stream_spec * codec_choice))
        (attached_pic_on : list stream_spec) (out : string).

Definition cmd_output (cmd : ffmpeg_cmd) : string :=
  match cmd with
  | GrabFrame _ _ _ _ out => out
  | Remux _ _ _ _ out => out
  end.

Definition type_matches (t : type_sel) (s : stream) : bool :=
  match t with
  | SelV => is_video s
  | SelA => is_audio s
  end.

(** Does the specifier count this stream (for its index)? *)
Definition spec_counts (spec : stream_spec) (s : stream) : bool :=
  match spec with
  | AllStreams => true
  | OfType t _ => type_matches t s
  end.

(** Does the specifier select this stream, [seen] streams of its type having
    come before? *)
Definition spec_hits (spec : stream_spec) (seen : nat) (s : stream) : bool :=
  match spec with
  | AllStreams => true
  | OfType t None => type_matches t s
  | OfType t (Some k) => type_matches t s && (seen =? k)%nat
  end.

Definition next_seen (spec : stream_spec) (seen : nat) (s : stream) : nat :=
  if spec_counts spec s then S seen else seen.

(** The streams a specifier selects, in file order. *)
Fixpoint select (spec : stream_spec) (seen : nat) (l : list stream) : list stream :=
  match l with
  | [] => []
  | s :: r =>
      (if spec_hits spec seen s then [s] else []) ++ select spec (next_seen spec seen s) r
  end.

(** Apply [f] to the entries a specifier selects. *)
Fixpoint retag {A} (key : A → stream) (spec : stream_spec) (f : A → A)
    (seen : nat) (l : list A) : list A :=
  match l with
  | [] => []
  | x :: r =>
      (if spec_hits spec seen (key x) then f x else x)
        :: retag key spec f (next_seen spec seen (key x)) r
  end.

(** The streams ffmpeg reads from an input file; a picture is one video stream. *)
Definition input_streams (c : content) : option (list stream) :=
  match c with
  | Media m => Some (streams m)
  | Image px => Some [ Stream (Video false) "mjpeg" (Stored px) ]
  | Bytes _ => None
  end.

(** [-map] arguments, in order; a specifier that matches nothing is an error
    unless it ends in [?]. *)
Fixpoint resolve_maps (ins : list (list stream)) (maps : list map_arg)
    : option (list stream) :=
  match maps with
  | [] => Some []
  | m :: rest =>
      match ins !! map_input m with
      | None => None
      | Some l =>
          let sel := select (map_spec m) 0 l in
          if bool_decide (sel = []) && negb (map_optional m) then None
          else (sel ++.) <$> resolve_maps ins rest
      end
  end.

(** [-c] arguments: the last one that matches an output stream decides. *)
Definition choose_codecs (codecs : list (stream_spec * codec_choice))
    (l : list stream) : list (stream * codec_choice) :=
  fold_left (fun acc a => retag fst a.1 (fun p => (p.1, a.2)) 0 acc)
            codecs (map (fun s => (s, CodecEncoder "native")) l).

Definition encode (p : stream * codec_choice) : stream :=
  match p.2 with
  | CodecCopy => p.1
  | CodecEncoder name => Stream (s_type p.1) name (Transcoded name (s_data p.1))
  end.

(** [-disposition:<spec> attached_pic] *)
Definition set_attached_pic (s : stream) : stream :=
  match s_type s with
  | Video _ => Stream (Video true) (s_codec s) (s_data s)
  | _ => s
  end.

Definition apply_dispositions (specs : list stream_spec) (l : list stream) : list stream :=
  fold_left (fun acc spec => retag id spec set_attached_pic 0 acc) specs l.

Definition remux_streams (ins : list (list stream)) (maps : list map_arg)
    (codecs : list (stream_spec * codec_choice)) (pics : list stream_spec)
    : option (list stream) :=
  (fun sel => apply_dispositions pics (map encode (choose_codecs codecs sel)))
    <$> resolve_maps ins maps.

(** ** The environment of one run *)

(** How an ffprobe call goes: it prints its report, the program is not
    installed, it exits non-zero, or what it prints is not JSON. *)
Inductive probe_fault :=
| ProbeRuns
| ProbeMissing
| ProbeExits
| ProbeGarbled.

(** How an ffmpeg call goes; a run that exits non-zero may leave part of its
    output file behind. *)
Inductive tool_fault :=
| ToolRuns
| ToolMissing
| ToolExits (partial : option bytes).

(** How [shutil.move] goes.  It renames; when the rename is refused (another
    file system, or an existing destination on Windows) it copies the source
    over the destination and unlinks the source, and that copy can stop after
    it has opened and truncated the destination. *)
Inductive move_fault :=
| MoveWorks
| MoveFailsClean
| MoveFailsPartway (written : bytes).

Record env := Env {
  tmpdir : string;
  tmp_names : list string;
  probe_streams_fault : probe_fault;
  probe_format_fault : probe_fault;
  extract_fault : tool_fault;
  decoded_frame : option bytes;
  mux_fault : tool_fault;
  commit_fault : move_fault
}.

(** ** State and effects *)

(** Calls that touch the file system, recorded in order. *)
Inductive effect :=
| Eff_probe (path : string)
| Eff_mktemp (path : string)
| Eff_ffmpeg (cmd : ffmpeg_cmd) (ok : bool)
| Eff_move (src dst : string) (how : move_fault)
| Eff_remove (path : string).

(** The paths a call may create, change or delete. *)
Definition targets (e : effect) : list string :=
  match e with
  | Eff_probe _ => []
  | Eff_mktemp p => [p]
  | Eff_ffmpeg cmd _ => [cmd_output cmd]
  | Eff_move src dst _ => [src; dst]
  | Eff_remove p => [p]
  end.

(** Lines of the console script's output, one constructor per [print]. *)
Inductive line :=
| L_tool_missing (tool : string)
| L_download_hint
| L_path_missing (path : string)
| L_banner
| L_cancelled
| L_not_a_video
| L_scanning (path : string)
| L_all_done
| L_start (filename : string)
| L_checking_cover
| L_skip_has_cover (filename : string)
| L_no_cover
| L_skip_short (duration : Q)
| L_step (n : nat)
| L_step_ok (n : nat)
| L_success (filename : string)
| L_failed (filename : string)
| L_ffmpeg_log
| L_python_log (e : exn).

(** The terminal outcome of one file, in the words of the design. *)
Inductive outcome :=
| Skipped (reason : string)
| Success
| Failed (reason : string).

(** The status texts [Worker.process_single_video] returns, one constructor
    per [return]. *)
Inductive status :=
| St_has_cover
| St_no_duration
| St_too_short (duration value : Q)
| St_extract_failed
| St_ffmpeg_failed (e : exn)
| St_unknown (e : exn)
| St_embedded.

(** The Qt signals a worker emits. *)
Inductive signal :=
| Sig_progress (filename : string) (s : status)
| Sig_error (e : exn)
| Sig_finished.

(** The file system, the record of calls, the console, the signals emitted, and
    the two local variables of the running pipeline that its [finally] block
    reads. *)
Record state := State {
  fs : gmap string content;
  trace : list effect;
  stdout : list line;
  signals : list signal;
  temp_cover : string;
  temp_output : string
}.

Definition with_fs (f : gmap string content → gmap string content) (st : state) : state :=
  State (f (fs st)) (trace st) (stdout st) (signals st) (temp_cover st) (temp_output st).

Definition record (e : effect) (st : state) : state :=
  State (fs st) (trace st ++ [e]) (stdout st) (signals st) (temp_cover st) (temp_output st).

Definition emit (l : line) (st : state) : state :=
  State (fs st) (trace st) (stdout st ++ [l]) (signals st) (temp_cover st) (temp_output st).

Definition send (s : signal) (st : state) : state :=
  State (fs st) (trace st) (stdout st) (signals st ++ [s]) (temp_cover st) (temp_output st).

Definition set_temp_cover (p : string) (st : state) : state :=
  State (fs st) (trace st) (stdout st) (signals st) p (temp_output st).

Definition set_temp_output (p : string) (st : state) : state :=
  State (fs st) (trace st) (stdout st) (signals st) (temp_cover st) p.

Definition init_state (files : gmap string content) : state :=
  State files [] [] [] "" "".

(** Computations that read and change the state and may raise. *)
Definition M (A : Type) : Type := state → res A * state.

Definition ret {A} (a : A) : M A := fun st => (Ret a, st).
Definition raise {A} (e : exn) : M A := fun st => (Raise e, st).

Definition bind {A B} (m : M A) (k : A → M B) : M B :=
  fun st =>
    match m st with
    | (Ret a, st') => k a st'
    | (Raise e, st') => (Raise e, st')
    end.

(** [try: m  except <classes> as e: h e]; [catches] says which exceptions the
    clause names. *)
Definition try_except {A} (catches : exn → bool) (m : M A) (h : exn → M A) : M A :=
  fun st =>
    match m st with
    | (Ret a, st') => (Ret a, st')
    | (Raise e, st') => if catches e then h e st' else (Raise e, st')
    end.

(** [except Exception]: everything but [SystemExit]. *)
Definition is_Exception (e : exn) : bool :=
  match e with
  | SystemExit _ => false
  | _ => true
  end.

(** [try: m  finally: c]; an exception of [c] replaces the result of [m]. *)
Definition try_finally {A} (m : M A) (c : M unit) : M A :=
  fun st =>
    match m st with
    | (r, st') =>
        match c st' with
        | (Ret _, st'') => (r, st'')
        | (Raise e, st'') => (Raise e, st'')
        end
    end.

Definition lift {A} (r : res A) : M A := fun st => (r, st).
Definition get {A} (f : state → A) : M A := fun st => (Ret (f st), st).
Definition modify (f : state → state) : M unit := fun st => (Ret tt, f st).
Definition print (l : line) : M unit := modify (emit l).

Declare Scope M_scope.
Delimit Scope M_scope with M.
Notation "x <- m ;; k" := (bind m (fun x => k))
  (at level 100, m at next level, k at level 200, right associativity) : M_scope.
Notation "m ;; k" := (bind m (fun _ => k))
  (at level 100, k at level 200, right associativity) : M_scope.
Local Open Scope M_scope.

(** ** The primitives *)

(** [subprocess.run(['ffprobe', ..., path], check=True)] followed by
    [json.loads(result.stdout)]. *)
Definition ffprobe (report : container → json) (how : probe_fault) (path : string) : M json :=
  modify (record (Eff_probe path)) ;;
  match how with
  | ProbeMissing => raise FileNotFoundError
  | ProbeExits => raise CalledProcessError
  | ProbeGarbled => raise JSONDecodeError
  | ProbeRuns =>
      files <- get fs ;;
      match files !! path with
      | Some (Media c) => ret (report c)
      | _ => raise CalledProcessError
      end
  end.

(** [tempfile.NamedTemporaryFile(suffix=..., delete=False)]: the candidate
    names are tried in turn and the first that does not exist yet is created,
    empty.  A name longer than the file system allows is refused at once; when
    every candidate exists the module gives up. *)
Definition NAME_MAX : nat := 255.

Definition temp_name (dir r suffix : string) : string :=
  dir +:+ "/tmp" +:+ r +:+ suffix.

Fixpoint first_fresh (files : gmap string content) (dir suffix : string)
    (names : list string) : res string :=
  match names with
  | [] => Raise FileExistsError
  | r :: rest =>
      if (NAME_MAX <? String.length ("tmp" +:+ r +:+ suffix))%nat then Raise OSError
      else
        match files !! temp_name dir r suffix with
        | None => Ret (temp_name dir r suffix)
        | Some _ => first_fresh files dir suffix rest
        end
  end.

Definition NamedTemporaryFile (e : env) (suffix : string) : M string :=
  files <- get fs ;;
  p <- lift (first_fresh files (tmpdir e) suffix (tmp_names e)) ;;
  modify (with_fs (insert p (Bytes ""))) ;;
  modify (record (Eff_mktemp p)) ;;
  ret p.

(** What a run of ffmpeg that is not disturbed does: [None] is a non-zero
    exit, [Some None] a zero exit with nothing written, [Some (Some c)] a zero
    exit with [c] written to the output path. *)
Definition ffmpeg_result (files : gmap string content) (frame : option bytes)
    (cmd : ffmpeg_cmd) : option (option content) :=
  match cmd with
  | GrabFrame _ _ input _ _ =>
      match files !! input with
      | Some (Media c) =>
          if existsb is_video (streams c) then Some (Image <$> frame) else None
      | _ => None
      end
  | Remux inputs maps codecs pics _ =>
      ins ← mapM (fun p => files !! p ≫= input_streams) inputs ;
      out ← remux_streams ins maps codecs pics ;
      Some (Some (Media (Container out
        (match inputs !! 0%nat ≫= (files !!.) with
         | Some (Media c) => fmt_duration c
         | _ => None
         end))))
  end.

(** [subprocess.run(['ffmpeg', ...], check=True)] *)
Definition ffmpeg (how : tool_fault) (frame : option bytes) (cmd : ffmpeg_cmd) : M unit :=
  match how with
  | ToolMissing =>
      modify (record (Eff_ffmpeg cmd false)) ;; raise FileNotFoundError
  | ToolExits partial =>
      match partial with
      | Some b => modify (with_fs (insert (cmd_output cmd) (Bytes b)))
      | None => ret tt
      end ;;
      modify (record (Eff_ffmpeg cmd false)) ;; raise CalledProcessError
  | ToolRuns =>
      files <- get fs ;;
      match ffmpeg_result files frame cmd with
      | None => modify (record (Eff_ffmpeg cmd false)) ;; raise CalledProcessError
      | Some written =>
          match written with
          | Some c => modify (with_fs (insert (cmd_output cmd) c))
          | None => ret tt
          end ;;
          modify (record (Eff_ffmpeg cmd true))
      end
  end.

(** [os.path.exists]; the empty path never exists. *)
Definition path_exists (p : string) : M bool :=
  files <- get fs ;;
  ret (bool_decide (p ≠ "") && bool_decide (is_Some (files !! p))).

(** [os.path.getsize] *)
Definition path_getsize (p : string) : M nat :=
  files <- get fs ;;
  match files !! p with
  | Some c => ret (getsize c)
  | None => raise FileNotFoundError
  end.

(** [os.remove] *)
Definition os_remove (p : string) : M unit :=
  files <- get fs ;;
  match files !! p with
  | Some _ => modify (with_fs (delete p)) ;; modify (record (Eff_remove p))
  | None => raise FileNotFoundError
  end.

(** [shutil.move(src, dst)] for a file [src]. *)
Definition shutil_move (how : move_fault) (src dst : string) : M unit :=
  files <- get fs ;;
  match files !! src with
  | None => raise FileNotFoundError
  | Some c =>
      modify (record (Eff_move src dst how)) ;;
      match how with
      | MoveWorks => modify (with_fs (fun m => <[dst := c]> (delete src m)))
      | MoveFailsClean => raise OSError
      | MoveFailsPartway b =>
          modify (with_fs (insert dst (Bytes b))) ;; raise OSError
      end
  end.

(** [for x in l: body x] *)
Fixpoint for_each {A} (l : list A) (body : A → M unit) : M unit :=
  match l with
  | [] => ret tt
  | x :: rest => body x ;; for_each rest body
  end.

(** [for stream in items: if test(stream): return True] then [return False] *)
Fixpoint any_stream (test : json → res bool) (items : list json) : res bool :=
  match items with
  | [] => Ret false
  | s :: rest =>
      rbind (test s) (fun b => if b then Ret true else any_stream test rest)
  end.

(** [a < b] on floats *)
Definition Qlt_bool (a b : Q) : bool := negb (Qle_bool b a).

(** ** embed_cover.py *)

Module Cli.

Definition VIDEO_EXTENSIONS : list string := [".mp4"; ".mkv"; ".mov"].
Definition THUMBNAIL_TIME_SECONDS : Z := 20.

(** The names bound at module level: the five imports, the two constants and
    the five functions. *)
Definition imports : list string := ["os"; "subprocess"; "tempfile"; "shutil"; "json"].

Definition module_globals : list string :=
  imports ++ ["VIDEO_EXTENSIONS"; "THUMBNAIL_TIME_SECONDS"; "check_ffmpeg";
              "has_embedded_cover"; "get_video_duration"; "process_video"; "main"].

(** Looking up a global name in a function body. *)
Definition load_global (name : string) : M unit :=
  if bool_decide (name ∈ module_globals) then ret tt else raise (NameError name).

(** [sys.exit(code)]: the name [sys] is looked up first. *)
Definition sys_exit (code : Z) : M unit :=
  load_global "sys" ;; raise (SystemExit code).

(** [subprocess.run([tool, '-version'], check=True)] *)
Definition run_version (how : tool_fault) (tool : string) : M unit :=
  match how with
  | ToolRuns => ret tt
  | ToolMissing => raise FileNotFoundError
  | ToolExits _ => raise CalledProcessError
  end.

Definition check_ffmpeg (how : tool_fault) : M unit :=
  for_each ["ffmpeg"] (fun tool =>
    try_except
      (fun e => match e with FileNotFoundError | CalledProcessError => true | _ => false end)
      (run_version how tool)
      (fun _ =>
         print (L_tool_missing tool) ;;
         print L_download_hint ;;
         sys_exit 1)).

(** [stream.get('disposition', {}).get('attached_pic', 0) == 1] *)
Definition stream_has_cover (stream : json) : res bool :=
  rbind (py_get stream "disposition" (JObj [])) (fun d =>
  rbind (py_get d "attached_pic" (JNum 0)) (fun v =>
  Ret (py_eq_one v))).

Definition scan_streams (data : json) : res bool :=
  rbind (py_get data "streams" (JArr [])) (fun l =>
  rbind (py_iter l) (fun items =>
  any_stream stream_has_cover items)).

Definition has_embedded_cover (e : env) (video_path : string) : M bool :=
  print L_checking_cover ;;
  try_except is_Exception
    (data <- ffprobe show_streams_json (probe_streams_fault e) video_path ;;
     lift (scan_streams data))
    (fun _ => ret false).

(** [float(data.get('format', {}).get('duration', 0))] *)
Definition read_duration (data : json) : res Q :=
  rbind (py_get data "format" (JObj [])) (fun f =>
  rbind (py_get f "duration" (JNum 0)) (fun d =>
  py_float d)).

Definition get_video_duration (e : env) (video_path : string) : M Q :=
  try_except is_Exception
    (data <- ffprobe (show_format_json video_path) (probe_format_fault e) video_path ;;
     lift (read_duration data))
    (fun _ => ret 0%Q).

(** ['ffmpeg', '-i', video_path, '-ss', '20', '-vframes', '1', '-q:v', '2',
     '-y', '-hide_banner', temp_cover_path] *)
Definition extract_command (video_path temp_cover_path : string) : ffmpeg_cmd :=
  GrabFrame (inject_Z THUMBNAIL_TIME_SECONDS) false video_path 1 temp_cover_path.

(** ['ffmpeg', '-i', video_path, '-i', temp_cover_path,
     '-map', '0:v:0', '-map', '0:a?', '-map', '1',
     '-c', 'copy', '-c:v:1', 'png',
     '-disposition:v:1', 'attached_pic', '-y', '-hide_banner', temp_output_path] *)
Definition embed_command (video_path temp_cover_path temp_output_path : string) : ffmpeg_cmd :=
  Remux [video_path; temp_cover_path]
        [ MapArg 0 (OfType SelV (Some 0%nat)) false;
          MapArg 0 (OfType SelA None) true;
          MapArg 1 AllStreams false ]
        [ (AllStreams, CodecCopy); (OfType SelV (Some 1%nat), CodecEncoder "png") ]
        [ OfType SelV (Some 1%nat) ]
        temp_output_path.

(** The [finally] block of [process_video]. *)
Definition cleanup : M unit :=
  print (L_step 4) ;;
  temp_cover_path <- get temp_cover ;;
  there <- path_exists temp_cover_path ;;
  (if there then os_remove temp_cover_path else ret tt) ;;
  temp_output_path <- get temp_output ;;
  there <- path_exists temp_output_path ;;
  (if there then os_remove temp_output_path else ret tt).

(** The [try] suite of [process_video]. *)
Definition attempt (e : env) (video_path : string) : M unit :=
  let filename := basename video_path in
  print (L_step 1) ;;
  temp_cover_path <- NamedTemporaryFile e ".jpg" ;;
  modify (set_temp_cover temp_cover_path) ;;
  ffmpeg (extract_fault e) (decoded_frame e)
         (extract_command video_path temp_cover_path) ;;
  there <- path_exists temp_cover_path ;;
  size <- (if there then path_getsize temp_cover_path else ret 0%nat) ;;
  (if negb there || (size =? 0)%nat then raise (RuntimeError "no picture") else ret tt) ;;
  print (L_step_ok 1) ;;
  print (L_step 2) ;;
  let temp_output_path :=
    (splitext video_path).1 +:+ ".temp_video" +:+ (splitext video_path).2 in
  modify (set_temp_output temp_output_path) ;;
  ffmpeg (mux_fault e) None
         (embed_command video_path temp_cover_path temp_output_path) ;;
  print (L_step_ok 2) ;;
  print (L_step 3) ;;
  shutil_move (commit_fault e) temp_output_path video_path ;;
  print (L_step_ok 3) ;;
  print (L_success filename).

(** The [except Exception as e] suite. *)
Definition report_failure (video_path : string) (ex : exn) : M unit :=
  print (L_failed (basename video_path)) ;;
  match ex with
  | CalledProcessError => print L_ffmpeg_log
  | _ => print (L_python_log ex)
  end.

Definition process_video (e : env) (video_path : string) : M unit :=
  let filename := basename video_path in
  print (L_start filename) ;;
  covered <- has_embedded_cover e video_path ;;
  if covered then print (L_skip_has_cover filename)
  else
    print L_no_cover ;;
    duration <- get_video_duration e video_path ;;
    if Qlt_bool duration (inject_Z THUMBNAIL_TIME_SECONDS) then print (L_skip_short duration)
    else
      modify (set_temp_cover "") ;;
      modify (set_temp_output "") ;;
      try_finally
        (try_except is_Exception (attempt e video_path) (report_failure video_path))
        cleanup.

(** What the run needs to know of the machine and of the person at the
    console: the two answers typed, which paths are directories, what
    [os.walk] yields, and how the external calls go for each file. *)
Record console := Console {
  typed_path : string;
  typed_confirm : string;
  is_dir : string → bool;
  walk : string → list (string * list string);
  file_env : string → env;
  version_fault : tool_fault
}.

Definition is_file (p : string) : M bool :=
  files <- get fs ;; ret (bool_decide (is_Some (files !! p))).

Definition main (c : console) : M unit :=
  let input_path := typed_path c in
  file <- is_file input_path ;;
  if negb (file || is_dir c input_path) then print (L_path_missing input_path)
  else
    print L_banner ;;
    let confirm := typed_confirm c in
    if negb (bool_decide (confirm ∈ ["y"; "yes"])) then print L_cancelled
    else
      (if file then
         if ends_with_any VIDEO_EXTENSIONS (lower input_path)
         then process_video (file_env c input_path) input_path
         else print L_not_a_video
       else if is_dir c input_path then
         print (L_scanning input_path) ;;
         for_each (walk c input_path) (fun '(dirpath, filenames) =>
           for_each filenames (fun filename =>
             if ends_with_any VIDEO_EXTENSIONS (lower filename)
             then let video_path := path_join dirpath filename in
                  process_video (file_env c video_path) video_path
             else ret tt))
       else ret tt) ;;
      print L_all_done.

(** The script: [check_ffmpeg()] then [main()]. *)
Definition script (c : console) : M unit :=
  check_ffmpeg (version_fault c) ;; main c.

(** The exit status of the interpreter: zero when the script returns, the
    code of [sys.exit], one after an exception nothing caught. *)
Definition exit_status (r : res unit) : Z :=
  match r with
  | Ret _ => 0
  | Raise (SystemExit code) => code
  | Raise _ => 1
  end.

(** The outcome a file's lines of output announce. *)
Definition outcome_of_line (l : line) : option outcome :=
  match l with
  | L_skip_has_cover _ => Some (Skipped "already has cover")
  | L_skip_short _ => Some (Skipped "too short for requested timestamp")
  | L_success _ => Some Success
  | L_failed _ => Some (Failed "processing failed")
  | _ => None
  end.

Definition outcomes (out : list line) : list outcome :=
  omap outcome_of_line out.

End Cli.

(** ** gui.py: the worker *)

Module Gui.

(** The settings a worker reads from [self.config]. *)
Record config := Config {
  use_percent : bool;
  percent_value : Q;
  time_seconds : Z;
  save_to_new_dir : bool;
  output_dir : string;
  overwrite_existing : bool;
  max_workers : nat
}.

(** [except (subprocess.CalledProcessError, json.JSONDecodeError,
    FileNotFoundError)] *)
Definition probe_errors (e : exn) : bool :=
  match e with
  | CalledProcessError | JSONDecodeError | FileNotFoundError => true
  | _ => false
  end.

(** [except OSError]: the class and its subclasses. *)
Definition is_OSError (e : exn) : bool :=
  match e with
  | OSError | FileNotFoundError | FileExistsError => true
  | _ => false
  end.

(** [stream.get('codec_type') == 'video' and
     stream.get('disposition', {}).get('attached_pic', 0) == 1] *)
Definition stream_has_cover (stream : json) : res bool :=
  rbind (py_get stream "codec_type" JNull) (fun t =>
  if py_eq_str t "video" then
    rbind (py_get stream "disposition" (JObj [])) (fun d =>
    rbind (py_get d "attached_pic" (JNum 0)) (fun v =>
    Ret (py_eq_one v)))
  else Ret false).

Definition scan_streams (data : json) : res bool :=
  rbind (py_get data "streams" (JArr [])) (fun l =>
  rbind (py_iter l) (fun items =>
  any_stream stream_has_cover items)).

Definition has_embedded_cover (e : env) (video_path : string) : M bool :=
  try_except probe_errors
    (data <- ffprobe show_streams_json (probe_streams_fault e) video_path ;;
     lift (scan_streams data))
    (fun _ => ret false).

Definition read_duration (data : json) : res Q :=
  rbind (py_get data "format" (JObj [])) (fun f =>
  rbind (py_get f "duration" (JNum 0)) (fun d =>
  py_float d)).

Definition get_video_duration (e : env) (video_path : string) : M Q :=
  try_except probe_errors
    (data <- ffprobe (show_format_json video_path) (probe_format_fault e) video_path ;;
     lift (read_duration data))
    (fun _ => ret 0%Q).

(** [second = (duration * value / 100) if mode == 'percent' else value] *)
Definition timestamp (mode : string) (value duration : Q) : Q :=
  if bool_decide (mode = "percent") then (duration * value / 100)%Q else value.

(** ['ffmpeg', '-ss', str(second), '-i', video_path, '-vframes', '1',
     '-q:v', '2', '-y', temp_cover] *)
Definition ffmpeg_extract_cmd (second : Q) (video_path temp_cover : string) : ffmpeg_cmd :=
  GrabFrame second true video_path 1 temp_cover.

(** ['ffmpeg', '-i', video_path, '-i', temp_cover, '-map', '0', '-map', '1',
     '-c', 'copy', '-disposition:v:1', 'attached_pic', '-y', temp_output] *)
Definition ffmpeg_embed_cmd (video_path temp_cover temp_output : string) : ffmpeg_cmd :=
  Remux [video_path; temp_cover]
        [ MapArg 0 AllStreams false; MapArg 1 AllStreams false ]
        [ (AllStreams, CodecCopy) ]
        [ OfType SelV (Some 1%nat) ]
        temp_output.

(** Where the rebuilt file goes: [out_dir] counts when it is a non-empty
    string. *)
Definition final_path (video_path : string) (out_dir : option string) : string :=
  match out_dir with
  | Some d => if bool_decide (d = "") then video_path
              else path_join d (basename video_path)
  | None => video_path
  end.

(** The [finally] block of [process_single_video]. *)
Definition cleanup : M unit :=
  c <- get temp_cover ;;
  o <- get temp_output ;;
  for_each [c; o] (fun f =>
    if bool_decide (f = "") then ret tt
    else
      there <- path_exists f ;;
      if there then try_except is_OSError (os_remove f) (fun _ => ret tt)
      else ret tt).

(** The [try] suite of [process_single_video]. *)
Definition attempt (e : env) (video_path : string) (second : Q)
    (out_dir : option string) : M status :=
  tf_cover <- NamedTemporaryFile e ".jpg" ;;
  tf_output <- NamedTemporaryFile e (splitext video_path).2 ;;
  modify (set_temp_cover tf_cover) ;;
  modify (set_temp_output tf_output) ;;
  ffmpeg (extract_fault e) (decoded_frame e)
         (ffmpeg_extract_cmd second video_path tf_cover) ;;
  there <- path_exists tf_cover ;;
  size <- (if there then path_getsize tf_cover else ret 0%nat) ;;
  if negb there || (size =? 0)%nat then ret St_extract_failed
  else
    ffmpeg (mux_fault e) None (ffmpeg_embed_cmd video_path tf_cover tf_output) ;;
    shutil_move (commit_fault e) tf_output (final_path video_path out_dir) ;;
    ret St_embedded.

(** The two [except] suites. *)
Definition report_failure (ex : exn) : M status :=
  match ex with
  | CalledProcessError => ret (St_ffmpeg_failed ex)
  | _ => ret (St_unknown ex)
  end.

Definition process_single_video (cfg : config) (e : env)
    (video_path mode : string) (value : Q) (out_dir : option string) : M status :=
  covered <- (if negb (overwrite_existing cfg) then has_embedded_cover e video_path
              else ret false) ;;
  if covered then ret St_has_cover
  else
    duration <- get_video_duration e video_path ;;
    if Qeq_bool duration 0 then ret St_no_duration
    else if bool_decide (mode = "time") && Qlt_bool duration value
    then ret (St_too_short duration value)
    else
      let second := timestamp mode value duration in
      modify (set_temp_cover "") ;;
      modify (set_temp_output "") ;;
      try_finally
        (try_except is_Exception (attempt e video_path second out_dir) report_failure)
        cleanup.

(** [Worker.run] *)
Definition run (cfg : config) (e : env) (video_path : string) : M unit :=
  try_finally
    (try_except is_Exception
       (let filename := basename video_path in
        let mode := if use_percent cfg then "percent" else "time" in
        let value := if bool_decide (mode = "percent") then percent_value cfg
                     else inject_Z (time_seconds cfg) in
        let out_dir := if save_to_new_dir cfg then Some (output_dir cfg) else None in
        status <- process_single_video cfg e video_path mode value out_dir ;;
        modify (send (Sig_progress filename status)))
       (fun ex => modify (send (Sig_error ex))))
    (modify (send Sig_finished)).

(** The outcome a status text stands for: the texts that start with "error"
    are failures, the two that say "skip" are skips. *)
Definition outcome_of_status (s : status) : outcome :=
  match s with
  | St_has_cover => Skipped "already has cover"
  | St_no_duration => Failed "duration unavailable"
  | St_too_short _ _ => Skipped "too short for requested timestamp"
  | St_extract_failed => Failed "extraction failed"
  | St_ffmpeg_failed _ => Failed "ffmpeg failed"
  | St_unknown _ => Failed "unknown exception"
  | St_embedded => Success
  end.

(** *** The settings as the window saves them

    [save_ui_to_config] reads the spin boxes, and a spin box keeps its value in
    its range: the percentage in [0.1, 99.9], the seconds in [1, 7200]. *)
Definition clampQ (lo hi v : Q) : Q :=
  if Qlt_bool v lo then lo else if Qlt_bool hi v then hi else v.

Definition clampZ (lo hi v : Z) : Z :=
  if (v <? lo)%Z then lo else if (hi <? v)%Z then hi else v.

Definition percent_spin_value (v : Q) : Q := clampQ (1 # 10) (999 # 10) v.
Definition time_spin_value (v : Z) : Z := clampZ 1 7200 v.

End Gui.

(** ** gui.py: the window and its thread pool *)

Module MainApp.

(** [QThreadPool]: the runnables waiting in the queue and those a thread is
    running. *)
Record pool := Pool {
  max_thread_count : nat;
  queue : list string;
  active : list string
}.

(** [QThreadPool.start]: the runnable gets a thread unless that would exceed
    the maximum; then it is queued. *)
Definition pool_start (w : string) (p : pool) : pool :=
  if (length (active p) <? max_thread_count p)%nat
  then Pool (max_thread_count p) (queue p) (active p ++ [w])
  else Pool (max_thread_count p) (queue p ++ [w]) (active p).

(** [QThreadPool.clear]: the runnables not yet started leave the queue. *)
Definition pool_clear (p : pool) : pool :=
  Pool (max_thread_count p) [] (active p).

Fixpoint remove_first (w : string) (l : list string) : list string :=
  match l with
  | [] => []
  | x :: rest => if bool_decide (x = w) then rest else x :: remove_first w rest
  end.

(** A thread whose runnable has returned takes the next runnable of the queue,
    if there is one. *)
Definition pool_finish (w : string) (p : pool) : pool :=
  match queue p with
  | next :: rest =>
      Pool (max_thread_count p) rest (remove_first w (active p) ++ [next])
  | [] => Pool (max_thread_count p) [] (remove_first w (active p))
  end.

(** [QThreadPool.activeThreadCount] *)
Definition activeThreadCount (p : pool) : nat := length (active p).

(** Entries of the log view. *)
Inductive log_entry :=
| Log_started
| Log_max_threads (n : nat)
| Log_found (n : nat)
| Log_status (filename : string) (s : status)
| Log_error (e : exn)
| Log_stop_requested
| Log_ended.

(** The window: its settings and file set, the pool, the counter of workers
    still to finish, the log, whether the start button is enabled, the state
    the workers act on, and the signals that wait for the event loop.
    [waiting] is set while the window's thread is inside [waitForDone]. *)
Record app := App {
  cfg : Gui.config;
  files : list string;
  threadpool : pool;
  active_workers : Z;
  log_view : list log_entry;
  controls_enabled : bool;
  world : state;
  inbox : list signal;
  waiting : bool
}.

Definition on_all_workers_finished (a : app) : app :=
  App (cfg a) (files a) (threadpool a) (active_workers a)
      (log_view a ++ [Log_ended]) true (world a) (inbox a) (waiting a).

Definition on_worker_finished (a : app) : app :=
  let a' := App (cfg a) (files a) (threadpool a) (active_workers a - 1)
                (log_view a) (controls_enabled a) (world a) (inbox a) (waiting a) in
  if (active_workers a' =? 0)%Z then on_all_workers_finished a' else a'.

Definition log_file_status (entry : log_entry) (a : app) : app :=
  App (cfg a) (files a) (threadpool a) (active_workers a)
      (log_view a ++ [entry]) (controls_enabled a) (world a) (inbox a) (waiting a).

(** [start_processing]; [out_dir_ok] says whether the output directory typed
    in the window is a directory. *)
Definition start_processing (out_dir_ok : bool) (a : app) : app :=
  if (0 <? activeThreadCount (threadpool a))%nat then a
  else if bool_decide (files a = []) then a
  else if Gui.save_to_new_dir (cfg a) && negb out_dir_ok then a
  else
    let p0 := Pool (Gui.max_workers (cfg a)) (queue (threadpool a))
                   (active (threadpool a)) in
    App (cfg a) (files a)
        (fold_left (fun p w => pool_start w p) (files a) p0)
        (Z.of_nat (length (files a)))
        (log_view a ++ [Log_started; Log_max_threads (Gui.max_workers (cfg a));
                        Log_found (length (files a))])
        false (world a) (inbox a) (waiting a).

(** [stop_processing] up to its call of [waitForDone], which blocks. *)
Definition stop_requested (a : app) : app :=
  App (cfg a) (files a) (pool_clear (threadpool a)) (active_workers a)
      (log_view a ++ [Log_stop_requested]) (controls_enabled a) (world a)
      (inbox a) true.

(** [stop_processing] after [waitForDone] has returned. *)
Definition stop_completed (a : app) : app :=
  let a' := on_all_workers_finished a in
  App (cfg a') (files a') (threadpool a') (active_workers a')
      (log_view a') (controls_enabled a') (world a') (inbox a') false.

(** A worker thread runs [Worker.run] to its end; its signals wait for the
    event loop. *)
Definition worker_done (envs : string → env) (w : string) (a : app) : app :=
  let '(_, st') := Gui.run (cfg a) (envs w) w (world a) in
  App (cfg a) (files a) (pool_finish w (threadpool a)) (active_workers a)
      (log_view a) (controls_enabled a)
      (State (fs st') (trace st') (stdout st') [] (temp_cover st') (temp_output st'))
      (inbox a ++ signals st') (waiting a).

(** The event loop delivers the oldest waiting signal to its slot. *)
Definition deliver (s : signal) (a : app) : app :=
  match s with
  | Sig_progress filename st => log_file_status (Log_status filename st) a
  | Sig_error e => log_file_status (Log_error e) a
  | Sig_finished => on_worker_finished a
  end.

Definition take_signal (a : app) : app :=
  App (cfg a) (files a) (threadpool a) (active_workers a) (log_view a)
      (controls_enabled a) (world a) (tail (inbox a)) (waiting a).

Inductive event :=
| Ev_start (out_dir_ok : bool)
| Ev_stop
| Ev_wait_returns
| Ev_worker_done (w : string)
| Ev_deliver.

(** One step of the window with its pool, [None] when the event cannot happen.
    The window's thread handles a click or a signal only while it is not
    blocked in [waitForDone], and a button only while it is enabled;
    [waitForDone] returns only once no thread is active; a worker thread can
    finish at any time.  There is no step that ends a running worker
    otherwise. *)
Definition fire (envs : string → env) (ev : event) (a : app) : option app :=
  match ev with
  | Ev_start ok =>
      if waiting a || negb (controls_enabled a) then None
      else Some (start_processing ok a)
  | Ev_stop =>
      if waiting a || controls_enabled a then None
      else Some (stop_requested a)
  | Ev_wait_returns =>
      if waiting a && bool_decide (active (threadpool a) = [])
      then Some (stop_completed a) else None
  | Ev_worker_done w =>
      if bool_decide (w ∈ active (threadpool a))
      then Some (worker_done envs w a) else None
  | Ev_deliver =>
      if waiting a then None
      else match inbox a with
           | s :: _ => Some (deliver s (take_signal a))
           | [] => None
           end
  end.

Fixpoint exec (envs : string → env) (evs : list event) (a : app) : option app :=
  match evs with
  | [] => Some a
  | ev :: rest =>
      match fire envs ev a with
      | Some a1 => exec envs rest a1
      | None => None
      end
  end.

End MainApp.

(** ** gui.py: the list of custom formats *)

Module CustomFormatWidget.

(** The line edit and the list of the widget. *)
Record widget := Widget {
  format_input : string;
  format_list : list string
}.

(** The ASCII characters [str.strip] removes: tab, line feed, vertical tab,
    form feed, carriage return, the four separators and the space. *)
Definition is_space (a : ascii) : bool :=
  let n := Ascii.nat_of_ascii a in
  ((9 <=? n) && (n <=? 13) || (28 <=? n) && (n <=? 32))%nat.

Fixpoint lstrip (l : list ascii) : list ascii :=
  match l with
  | a :: r => if is_space a then lstrip r else l
  | [] => []
  end.

(** [s.strip()] *)
Definition strip (s : string) : string :=
  str (rev (lstrip (rev (lstrip (chars s))))).

(** What [add_format] does with the text typed: [None] when it returns at
    once, the format with its dot otherwise. *)
Definition typed_format (w : widget) : option string :=
  let text := lower (strip (format_input w)) in
  if bool_decide (text = "") then None
  else Some (if starts_with "." text then text else "." +:+ text).

(** [add_format]; the second component says whether the warning about a
    format that is there already was shown. *)
Definition add_format (w : widget) : widget * bool :=
  match typed_format w with
  | None => (w, false)
  | Some text =>
      if bool_decide (text ∈ format_list w) then (w, true)
      else (Widget "" (format_list w ++ [text]), false)
  end.

(** [remove_format]; [selected] holds the rows of the selected items. *)
Definition remove_format (selected : list nat) (w : widget) : widget :=
  Widget (format_input w)
         (omap (fun '(i, x) => if bool_decide (i ∈ selected) then None else Some x)
               (imap (fun i x => (i, x)) (format_list w))).

Definition get_formats (w : widget) : list string := format_list w.

Definition set_formats (formats : list string) (w : widget) : widget :=
  Widget (format_input w) formats.

End CustomFormatWidget.

(** ** gui.py: the files of the window *)

Module FileList.

(** What the window asks the file system. *)
Record disk := Disk {
  isdir : string → bool;
  isfile : string → bool;
  walk : string → list (string * list string)
}.

(** [self.files], a set, and the items of [self.file_list], in order. *)
Record panel := Panel {
  files : gset string;
  file_list : list string
}.

Definition add_file_to_list (path : string) (p : panel) : panel :=
  if bool_decide (path ∈ files p) then p
  else Panel (files p ∪ {[ path ]}) (file_list p ++ [path]).

Definition add_directory (d : disk) (path : string) (supported_exts : list string)
    (p : panel) : panel :=
  fold_left (fun p '(root, names) =>
    fold_left (fun p file =>
      if ends_with_any supported_exts (lower file)
      then add_file_to_list (path_join root file) p
      else p) names p)
    (walk d path) p.

Definition handle_dropped_files (d : disk) (supported_exts : list string)
    (paths : list string) (p : panel) : panel :=
  fold_left (fun p path =>
    if isdir d path then add_directory d path supported_exts p
    else if isfile d path then
      if ends_with_any supported_exts (lower path) then add_file_to_list path p
      else p
    else p) paths p.

(** [select_files]: what the dialog returns is added as it is. *)
Definition select_files (chosen : list string) (p : panel) : panel :=
  fold_left (fun p f => add_file_to_list f p) chosen p.

(** [select_folder]; the dialog returns the empty string when it is
    cancelled. *)
Definition select_folder (d : disk) (supported_exts : list string) (folder : string)
    (p : panel) : panel :=
  if bool_decide (folder = "") then p else add_directory d folder supported_exts p.

(** [clear_file_list]; [active] is [threadpool.activeThreadCount()]. *)
Definition clear_file_list (active : nat) (p : panel) : panel :=
  if (0 <? active)%nat then p else Panel ∅ [].

(** [remove_selected_files]; [selected] holds the rows of the selected
    items. *)
Definition remove_selected_files (active : nat) (selected : list nat) (p : panel) : panel :=
  if (0 <? active)%nat then p
  else
    fold_left (fun p '(i, text) =>
      if bool_decide (i ∈ selected)
      then Panel (files p ∖ {[ text ]}) (file_list p)
      else p)
      (imap (fun i x => (i, x)) (file_list p))
      (Panel (files p)
             (omap (fun '(i, x) => if bool_decide (i ∈ selected) then None else Some x)
                   (imap (fun i x => (i, x)) (file_list p)))).

(** [get_supported_extensions]: the formats whose box is checked, then the
    custom ones. *)
Definition get_supported_extensions (format_checks : list (string * bool))
    (custom : CustomFormatWidget.widget) : list string :=
  map fst (List.filter snd format_checks) ++ CustomFormatWidget.get_formats custom.

End FileList.

(** * Vocabulary of the properties *)

Local Open Scope list_scope.

(** What holds of the result and final state of a computation run from [st]. *)
Definition wp {A} (m : M A) (st : state) (Q : res A → state → Prop) : Prop :=
  ∀ r st', m st = (r, st') → Q r st'.

(** Writing [w], if anything, at a path. *)
Definition write_at (p : string) (w : option content)
    (m : gmap string content) : gmap string content :=
  match w with
  | Some c => <[p := c]> m
  | None => m
  end.

(** [os.path.exists] as a function of the files. *)
Definition exists_b (p : string) (m : gmap string content) : bool :=
  bool_decide (p ≠ "") && bool_decide (is_Some (m !! p)).

(** [if os.path.exists(p): os.remove(p)] as a function of the state. *)
Definition remove_if_there (p : string) (st : state) : state :=
  if exists_b p (fs st) then record (Eff_remove p) (with_fs (delete p) st) else st.

(** What ffprobe's two reports make the scripts see: whether a stream is
    flagged as attached picture, and the duration; a probe that fails shows
    no cover and duration zero. *)
Definition duration_of (c : container) : Q :=
  match fmt_duration c with
  | Some d => d
  | None => 0
  end.

Definition probed_cover (how : probe_fault) (files : gmap string content)
    (path : string) : bool :=
  match how, files !! path with
  | ProbeRuns, Some (Media c) => existsb is_attached_pic (streams c)
  | _, _ => false
  end.

Definition probed_duration (how : probe_fault) (files : gmap string content)
    (path : string) : Q :=
  match how, files !! path with
  | ProbeRuns, Some (Media c) => duration_of c
  | _, _ => 0
  end.

(** The monitor of the original path [vp] over a record of calls: a call may
    touch [vp] only if it is a move onto [vp] from the output of the latest
    remux that exited with status zero, and that output is another path. *)
Definition remux_output (eff : effect) (ready : option string) : option string :=
  match eff with
  | Eff_ffmpeg (Remux _ _ _ _ out) true => Some out
  | _ => ready
  end.

Fixpoint guarded (vp : string) (ready : option string) (tr : list effect) : Prop :=
  match tr with
  | [] => True
  | eff :: rest =>
      (vp ∈ targets eff →
       ∃ tmp how, eff = Eff_move tmp vp how ∧ ready = Some tmp ∧ tmp ≠ vp)
      ∧ guarded vp (remux_output eff ready) rest
  end.

(** The timestamps of the frame grabs in a record of calls. *)
Definition grab_times (tr : list effect) : list Q :=
  omap (fun eff => match eff with
                   | Eff_ffmpeg (GrabFrame ss _ _ _ _) _ => Some ss
                   | _ => None
                   end) tr.

(** The streams the two remux commands produce from the streams [l] of the
    video and the picture [px]. *)
Definition cover_stream (px : bytes) : stream := Stream (Video false) "mjpeg" (Stored px).

Definition gui_remuxed (l : list stream) (px : bytes) : list stream :=
  retag id (OfType SelV (Some 1%nat)) set_attached_pic 0 (l ++ [cover_stream px]).

Definition cli_remuxed (v : stream) (l : list stream) (px : bytes) : list stream :=
  v :: filter (fun s => is_audio s = true) l
    ++ [Stream (Video true) "png" (Transcoded "png" (Stored px))].

Definition first_video (l : list stream) : option stream :=
  head (filter (fun s => is_video s = true) l).

Definition count_video (l : list stream) : nat :=
  length (filter (fun s => is_video s = true) l).

(** *** The pipeline after its temporary files exist

    Both scripts then do the same: grab a frame into [tc], check that a picture
    is there, remux into [to], move [to] onto [dest], and in their [finally]
    block remove [tc] and the temporary container.  [core_run] relates the
    files [fs1] at that point to the files at the end and the calls made, one
    rule per way the run can end. *)

Definition size_if_there (p : string) (m : gmap string content) : nat :=
  if exists_b p m then from_option getsize 0%nat (m !! p) else 0%nat.

Definition picture_missing (p : string) (m : gmap string content) : bool :=
  negb (exists_b p m) || (size_if_there p m =? 0)%nat.

(** [if os.path.exists(p): os.remove(p)] on the files and the calls made. *)
Definition rm (p : string) (ft : gmap string content * list effect)
    : gmap string content * list effect :=
  if exists_b p ft.1 then (delete p ft.1, (ft.2 ++ [Eff_remove p])%list) else ft.

Inductive ending :=
| End_extract_raised (ex : exn)
| End_no_picture
| End_mux_raised (ex : exn)
| End_no_output
| End_moved
| End_move_failed (how : move_fault).

Inductive core_run (e : env) (dest tc to to_early : string)
    (cmd_x cmd_m : ffmpeg_cmd) (fs1 : gmap string content)
    : ending → gmap string content * list effect → Prop :=
| core_extract_raised ex junk :
    is_Exception ex = true →
    core_run e dest tc to to_early cmd_x cmd_m fs1 (End_extract_raised ex)
      (rm to_early (rm tc (write_at tc (Bytes <$> junk) fs1, [Eff_ffmpeg cmd_x false])))
| core_no_picture w :
    ffmpeg_result fs1 (decoded_frame e) cmd_x = Some w →
    picture_missing tc (write_at tc w fs1) = true →
    core_run e dest tc to to_early cmd_x cmd_m fs1 End_no_picture
      (rm to_early (rm tc (write_at tc w fs1, [Eff_ffmpeg cmd_x true])))
| core_mux_raised w ex junk :
    ffmpeg_result fs1 (decoded_frame e) cmd_x = Some w →
    picture_missing tc (write_at tc w fs1) = false →
    is_Exception ex = true →
    core_run e dest tc to to_early cmd_x cmd_m fs1 (End_mux_raised ex)
      (rm to (rm tc (write_at to (Bytes <$> junk) (write_at tc w fs1),
                     [Eff_ffmpeg cmd_x true; Eff_ffmpeg cmd_m false])))
| core_no_output w w2 :
    ffmpeg_result fs1 (decoded_frame e) cmd_x = Some w →
    picture_missing tc (write_at tc w fs1) = false →
    ffmpeg_result (write_at tc w fs1) None cmd_m = Some w2 →
    write_at to w2 (write_at tc w fs1) !! to = None →
    core_run e dest tc to to_early cmd_x cmd_m fs1 End_no_output
      (rm to (rm tc (write_at to w2 (write_at tc w fs1),
                     [Eff_ffmpeg cmd_x true; Eff_ffmpeg cmd_m true])))
| core_moved w w2 c2 :
    ffmpeg_result fs1 (decoded_frame e) cmd_x = Some w →
    picture_missing tc (write_at tc w fs1) = false →
    ffmpeg_result (write_at tc w fs1) None cmd_m = Some w2 →
    write_at to w2 (write_at tc w fs1) !! to = Some c2 →
    commit_fault e = MoveWorks →
    core_run e dest tc to to_early cmd_x cmd_m fs1 End_moved
      (rm to (rm tc (<[dest := c2]> (delete to (write_at to w2 (write_at tc w fs1))),
                     [Eff_ffmpeg cmd_x true; Eff_ffmpeg cmd_m true;
                      Eff_move to dest MoveWorks])))
| core_move_failed_clean w w2 c2 :
    ffmpeg_result fs1 (decoded_frame e) cmd_x = Some w →
    picture_missing tc (write_at tc w fs1) = false →
    ffmpeg_result (write_at tc w fs1) None cmd_m = Some w2 →
    write_at to w2 (write_at tc w fs1) !! to = Some c2 →
    commit_fault e = MoveFailsClean →
    core_run e dest tc to to_early cmd_x cmd_m fs1 (End_move_failed MoveFailsClean)
      (rm to (rm tc (write_at to w2 (write_at tc w fs1),
                     [Eff_ffmpeg cmd_x true; Eff_ffmpeg cmd_m true;
                      Eff_move to dest MoveFailsClean])))
| core_move_failed_partway w w2 c2 b :
    ffmpeg_result fs1 (decoded_frame e) cmd_x = Some w →
    picture_missing tc (write_at tc w fs1) = false →
    ffmpeg_result (write_at tc w fs1) None cmd_m = Some w2 →
    write_at to w2 (write_at tc w fs1) !! to = Some c2 →
    commit_fault e = MoveFailsPartway b →
    core_run e dest tc to to_early cmd_x cmd_m fs1 (End_move_failed (MoveFailsPartway b))
      (rm to (rm tc (<[dest := Bytes b]> (write_at to w2 (write_at tc w fs1)),
                     [Eff_ffmpeg cmd_x true; Eff_ffmpeg cmd_m true;
                      Eff_move to dest (MoveFailsPartway b)]))).

(** A state from the files and the calls made since [tr0]. *)
Definition close_state (tr0 : list effect) (out : list line) (sg : list signal)
    (a b : string) (ft : gmap string content * list effect) : state :=
  State ft.1 (tr0 ++ ft.2) out sg a b.

(** The lines the console script prints in its [try] statement, by ending. *)
Definition failure_log (ex : exn) : line :=
  match ex with
  | CalledProcessError => L_ffmpeg_log
  | _ => L_python_log ex
  end.

Definition cli_lines (filename : string) (en : ending) : list line :=
  match en with
  | End_extract_raised ex => [L_step 1; L_failed filename; failure_log ex]
  | End_no_picture =>
      [L_step 1; L_failed filename; L_python_log (RuntimeError "no picture")]
  | End_mux_raised ex =>
      [L_step 1; L_step_ok 1; L_step 2; L_failed filename; failure_log ex]
  | End_no_output =>
      [L_step 1; L_step_ok 1; L_step 2; L_step_ok 2; L_step 3;
       L_failed filename; L_python_log FileNotFoundError]
  | End_moved =>
      [L_step 1; L_step_ok 1; L_step 2; L_step_ok 2; L_step 3; L_step_ok 3;
       L_success filename]
  | End_move_failed _ =>
      [L_step 1; L_step_ok 1; L_step 2; L_step_ok 2; L_step 3;
       L_failed filename; L_python_log OSError]
  end.

(** The status the worker returns, by ending. *)
Definition failure_status (ex : exn) : status :=
  match ex with
  | CalledProcessError => St_ffmpeg_failed ex
  | _ => St_unknown ex
  end.

Definition gui_status (en : ending) : status :=
  match en with
  | End_extract_raised ex | End_mux_raised ex => failure_status ex
  | End_no_picture => St_extract_failed
  | End_no_output => St_unknown FileNotFoundError
  | End_moved => St_embedded
  | End_move_failed _ => St_unknown OSError
  end.

(** How the [try] statement of the console script ends. *)
Inductive cli_try (e : env) (vp : string) (st st' : state) : Prop :=
| cli_try_no_temp ex :
    first_fresh (fs st) (tmpdir e) ".jpg" (tmp_names e) = Raise ex →
    st' = State (fs st) (trace st)
            (stdout st ++ [L_step 1; L_failed (basename vp); failure_log ex; L_step 4])
            (signals st) "" "" →
    cli_try e vp st st'
| cli_try_core tc en ft :
    first_fresh (fs st) (tmpdir e) ".jpg" (tmp_names e) = Ret tc →
    fs st !! tc = None → tc ≠ "" →
    let to := (splitext vp).1 +:+ ".temp_video" +:+ (splitext vp).2 in
    core_run e vp tc to "" (Cli.extract_command vp tc) (Cli.embed_command vp tc to)
             (<[tc := Bytes ""]> (fs st)) en ft →
    st' = State ft.1 (trace st ++ Eff_mktemp tc :: ft.2)
            (stdout st ++ cli_lines (basename vp) en ++ [L_step 4])
            (signals st) tc
            (match en with
             | End_extract_raised _ | End_no_picture => ""
             | _ => to
             end) →
    cli_try e vp st st'.

(** How the [try] statement of the worker ends, with its status. *)
Inductive gui_try (e : env) (vp : string) (second : Q) (out_dir : option string)
    (st : state) (s : status) (st' : state) : Prop :=
| gui_try_no_cover ex :
    first_fresh (fs st) (tmpdir e) ".jpg" (tmp_names e) = Raise ex →
    s = failure_status ex →
    st' = State (fs st) (trace st) (stdout st) (signals st) "" "" →
    gui_try e vp second out_dir st s st'
| gui_try_no_output tc ex :
    first_fresh (fs st) (tmpdir e) ".jpg" (tmp_names e) = Ret tc →
    fs st !! tc = None → tc ≠ "" →
    first_fresh (<[tc := Bytes ""]> (fs st)) (tmpdir e) (splitext vp).2 (tmp_names e)
      = Raise ex →
    s = failure_status ex →
    st' = State (<[tc := Bytes ""]> (fs st)) (trace st ++ [Eff_mktemp tc])
            (stdout st) (signals st) "" "" →
    gui_try e vp second out_dir st s st'
| gui_try_core tc to en ft :
    first_fresh (fs st) (tmpdir e) ".jpg" (tmp_names e) = Ret tc →
    fs st !! tc = None → tc ≠ "" →
    first_fresh (<[tc := Bytes ""]> (fs st)) (tmpdir e) (splitext vp).2 (tmp_names e)
      = Ret to →
    <[tc := Bytes ""]> (fs st) !! to = None → to ≠ "" →
    core_run e (Gui.final_path vp out_dir) tc to to
             (Gui.ffmpeg_extract_cmd second vp tc) (Gui.ffmpeg_embed_cmd vp tc to)
             (<[to := Bytes ""]> (<[tc := Bytes ""]> (fs st))) en ft →
    s = gui_status en →
    st' = State ft.1 (trace st ++ Eff_mktemp tc :: Eff_mktemp to :: ft.2)
            (stdout st) (signals st) tc to →
    gui_try e vp second out_dir st s st'.

(** How [process_video] ends. *)
Inductive cli_run (e : env) (vp : string) (st st' : state) : Prop :=
| cli_run_has_cover :
    probed_cover (probe_streams_fault e) (fs st) vp = true →
    st' = State (fs st) (trace st ++ [Eff_probe vp])
            (stdout st ++ [L_start (basename vp); L_checking_cover;
                           L_skip_has_cover (basename vp)])
            (signals st) (temp_cover st) (temp_output st) →
    cli_run e vp st st'
| cli_run_too_short :
    probed_cover (probe_streams_fault e) (fs st) vp = false →
    Qlt_bool (probed_duration (probe_format_fault e) (fs st) vp)
             (inject_Z Cli.THUMBNAIL_TIME_SECONDS) = true →
    st' = State (fs st) (trace st ++ [Eff_probe vp; Eff_probe vp])
            (stdout st ++ [L_start (basename vp); L_checking_cover; L_no_cover;
                           L_skip_short (probed_duration (probe_format_fault e) (fs st) vp)])
            (signals st) (temp_cover st) (temp_output st) →
    cli_run e vp st st'
| cli_run_tried :
    probed_cover (probe_streams_fault e) (fs st) vp = false →
    Qlt_bool (probed_duration (probe_format_fault e) (fs st) vp)
             (inject_Z Cli.THUMBNAIL_TIME_SECONDS) = false →
    cli_try e vp
      (State (fs st) (trace st ++ [Eff_probe vp; Eff_probe vp])
             (stdout st ++ [L_start (basename vp); L_checking_cover; L_no_cover])
             (signals st) (temp_cover st) (temp_output st))
      st' →
    cli_run e vp st st'.

(** What [process_single_video] probes before it starts: the streams unless
    covers are to be overwritten, then the duration. *)
Definition gui_probes (cfg : Gui.config) (vp : string) : list effect :=
  if Gui.overwrite_existing cfg then [Eff_probe vp] else [Eff_probe vp; Eff_probe vp].

Definition gui_seen_cover (cfg : Gui.config) (e : env)
    (files : gmap string content) (vp : string) : bool :=
  negb (Gui.overwrite_existing cfg) && probed_cover (probe_streams_fault e) files vp.

(** How [process_single_video] ends, with its status. *)
Inductive gui_run (cfg : Gui.config) (e : env) (vp mode : string) (value : Q)
    (out_dir : option string) (st : state) (s : status) (st' : state) : Prop :=
| gui_run_has_cover :
    gui_seen_cover cfg e (fs st) vp = true →
    s = St_has_cover →
    st' = State (fs st) (trace st ++ [Eff_probe vp]) (stdout st) (signals st)
            (temp_cover st) (temp_output st) →
    gui_run cfg e vp mode value out_dir st s st'
| gui_run_no_duration :
    gui_seen_cover cfg e (fs st) vp = false →
    Qeq_bool (probed_duration (probe_format_fault e) (fs st) vp) 0 = true →
    s = St_no_duration →
    st' = State (fs st) (trace st ++ gui_probes cfg vp) (stdout st) (signals st)
            (temp_cover st) (temp_output st) →
    gui_run cfg e vp mode value out_dir st s st'
| gui_run_too_short :
    gui_seen_cover cfg e (fs st) vp = false →
    Qeq_bool (probed_duration (probe_format_fault e) (fs st) vp) 0 = false →
    mode = "time" →
    Qlt_bool (probed_duration (probe_format_fault e) (fs st) vp) value = true →
    s = St_too_short (probed_duration (probe_format_fault e) (fs st) vp) value →
    st' = State (fs st) (trace st ++ gui_probes cfg vp) (stdout st) (signals st)
            (temp_cover st) (temp_output st) →
    gui_run cfg e vp mode value out_dir st s st'
| gui_run_tried :
    gui_seen_cover cfg e (fs st) vp = false →
    Qeq_bool (probed_duration (probe_format_fault e) (fs st) vp) 0 = false →
    bool_decide (mode = "time")
      && Qlt_bool (probed_duration (probe_format_fault e) (fs st) vp) value = false →
    gui_try e vp
      (Gui.timestamp mode value (probed_duration (probe_format_fault e) (fs st) vp))
      out_dir
      (State (fs st) (trace st ++ gui_probes cfg vp) (stdout st) (signals st)
             (temp_cover st) (temp_output st))
      s st' →
    gui_run cfg e vp mode value out_dir st s st'.

(** The outcome the console script announces, by ending. *)
Definition cli_outcome (en : ending) : outcome :=
  match en with
  | End_moved => Success
  | _ => Failed "processing failed"
  end.

(** The move onto [vp] was of the kind that stops part-way, and was made. *)
Definition stopped_partway (e : env) (vp : string) (tr : list effect) : Prop :=
  ∃ tmp b, commit_fault e = MoveFailsPartway b
           ∧ Eff_move tmp vp (MoveFailsPartway b) ∈ tr.

(** *** Runs of the window *)

Definition is_start (ev : MainApp.event) : bool :=
  match ev with
  | MainApp.Ev_start _ => true
  | _ => false
  end.

(** The workers whose end a list of events records, in order. *)
Definition finished (evs : list MainApp.event) : list string :=
  omap (fun ev => match ev with
                  | MainApp.Ev_worker_done w => Some w
                  | _ => None
                  end) evs.

(** *** Settings and environments derived from others *)

Definition overwriting (cfg : Gui.config) : Gui.config :=
  Gui.Config (Gui.use_percent cfg) (Gui.percent_value cfg) (Gui.time_seconds cfg)
             (Gui.save_to_new_dir cfg) (Gui.output_dir cfg) true (Gui.max_workers cfg).

(** The stream probe fails: the program is missing, exits non-zero, prints
    something that is not JSON, or the path holds no media file it can read. *)
Definition probe_fails (how : probe_fault) (files : gmap string content)
    (path : string) : Prop :=
  match how, files !! path with
  | ProbeRuns, Some (Media _) => False
  | _, _ => True
  end.

(** The console script goes on to the files: the path typed exists and the
    answer typed is a yes. *)
Definition proceeds (c : Cli.console) (st : state) : bool :=
  (bool_decide (is_Some (fs st !! Cli.typed_path c)) || Cli.is_dir c (Cli.typed_path c))
  && bool_decide (Cli.typed_confirm c ∈ ["y"; "yes"]).

(** *** A small world to run the pipelines in *)

Definition ex_path : string := "/v/a.mp4".

Definition ex_streams : list stream :=
  [ Stream (Video false) "h264" (Stored "V");
    Stream Audio "aac" (Stored "A");
    Stream Subtitle "subrip" (Stored "S") ].

Definition ex_video : container := Container ex_streams (Some (inject_Z 60)).

Definition ex_files : gmap string content := {[ ex_path := Media ex_video ]}.

(** The same path holding a file with two video streams. *)
Definition ex_files_two_videos : gmap string content :=
  {[ ex_path := Media (Container
       [ Stream (Video false) "h264" (Stored "V");
         Stream (Video false) "h264" (Stored "W");
         Stream Audio "aac" (Stored "A") ] (Some (inject_Z 60))) ]}.

Definition files_of_duration (d : Q) : gmap string content :=
  {[ ex_path := Media (Container ex_streams (Some d)) ]}.

(** Every external call goes well and the frame decoded is ["PIX"]; variants
    with one call going wrong. *)
Definition ex_env : env :=
  Env "/tmp" ["r1"; "r2"] ProbeRuns ProbeRuns ToolRuns (Some "PIX") ToolRuns MoveWorks.

Definition env_move_stops (written : bytes) : env :=
  Env "/tmp" ["r1"; "r2"] ProbeRuns ProbeRuns ToolRuns (Some "PIX") ToolRuns
      (MoveFailsPartway written).

Definition env_stream_probe_exits : env :=
  Env "/tmp" ["r1"; "r2"] ProbeExits ProbeRuns ToolRuns (Some "PIX") ToolRuns MoveWorks.

Definition env_extract_exits : env :=
  Env "/tmp" ["r1"; "r2"] ProbeRuns ProbeRuns (ToolExits None) (Some "PIX") ToolRuns MoveWorks.

(** Fixed time of 20 seconds, in place, covers not overwritten. *)
Definition ex_cfg : Gui.config := Gui.Config false (inject_Z 20) 20 false "" false 4.

(** The same, saving to the directory ["/out"]. *)
Definition ex_cfg_copy : Gui.config := Gui.Config false (inject_Z 20) 20 true "/out" false 4.

(** A file whose extension is 252 characters long: a legal name, 253
    characters in all. *)
Definition long_ext : string := "." +:+ str (repeat "x"%char 251).
Definition ex_long_path : string := "/v/a" +:+ long_ext.
Definition ex_long_files : gmap string content := {[ ex_long_path := Media ex_video ]}.

(** A person who types the path of the example file and confirms; the
    extraction of its frame exits non-zero. *)
Definition ex_console : Cli.console :=
  Cli.Console ex_path "y" (fun _ => false) (fun _ => []) (fun _ => env_extract_exits) ToolRuns.

(** A window with two files and one thread, just started. *)
Definition ex_app : MainApp.app :=
  MainApp.App (Gui.Config false (inject_Z 20) 20 false "" false 1)
              [ex_path; "/v/b.mp4"] (MainApp.Pool 1 [] []) 0 [] true
              (init_state ex_files) [] false.

Definition ex_running : MainApp.app := MainApp.start_processing true ex_app.

(** The file the worker leaves behind: the cover file, when it has been
    created and the creation of the output file raises. *)
Definition left_behind (e : env) (vp : string) (files : gmap string content)
    : gset string :=
  match first_fresh files (tmpdir e) ".jpg" (tmp_names e) with
  | Ret tc =>
      match first_fresh (<[tc := Bytes ""]> files) (tmpdir e) (splitext vp).2 (tmp_names e) with
      | Raise _ => {[ tc ]}
      | Ret _ => ∅
      end
  | Raise _ => ∅
  end.

(** *** More of the small world *)

(** The example file beside a file that has the name the console script
    gives its temporary output. *)
Definition ex_files_with_namesake : gmap string content :=
  <["/v/a.temp_video.mp4" := Bytes "mine"]> ex_files.

Definition env_mux_exits : env :=
  Env "/tmp" ["r1"; "r2"] ProbeRuns ProbeRuns ToolRuns (Some "PIX") (ToolExits None) MoveWorks.

Definition env_no_ffprobe : env :=
  Env "/tmp" ["r1"; "r2"] ProbeMissing ProbeMissing ToolRuns (Some "PIX") ToolRuns MoveWorks.

(** A file that has a cover already: a video, an audio and an attached
    picture. *)
Definition ex_covered_streams : list stream :=
  [ Stream (Video false) "h264" (Stored "V");
    Stream Audio "aac" (Stored "A");
    Stream (Video true) "mjpeg" (Stored "OLD") ].

Definition ex_files_covered : gmap string content :=
  {[ ex_path := Media (Container ex_covered_streams (Some (inject_Z 60))) ]}.

(** The paths [main] hands to [process_video]: the path typed, when it is a
    file with a video extension, or a file that [os.walk] lists under it with
    a video extension. *)
Definition handed_over (c : Cli.console) (st : state) (p : string) : Prop :=
  (p = Cli.typed_path c
   ∧ is_Some (fs st !! p)
   ∧ ends_with_any Cli.VIDEO_EXTENSIONS (lower p) = true)
  ∨ ∃ dirpath filenames filename,
      (dirpath, filenames) ∈ Cli.walk c (Cli.typed_path c)
      ∧ filename ∈ filenames
      ∧ ends_with_any Cli.VIDEO_EXTENSIONS (lower filename) = true
      ∧ p = path_join dirpath filename.

(** A folder with a video, a text file and a video with an upper-case
    extension, and a person who types its path and confirms. *)
Definition ex_folder_console : Cli.console :=
  Cli.Console "/v" "yes" (fun p => bool_decide (p = "/v"))
    (fun _ => [("/v", ["a.mp4"; "notes.txt"; "B.MKV"])])
    (fun _ => ex_env) ToolRuns.

(** A person who types the path of the example file and answers no. *)
Definition ex_console_no : Cli.console :=
  Cli.Console ex_path "n" (fun _ => false) (fun _ => []) (fun _ => ex_env) ToolRuns.

(** *** Counting in a run of the window *)

Definition is_finished (s : signal) : bool :=
  match s with
  | Sig_finished => true
  | _ => false
  end.

Definition is_ended (l : MainApp.log_entry) : bool :=
  match l with
  | MainApp.Log_ended => true
  | _ => false
  end.

(** The files of the batch that are not done with: those in the queue, those
    a thread is running, and those whose [finished] signal waits for the
    event loop. *)
Definition pending (a : MainApp.app) : nat :=
  length (MainApp.active (MainApp.threadpool a))
  + length (MainApp.queue (MainApp.threadpool a))
  + length (filter (fun s => is_finished s = true) (MainApp.inbox a)).

(** How many times the log says that the batch has ended. *)
Definition ended_count (a : MainApp.app) : nat :=
  length (filter (fun l => is_ended l = true) (MainApp.log_view a)).

(** A worker ends, or the event loop handles a signal. *)
Definition is_work (ev : MainApp.event) : bool :=
  match ev with
  | MainApp.Ev_worker_done _ | MainApp.Ev_deliver => true
  | _ => false
  end.

(** The window at rest: nothing runs, nothing waits, the start button is
    enabled. *)
Definition idle (a : MainApp.app) : Prop :=
  MainApp.waiting a = false ∧ MainApp.controls_enabled a = true
  ∧ MainApp.active (MainApp.threadpool a) = []
  ∧ MainApp.queue (MainApp.threadpool a) = []
  ∧ MainApp.inbox a = [] ∧ signals (MainApp.world a) = [].

(** [start_processing] gets past its three checks. *)
Definition startable (ok : bool) (a : MainApp.app) : Prop :=
  MainApp.files a ≠ [] ∧ (Gui.save_to_new_dir (MainApp.cfg a) = true → ok = true).

(** Whether the handling of the last [finished] signal is between two
    states with [p] and [p'] files pending, the counter being [k] too high. *)
Definition hit (k p p' : nat) : nat :=
  if (k =? 0)%nat && (p' =? 0)%nat && (0 <? p)%nat then 1%nat else 0%nat.

(** A window with one file and one thread, at rest. *)
Definition ex_app_one : MainApp.app :=
  MainApp.App (Gui.Config false (inject_Z 20) 20 false "" false 1)
              [ex_path] (MainApp.Pool 1 [] []) 0 [] true
              (init_state ex_files) [] false.

(** *** The two lists of the window *)

(** A format as [add_format] stores it: it starts with a dot and has no
    upper-case letter. *)
Definition normal_format (x : string) : Prop :=
  starts_with "." x = true ∧ lower x = x.

(** The list shown and the set of files hold the same paths, the list
    without repeats. *)
Definition synced (p : FileList.panel) : Prop :=
  NoDup (FileList.file_list p) ∧ ∀ x, x ∈ FileList.files p ↔ x ∈ FileList.file_list p.

(** A path that a drop of [paths] may add: a file dropped, or a file that
    [os.walk] lists under a folder dropped, with a supported extension. *)
Definition droppable (d : FileList.disk) (exts : list string) (paths : list string)
    (x : string) : Prop :=
  (x ∈ paths ∧ FileList.isdir d x = false ∧ FileList.isfile d x = true
   ∧ ends_with_any exts (lower x) = true)
  ∨ ∃ path root names file,
      path ∈ paths ∧ FileList.isdir d path = true
      ∧ (root, names) ∈ FileList.walk d path ∧ file ∈ names
      ∧ ends_with_any exts (lower file) = true
      ∧ x = path_join root file.

(** A disk with the folder ["/v"], which holds the example file, a text file
    and a clip whose extension is in upper case. *)
Definition ex_disk : FileList.disk :=
  FileList.Disk (fun p => bool_decide (p = "/v"))
                (fun p => bool_decide (p ∈ ["/v/a.mp4"; "/v/notes.txt"; "/v/CLIP.TS"]))
                (fun p => if bool_decide (p = "/v")
                          then [("/v", ["a.mp4"; "notes.txt"; "CLIP.TS"])] else []).

Definition ex_panel : FileList.panel := FileList.Panel {[ "/v/a.mp4" ]} ["/v/a.mp4"].

(** * Properties *)

(** ** Strings and paths *)

Lemma string_app_cons a s t : String a s +:+ t = String a (s +:+ t).
Proof. reflexivity. Qed.

Lemma str_app l1 l2 : str (l1 ++ l2) = str l1 +:+ str l2.
Proof.
  induction l1 as [|a l1 IH]; simpl; [done|].
  by rewrite string_app_cons, IH.
Qed.

Lemma str_chars s : str (chars s) = s.
Proof. apply String.string_of_list_ascii_of_string. Qed.

Lemma string_app_nil_r s : s +:+ "" = s.
Proof.
  induction s as [|a s IH]; [done|].
  rewrite ?string_app_cons; simpl. by rewrite IH.
Qed.

Lemma string_length_app s t :
  String.length (s +:+ t) = (String.length s + String.length t)%nat.
Proof.
  induction s as [|a s IH]; [done|].
  rewrite ?string_app_cons; simpl. by rewrite IH.
Qed.

Lemma slice_to_from i s : slice_to i s +:+ slice_from i s = s.
Proof. unfold slice_to, slice_from. by rewrite <- str_app, take_drop, str_chars. Qed.

(** [splitext] cuts the path in two. *)
Lemma splitext_app p : (splitext p).1 +:+ (splitext p).2 = p.
Proof.
  unfold splitext. repeat case_match; simpl;
    auto using string_app_nil_r, slice_to_from.
Qed.

(** The console script's temporary container never has the name of the video. *)
Lemma temp_video_differs p :
  (splitext p).1 +:+ ".temp_video" +:+ (splitext p).2 ≠ p.
Proof.
  intros H. apply (f_equal String.length) in H.
  rewrite <- (splitext_app p) in H at 3.
  rewrite !string_length_app in H. simpl in H. lia.
Qed.

(** ** Temporary names *)

Lemma first_fresh_fresh files dir suffix names p :
  first_fresh files dir suffix names = Ret p → files !! p = None.
Proof.
  induction names as [|r rest IH]; simpl; [done|].
  repeat case_match; naive_solver.
Qed.

(** ** Reading ffprobe's report *)

Lemma gui_stream_has_cover_json s :
  Gui.stream_has_cover (stream_json s) = Ret (is_attached_pic s).
Proof. destruct s as [[[]| | |] codec data]; reflexivity. Qed.

Lemma cli_stream_has_cover_json s :
  Cli.stream_has_cover (stream_json s) = Ret (is_attached_pic s).
Proof. destruct s as [[[]| | |] codec data]; reflexivity. Qed.

Lemma any_stream_json test l :
  (∀ s, test (stream_json s) = Ret (is_attached_pic s)) →
  any_stream test (map stream_json l) = Ret (existsb is_attached_pic l).
Proof.
  intros Ht. induction l as [|s l IH]; simpl; [done|].
  rewrite Ht. simpl. by destruct (is_attached_pic s).
Qed.

(** On a report of ffprobe both scans say whether a stream is flagged as an
    attached picture. *)
Lemma gui_scan_streams_json c :
  Gui.scan_streams (show_streams_json c) = Ret (existsb is_attached_pic (streams c)).
Proof. apply (any_stream_json _ _ gui_stream_has_cover_json). Qed.

Lemma cli_scan_streams_json c :
  Cli.scan_streams (show_streams_json c) = Ret (existsb is_attached_pic (streams c)).
Proof. apply (any_stream_json _ _ cli_stream_has_cover_json). Qed.

Lemma gui_read_duration_json p c :
  Gui.read_duration (show_format_json p c) = Ret (duration_of c).
Proof. unfold duration_of. destruct c as [l [d|]]; reflexivity. Qed.

Lemma cli_read_duration_json p c :
  Cli.read_duration (show_format_json p c) = Ret (duration_of c).
Proof. unfold duration_of. destruct c as [l [d|]]; reflexivity. Qed.

(** ** Running a computation: what holds of its result and final state *)

Lemma wp_ret {A} (a : A) st Q : Q (Ret a) st → wp (ret a) st Q.
Proof. intros H r st' [= <- <-]. exact H. Qed.

Lemma wp_raise {A} e st (Q : res A → state → Prop) : Q (Raise e) st → wp (raise e) st Q.
Proof. intros H r st' [= <- <-]. exact H. Qed.

Lemma wp_lift {A} (x : res A) st Q : Q x st → wp (lift x) st Q.
Proof. intros H r st' [= <- <-]. exact H. Qed.

Lemma wp_get {A} (f : state → A) st Q : Q (Ret (f st)) st → wp (get f) st Q.
Proof. intros H r st' [= <- <-]. exact H. Qed.

Lemma wp_modify f st Q : Q (Ret tt) (f st) → wp (modify f) st Q.
Proof. intros H r st' [= <- <-]. exact H. Qed.

Lemma wp_print l st Q : Q (Ret tt) (emit l st) → wp (print l) st Q.
Proof. apply wp_modify. Qed.

Lemma wp_bind {A B} (m : M A) (k : A → M B) st Q :
  wp m st (fun r st' =>
    match r with
    | Ret a => wp (k a) st' Q
    | Raise e => Q (Raise e) st'
    end) →
  wp (bind m k) st Q.
Proof.
  intros H r st'. unfold bind. destruct (m st) as [[a|e] st1] eqn:Hm; intros Hk.
  - by apply (H _ _ Hm).
  - injection Hk as <- <-. by apply (H _ _ Hm).
Qed.

Lemma wp_try_except {A} (catches : exn → bool) (m : M A) h st Q :
  wp m st (fun r st' =>
    match r with
    | Ret a => Q (Ret a) st'
    | Raise e => if catches e then wp (h e) st' Q else Q (Raise e) st'
    end) →
  wp (try_except catches m h) st Q.
Proof.
  intros H r st'. unfold try_except. destruct (m st) as [[a|e] st1] eqn:Hm; intros Hk.
  - injection Hk as <- <-. by apply (H _ _ Hm).
  - specialize (H _ _ Hm). simpl in H. destruct (catches e).
    + by apply H.
    + injection Hk as <- <-. exact H.
Qed.

Lemma wp_try_finally {A} (m : M A) c st Q :
  wp m st (fun r st' =>
    wp c st' (fun r' st'' =>
      match r' with
      | Ret _ => Q r st''
      | Raise e => Q (Raise e) st''
      end)) →
  wp (try_finally m c) st Q.
Proof.
  intros H r st'. unfold try_finally. destruct (m st) as [r1 st1] eqn:Hm.
  destruct (c st1) as [[u|e] st2] eqn:Hc; intros [= <- <-];
    by apply (H _ _ Hm _ _ Hc).
Qed.

Lemma wp_mono {A} (m : M A) st (Q Q' : res A → state → Prop) :
  wp m st Q → (∀ r st', Q r st' → Q' r st') → wp m st Q'.
Proof. intros H HQ r st' Hm. apply HQ, H, Hm. Qed.

Lemma temp_name_nonempty dir r suffix : temp_name dir r suffix ≠ "".
Proof.
  unfold temp_name. intros H. apply (f_equal String.length) in H.
  rewrite !string_length_app in H. simpl in H. lia.
Qed.

Lemma temp_video_nonempty a b : a +:+ ".temp_video" +:+ b ≠ "".
Proof.
  intros H. apply (f_equal String.length) in H.
  rewrite !string_length_app in H. simpl in H. lia.
Qed.

Lemma first_fresh_nonempty files dir suffix names p :
  first_fresh files dir suffix names = Ret p → p ≠ "".
Proof.
  induction names as [|r rest IH]; simpl; [done|].
  repeat case_match; try naive_solver. intros [= <-]. apply temp_name_nonempty.
Qed.

(** ** The primitives, one rule each *)

Lemma first_fresh_raises files dir suffix names ex :
  first_fresh files dir suffix names = Raise ex → is_Exception ex = true.
Proof.
  induction names as [|r rest IH]; simpl; [by intros [= <-]|].
  repeat case_match; try naive_solver.
Qed.

Lemma wp_NamedTemporaryFile e suffix st Q :
  (∀ ex, first_fresh (fs st) (tmpdir e) suffix (tmp_names e) = Raise ex →
         is_Exception ex = true → Q (Raise ex) st) →
  (∀ p, first_fresh (fs st) (tmpdir e) suffix (tmp_names e) = Ret p →
        fs st !! p = None → p ≠ "" →
        Q (Ret p) (record (Eff_mktemp p) (with_fs (insert p (Bytes "")) st))) →
  wp (NamedTemporaryFile e suffix) st Q.
Proof.
  intros Hraise Hret r st'. unfold NamedTemporaryFile, bind, get, lift, modify, ret.
  destruct (first_fresh _ _ _ _) as [p|ex] eqn:E; intros [= <- <-].
  - apply Hret; eauto using first_fresh_fresh, first_fresh_nonempty.
  - apply Hraise; eauto using first_fresh_raises.
Qed.

Lemma wp_ffmpeg how frame cmd st Q :
  (∀ ex junk, is_Exception ex = true →
     Q (Raise ex)
       (record (Eff_ffmpeg cmd false)
          (with_fs (write_at (cmd_output cmd) (Bytes <$> junk)) st))) →
  (∀ w, how = ToolRuns → ffmpeg_result (fs st) frame cmd = Some w →
     Q (Ret tt)
       (record (Eff_ffmpeg cmd true) (with_fs (write_at (cmd_output cmd) w) st))) →
  wp (ffmpeg how frame cmd) st Q.
Proof.
  intros Hraise Hret r st'. destruct st as [files tr out sg tc to].
  unfold ffmpeg, bind, get, modify, ret, raise; simpl.
  destruct how as [| |[b|]]; simpl.
  - destruct (ffmpeg_result _ _ _) as [[c|]|] eqn:E; simpl; intros [= <- <-].
    + by apply (Hret (Some c)).
    + by apply (Hret None).
    + by apply (Hraise _ None).
  - intros [= <- <-]. by apply (Hraise _ None).
  - intros [= <- <-]. by apply (Hraise _ (Some b)).
  - intros [= <- <-]. by apply (Hraise _ None).
Qed.

Lemma wp_path_exists p st Q :
  Q (Ret (exists_b p (fs st))) st → wp (path_exists p) st Q.
Proof. intros H r st' [= <- <-]. exact H. Qed.

Lemma wp_path_getsize p st Q :
  (∀ c, fs st !! p = Some c → Q (Ret (getsize c)) st) →
  (fs st !! p = None → Q (Raise FileNotFoundError) st) →
  wp (path_getsize p) st Q.
Proof.
  intros H1 H2 r st'. unfold path_getsize, bind, get, ret, raise.
  destruct (fs st !! p) eqn:E; intros [= <- <-]; auto.
Qed.

Lemma wp_shutil_move how src dst st Q :
  (fs st !! src = None → Q (Raise FileNotFoundError) st) →
  (∀ c, fs st !! src = Some c → how = MoveWorks →
     Q (Ret tt) (with_fs (fun m => <[dst := c]> (delete src m))
                   (record (Eff_move src dst how) st))) →
  (∀ c, fs st !! src = Some c → how = MoveFailsClean →
     Q (Raise OSError) (record (Eff_move src dst how) st)) →
  (∀ c b, fs st !! src = Some c → how = MoveFailsPartway b →
     Q (Raise OSError) (with_fs (insert dst (Bytes b))
                          (record (Eff_move src dst how) st))) →
  wp (shutil_move how src dst) st Q.
Proof.
  intros H1 H2 H3 H4 r st'. destruct st as [files tr out sg tc to].
  unfold shutil_move, bind, get, modify, ret, raise; simpl.
  destruct (files !! src) as [c|] eqn:E; [|intros [= <- <-]; by apply H1].
  destruct how as [| |b]; simpl; intros [= <- <-].
  - by apply (H2 c).
  - by apply (H3 c).
  - by apply (H4 c b).
Qed.

(** The guarded removal of the [finally] blocks. *)
Lemma remove_if_there_run p st :
  (there <- path_exists p ;; if there then os_remove p else ret tt) st
  = (Ret tt, remove_if_there p st).
Proof.
  destruct st as [files tr out sg tc to].
  unfold remove_if_there, exists_b, path_exists, os_remove, bind, get, modify, ret, raise.
  simpl. case_bool_decide as Hp; simpl; [|done].
  case_bool_decide as Hs; simpl; [|done].
  destruct Hs as [c Hc]. by rewrite Hc.
Qed.

Lemma guarded_remove_bind {A} p (rest : M A) st :
  (there <- path_exists p ;; (if there then os_remove p else ret tt) ;; rest) st
  = rest (remove_if_there p st).
Proof.
  destruct st as [files tr out sg tc to].
  unfold remove_if_there, exists_b, path_exists, os_remove, bind, get, modify, ret, raise.
  simpl. case_bool_decide as Hp; simpl; [|done].
  case_bool_decide as Hs; simpl; [|done].
  destruct Hs as [c Hc]. by rewrite Hc.
Qed.

Lemma remove_if_there_temps p st :
  temp_cover (remove_if_there p st) = temp_cover st
  ∧ temp_output (remove_if_there p st) = temp_output st
  ∧ stdout (remove_if_there p st) = stdout st
  ∧ signals (remove_if_there p st) = signals st.
Proof. unfold remove_if_there. by destruct (exists_b _ _), st. Qed.

Lemma cli_cleanup_run st :
  Cli.cleanup st
  = (Ret tt, remove_if_there (temp_output st)
               (remove_if_there (temp_cover st) (emit (L_step 4) st))).
Proof.
  unfold Cli.cleanup.
  change (Cli.cleanup st) with (Cli.cleanup st).
  unfold bind at 1, print, modify. unfold bind at 1, get.
  rewrite guarded_remove_bind. unfold bind at 1.
  destruct (remove_if_there_temps (temp_cover (emit (L_step 4) st)) (emit (L_step 4) st))
    as (_ & -> & _).
  rewrite remove_if_there_run. by destruct st.
Qed.

Lemma gui_remove_run f st :
  (if bool_decide (f = "") then ret tt
   else there <- path_exists f ;;
        if there then try_except Gui.is_OSError (os_remove f) (fun _ => ret tt)
        else ret tt) st
  = (Ret tt, remove_if_there f st).
Proof.
  destruct st as [files tr out sg tc to].
  unfold remove_if_there, exists_b, path_exists, os_remove, try_except,
    bind, get, modify, ret, raise; simpl.
  case_bool_decide as Hf; simpl.
  - rewrite bool_decide_false; [done|]. by intros [].
  - rewrite (bool_decide_true (f ≠ "")) by done. simpl.
    case_bool_decide as Hs; simpl; [|done].
    destruct Hs as [c Hc]. by rewrite Hc.
Qed.

Lemma gui_cleanup_run st :
  Gui.cleanup st
  = (Ret tt, remove_if_there (temp_output st) (remove_if_there (temp_cover st) st)).
Proof.
  unfold Gui.cleanup, for_each.
  unfold bind at 1, get. unfold bind at 1.
  unfold bind at 1. rewrite gui_remove_run.
  unfold bind at 1. rewrite gui_remove_run. done.
Qed.

(** ** The probes, in closed form *)

Lemma cli_has_embedded_cover_run e vp st :
  Cli.has_embedded_cover e vp st
  = (Ret (probed_cover (probe_streams_fault e) (fs st) vp),
     record (Eff_probe vp) (emit L_checking_cover st)).
Proof.
  destruct st as [files tr out sg tc to].
  unfold Cli.has_embedded_cover, probed_cover, ffprobe, try_except, bind, print,
    modify, get, ret, raise, lift; simpl.
  destruct (probe_streams_fault e); simpl; try done.
  destruct (files !! vp) as [[c|px|b]|]; simpl; try done.
  by rewrite cli_scan_streams_json.
Qed.

Lemma cli_get_video_duration_run e vp st :
  Cli.get_video_duration e vp st
  = (Ret (probed_duration (probe_format_fault e) (fs st) vp), record (Eff_probe vp) st).
Proof.
  destruct st as [files tr out sg tc to].
  unfold Cli.get_video_duration, probed_duration, ffprobe, try_except, bind,
    modify, get, ret, raise, lift; simpl.
  destruct (probe_format_fault e); simpl; try done.
  destruct (files !! vp) as [[c|px|b]|]; simpl; try done.
  by rewrite cli_read_duration_json.
Qed.

Lemma gui_has_embedded_cover_run e vp st :
  Gui.has_embedded_cover e vp st
  = (Ret (probed_cover (probe_streams_fault e) (fs st) vp), record (Eff_probe vp) st).
Proof.
  destruct st as [files tr out sg tc to].
  unfold Gui.has_embedded_cover, probed_cover, ffprobe, try_except, bind,
    modify, get, ret, raise, lift; simpl.
  destruct (probe_streams_fault e); simpl; try done.
  destruct (files !! vp) as [[c|px|b]|]; simpl; try done.
  by rewrite gui_scan_streams_json.
Qed.

Lemma gui_get_video_duration_run e vp st :
  Gui.get_video_duration e vp st
  = (Ret (probed_duration (probe_format_fault e) (fs st) vp), record (Eff_probe vp) st).
Proof.
  destruct st as [files tr out sg tc to].
  unfold Gui.get_video_duration, probed_duration, ffprobe, try_except, bind,
    modify, get, ret, raise, lift; simpl.
  destruct (probe_format_fault e); simpl; try done.
  destruct (files !! vp) as [[c|px|b]|]; simpl; try done.
  by rewrite gui_read_duration_json.
Qed.

(** ** The [try] statements *)

Lemma wp_eq {A} (m : M A) st r st' (Q : res A → state → Prop) :
  m st = (r, st') → Q r st' → wp m st Q.
Proof. intros Hm HQ r0 st0. rewrite Hm. by intros [= <- <-]. Qed.

Lemma wp_picture_check {A} p (k : bool → nat → M A) st Q :
  wp (k (exists_b p (fs st)) (size_if_there p (fs st))) st Q →
  wp (there <- path_exists p ;;
      size <- (if there then path_getsize p else ret 0%nat) ;;
      k there size) st Q.
Proof.
  intros H. apply wp_bind, wp_path_exists. apply wp_bind.
  unfold size_if_there in H. destruct (exists_b p (fs st)) eqn:E.
  - apply wp_path_getsize.
    + intros c Hc. by rewrite Hc in H.
    + intros Hn. unfold exists_b in E. rewrite Hn in E.
      rewrite andb_true_iff, !bool_decide_eq_true in E. by destruct E as [_ []].
  - by apply wp_ret.
Qed.

Lemma remove_if_there_close p tr0 out sg a b ft :
  remove_if_there p (close_state tr0 out sg a b ft)
  = close_state tr0 out sg a b (rm p ft).
Proof.
  unfold remove_if_there, rm, close_state; simpl.
  destruct (exists_b p ft.1); simpl; [|done].
  unfold record, with_fs; simpl. by rewrite app_assoc.
Qed.

Lemma remove_if_there_empty st : remove_if_there "" st = st.
Proof. unfold remove_if_there, exists_b. by rewrite bool_decide_false by (by intros []). Qed.

Lemma finish_state p q tr0 effs out sg a b files :
  remove_if_there q (remove_if_there p (State files (tr0 ++ effs) out sg a b))
  = State (rm q (rm p (files, effs))).1 (tr0 ++ (rm q (rm p (files, effs))).2)
          out sg a b.
Proof.
  change (State files (tr0 ++ effs) out sg a b)
    with (close_state tr0 out sg a b (files, effs)).
  by rewrite !remove_if_there_close.
Qed.

Lemma cli_report_failure_run vp ex st :
  Cli.report_failure vp ex st
  = (Ret tt, emit (failure_log ex) (emit (L_failed (basename vp)) st)).
Proof. by destruct ex. Qed.

Ltac wp_red :=
  unfold with_fs, record, emit, send, set_temp_cover, set_temp_output,
    Cli.extract_command, Cli.embed_command,
    Gui.ffmpeg_extract_cmd, Gui.ffmpeg_embed_cmd;
  cbn [fs trace stdout signals temp_cover temp_output fst snd cmd_output].

Ltac wp_red_in H :=
  unfold with_fs, record, emit, send, set_temp_cover, set_temp_output,
    Cli.extract_command, Cli.embed_command,
    Gui.ffmpeg_extract_cmd, Gui.ffmpeg_embed_cmd in H;
  cbn [fs trace stdout signals temp_cover temp_output fst snd cmd_output] in H.

Ltac wp_step :=
  lazymatch goal with
  | |- wp (bind (path_exists _) _) _ _ => apply wp_picture_check; wp_red
  | |- wp (bind _ _) _ _ => apply wp_bind; wp_red
  | |- wp (ret _) _ _ => apply wp_ret; wp_red
  | |- wp (raise _) _ _ => apply wp_raise; wp_red
  | |- wp (modify _) _ _ => apply wp_modify; wp_red
  | |- wp (print _) _ _ => apply wp_print; wp_red
  | |- wp (NamedTemporaryFile _ _) _ _ =>
      apply wp_NamedTemporaryFile; wp_red; [intros ? ? ?|intros ? ? ? ?]
  | |- wp (ffmpeg _ _ _) _ _ =>
      apply wp_ffmpeg; wp_red; [intros ? ? ?|intros ? ? ?]
  | |- wp (shutil_move _ _ _) _ _ =>
      apply wp_shutil_move; wp_red;
      [intros ?|intros ? ? ?|intros ? ? ?|intros ? ? ? ?]
  | |- wp (if ?b then _ else _) _ _ => destruct b eqn:?
  end.

(** A handler and a [finally] block given in closed form. *)
Ltac wp_handle report_run cleanup_run :=
  repeat match goal with
         | H : is_Exception ?ex = true |- context [is_Exception ?ex] => rewrite H
         end;
  cbn [is_Exception];
  try (refine (wp_eq _ _ _ _ _ (report_run _ _) _); wp_red);
  refine (wp_eq _ _ _ _ _ (cleanup_run _) _); wp_red.

Ltac core_leaf p :=
  wp_red;
  try match goal with H : commit_fault _ = _ |- _ => rewrite H end;
  rewrite <- ?(app_assoc (_ ++ [Eff_mktemp p])); cbn [app];
  rewrite finish_state; f_equal; rewrite <- ?app_assoc; reflexivity.

Lemma cli_try_spec e vp st :
  wp (try_finally
        (try_except is_Exception (Cli.attempt e vp) (Cli.report_failure vp))
        Cli.cleanup)
     (set_temp_output "" (set_temp_cover "" st))
     (fun r st' => r = Ret tt ∧ cli_try e vp st st').
Proof.
  destruct st as [files tr out sg tc0 to0].
  apply wp_try_finally, wp_try_except. unfold Cli.attempt. wp_red.
  repeat wp_step.
  all: wp_handle (cli_report_failure_run vp) cli_cleanup_run.
  all: split; [done|].
  - eapply cli_try_no_temp; [eassumption|]. cbn [fs trace stdout signals].
    rewrite !remove_if_there_empty. f_equal. by rewrite <- !app_assoc.
  - eapply cli_try_core; [eassumption..| |];
      [eapply core_extract_raised; eassumption|core_leaf p].
  - eapply cli_try_core; [eassumption..| |];
      [eapply core_no_picture; eassumption|core_leaf p].
  - eapply cli_try_core; [eassumption..| |];
      [eapply core_mux_raised; eassumption|core_leaf p].
  - eapply cli_try_core; [eassumption..| |];
      [eapply core_no_output; eassumption|core_leaf p].
  - eapply cli_try_core; [eassumption..| |];
      [eapply core_moved; eassumption|core_leaf p].
  - eapply cli_try_core; [eassumption..| |];
      [eapply core_move_failed_clean; eassumption|core_leaf p].
  - eapply cli_try_core; [eassumption..| |];
      [eapply core_move_failed_partway; eassumption|core_leaf p].
Qed.

Lemma gui_report_failure_run ex st :
  Gui.report_failure ex st = (Ret (failure_status ex), st).
Proof. by destruct ex. Qed.

Ltac gui_leaf p p0 :=
  wp_red;
  try match goal with H : commit_fault _ = _ |- _ => rewrite H end;
  rewrite <- ?(app_assoc ((_ ++ [Eff_mktemp p]) ++ [Eff_mktemp p0])); cbn [app];
  rewrite finish_state; f_equal; rewrite <- ?app_assoc; reflexivity.

Lemma gui_try_spec e vp second out_dir st :
  wp (try_finally
        (try_except is_Exception (Gui.attempt e vp second out_dir) Gui.report_failure)
        Gui.cleanup)
     (set_temp_output "" (set_temp_cover "" st))
     (fun r st' => ∃ s, r = Ret s ∧ gui_try e vp second out_dir st s st').
Proof.
  destruct st as [files tr out sg tc0 to0].
  apply wp_try_finally, wp_try_except. unfold Gui.attempt. wp_red.
  repeat wp_step.
  all: wp_handle gui_report_failure_run gui_cleanup_run.
  all: eexists; split; [reflexivity|].
  - rewrite !remove_if_there_empty. by eapply gui_try_no_cover.
  - rewrite !remove_if_there_empty. by eapply gui_try_no_output.
  - eapply gui_try_core; [eassumption..| | |];
      [eapply core_extract_raised; eassumption|done|gui_leaf p p0].
  - eapply gui_try_core; [eassumption..| | |];
      [eapply core_no_picture; eassumption|done|gui_leaf p p0].
  - eapply gui_try_core; [eassumption..| | |];
      [eapply core_mux_raised; eassumption|done|gui_leaf p p0].
  - eapply gui_try_core; [eassumption..| | |];
      [eapply core_no_output; eassumption|done|gui_leaf p p0].
  - eapply gui_try_core; [eassumption..| | |];
      [eapply core_moved; eassumption|done|gui_leaf p p0].
  - eapply gui_try_core; [eassumption..| | |];
      [eapply core_move_failed_clean; eassumption|done|gui_leaf p p0].
  - eapply gui_try_core; [eassumption..| | |];
      [eapply core_move_failed_partway; eassumption|done|gui_leaf p p0].
Qed.

(** ** The two pipelines, start to end *)

Lemma bind_run {A B} (m : M A) (k : A → M B) st a st1 :
  m st = (Ret a, st1) → bind m k st = k a st1.
Proof. unfold bind. by intros ->. Qed.

Lemma cli_process_video_spec e vp st r st' :
  Cli.process_video e vp st = (r, st') → r = Ret tt ∧ cli_run e vp st st'.
Proof.
  destruct st as [files tr out sg tc0 to0].
  unfold Cli.process_video.
  rewrite (bind_run _ _ _ tt (emit (L_start (basename vp))
            (State files tr out sg tc0 to0))) by done.
  rewrite (bind_run _ _ _ _ _ (cli_has_embedded_cover_run _ _ _)). wp_red.
  destruct (probed_cover _ _ _) eqn:Hc.
  { intros [= <- <-]. split; [done|]. apply cli_run_has_cover; [done|].
    wp_red. f_equal. by rewrite <- !app_assoc. }
  rewrite (bind_run _ _ _ tt (emit L_no_cover _)) by done.
  rewrite (bind_run _ _ _ _ _ (cli_get_video_duration_run _ _ _)). wp_red.
  destruct (Qlt_bool _ _) eqn:Hd.
  { intros [= <- <-]. split; [done|]. apply cli_run_too_short; [done..|].
    wp_red. f_equal; by rewrite <- !app_assoc. }
  rewrite (bind_run _ _ _ tt (set_temp_cover "" _)) by done.
  rewrite (bind_run _ _ _ tt (set_temp_output "" _)) by done.
  intros Hrun.
  pose proof (cli_try_spec e vp
    (State files (tr ++ [Eff_probe vp; Eff_probe vp])
       (out ++ [L_start (basename vp); L_checking_cover; L_no_cover]) sg tc0 to0)) as Hspec.
  unfold wp in Hspec. wp_red_in Hspec. wp_red_in Hrun.
  rewrite <- !app_assoc in Hrun. cbn [app] in Hrun.
  destruct (Hspec _ _ Hrun) as [-> Htry]. split; [done|].
  by apply cli_run_tried.
Qed.

Lemma gui_process_single_video_spec cfg e vp mode value out_dir st r st' :
  Gui.process_single_video cfg e vp mode value out_dir st = (r, st') →
  ∃ s, r = Ret s ∧ gui_run cfg e vp mode value out_dir st s st'.
Proof.
  destruct st as [files tr out sg tc0 to0].
  unfold Gui.process_single_video.
  set (st1 := State files (tr ++ (if Gui.overwrite_existing cfg then []
                                  else [Eff_probe vp])) out sg tc0 to0).
  rewrite (bind_run _ _ _ (gui_seen_cover cfg e files vp) st1); cycle 1.
  { unfold gui_seen_cover, st1. destruct (Gui.overwrite_existing cfg); simpl.
    - unfold ret. by rewrite app_nil_r.
    - by rewrite gui_has_embedded_cover_run. }
  destruct (gui_seen_cover cfg e files vp) eqn:Hc.
  { intros [= <- <-]. eexists; split; [done|]. apply gui_run_has_cover; [done..|].
    unfold st1. unfold gui_seen_cover in Hc.
    by destruct (Gui.overwrite_existing cfg). }
  rewrite (bind_run _ _ _ _ _ (gui_get_video_duration_run _ _ _)).
  assert (record (Eff_probe vp) st1
          = State files (tr ++ gui_probes cfg vp) out sg tc0 to0) as ->.
  { unfold st1, gui_probes, record; simpl.
    destruct (Gui.overwrite_existing cfg); by rewrite <- ?app_assoc. }
  replace (fs st1) with files by done. clear st1.
  destruct (Qeq_bool _ _) eqn:Hz.
  { intros [= <- <-]. eexists; split; [done|]. by apply gui_run_no_duration. }
  destruct (bool_decide (mode = "time") && Qlt_bool _ _) eqn:Hs.
  { intros [= <- <-]. eexists; split; [done|].
    apply andb_true_iff in Hs as [Hm%bool_decide_eq_true Hs].
    by apply gui_run_too_short. }
  rewrite (bind_run _ _ _ tt (set_temp_cover "" _)) by done.
  rewrite (bind_run _ _ _ tt (set_temp_output "" _)) by done.
  intros Hrun.
  pose proof (gui_try_spec e vp
    (Gui.timestamp mode value (probed_duration (probe_format_fault e) files vp)) out_dir
    (State files (tr ++ gui_probes cfg vp) out sg tc0 to0)) as Hspec.
  destruct (Hspec _ _ Hrun) as (s & -> & Htry).
  exists s. split; [done|]. by apply gui_run_tried.
Qed.

(** ** Files and calls after the guarded removals *)

Lemma rm_empty ft : rm "" ft = ft.
Proof. unfold rm, exists_b. by rewrite bool_decide_false by (by intros []). Qed.

Lemma rm_lookup_ne p q ft : p = "" ∨ q ≠ p → (rm p ft).1 !! q = ft.1 !! q.
Proof.
  intros [->|Hne]; [by rewrite rm_empty|]. unfold rm. destruct (exists_b p ft.1); simpl; [|done].
  by rewrite lookup_delete_ne.
Qed.

Lemma rm_lookup_eq p ft : p ≠ "" → (rm p ft).1 !! p = None.
Proof.
  intros Hp. unfold rm, exists_b. rewrite (bool_decide_true (p ≠ "")) by done. simpl.
  case_bool_decide as Hs; simpl.
  - apply lookup_delete_eq.
  - destruct (ft.1 !! p) eqn:E; [|done]. destruct Hs. by eexists.
Qed.

Lemma rm_is_Some p q ft : is_Some ((rm p ft).1 !! q) → is_Some (ft.1 !! q) ∧ (p = "" ∨ q ≠ p).
Proof.
  destruct (decide (p = "")) as [->|Hp]; [rewrite rm_empty; auto|].
  destruct (decide (q = p)) as [->|Hq].
  - rewrite rm_lookup_eq by done. by intros [? ?].
  - rewrite rm_lookup_ne by auto. auto.
Qed.

Lemma rm_calls p ft :
  (rm p ft).2 = ft.2 ∨ (p ≠ "" ∧ (rm p ft).2 = ft.2 ++ [Eff_remove p]).
Proof.
  unfold rm, exists_b. case_bool_decide as Hp; simpl; [|by left].
  case_bool_decide; simpl; [right|left]; done.
Qed.

Lemma write_at_ne p q w (m : gmap string content) : p ≠ q → write_at p w m !! q = m !! q.
Proof. intros Hne. destruct w; simpl; [|done]. by rewrite lookup_insert_ne. Qed.

Lemma write_at_eq p w (m : gmap string content) :
  write_at p w m !! p = match w with Some c => Some c | None => m !! p end.
Proof. destruct w; simpl; [|done]. by rewrite lookup_insert_eq. Qed.

Lemma write_at_is_Some p q w (m : gmap string content) :
  is_Some (write_at p w m !! q) → q = p ∨ is_Some (m !! q).
Proof.
  destruct (decide (p = q)) as [->|Hne]; [by left|].
  rewrite write_at_ne by done. by right.
Qed.

(** ** The monitor of the original path *)

Lemma guarded_app vp ready tr1 tr2 :
  guarded vp ready (tr1 ++ tr2)
  ↔ guarded vp ready tr1 ∧ guarded vp (fold_left (fun r eff => remux_output eff r) tr1 ready) tr2.
Proof.
  revert ready. induction tr1 as [|eff tr1 IH]; intros ready; simpl; [tauto|].
  rewrite IH. tauto.
Qed.

Lemma rm_guarded vp ready p ft :
  p = "" ∨ p ≠ vp → guarded vp ready ft.2 → guarded vp ready (rm p ft).2.
Proof.
  intros [->|Hp] Hg; [by rewrite rm_empty|].
  destruct (rm_calls p ft) as [->|[_ ->]]; [done|].
  apply guarded_app. split; [done|]. simpl. split; [|done].
  rewrite list_elem_of_singleton. by intros ->.
Qed.

(** A run of the core never touches the original except by the commit move
    from the output of the remux that has just exited with status zero. *)
Lemma core_run_guarded e vp dest tc to to_early ss si vf ins maps codecs pics fs1 en ft :
  core_run e dest tc to to_early (GrabFrame ss si vp vf tc)
           (Remux ins maps codecs pics to) fs1 en ft →
  tc ≠ vp → to ≠ vp → to_early = "" ∨ to_early ≠ vp →
  guarded vp None ft.2.
Proof.
  intros Hrun Htc Hto Hearly.
  destruct Hrun; do 2 (apply rm_guarded; [by auto|]); simpl;
    rewrite ?list_elem_of_singleton, ?elem_of_cons, ?elem_of_nil;
    repeat split; try (intros ?; by intuition subst); try done.
  all: intros [?|[?|[]]]; subst; try done; eauto.
Qed.

(** The original is as before unless the run ended with the move done, or a
    move onto it stopped part-way. *)
Lemma core_run_original e vp dest tc to to_early cmd_x cmd_m fs1 en ft :
  core_run e dest tc to to_early cmd_x cmd_m fs1 en ft →
  tc ≠ vp → to ≠ vp → to_early = "" ∨ to_early ≠ vp →
  ft.1 !! vp = fs1 !! vp
  ∨ en = End_moved
  ∨ ∃ b, commit_fault e = MoveFailsPartway b
         ∧ Eff_move to vp (MoveFailsPartway b) ∈ ft.2.
Proof.
  intros Hrun Htc Hto Hearly.
  assert (Hvtc : tc = "" ∨ vp ≠ tc) by (right; congruence).
  assert (Hvto : to = "" ∨ vp ≠ to) by (right; congruence).
  assert (Hve : to_early = "" ∨ vp ≠ to_early) by (destruct Hearly; [left|right]; congruence).
  destruct Hrun; try (left; rewrite !rm_lookup_ne by done; simpl;
                      by rewrite ?write_at_ne by done).
  - by right; left.
  - destruct (decide (dest = vp)) as [->|Hd].
    + right; right. exists b. split; [done|].
      destruct (rm_calls to (rm tc (<[vp:=Bytes b]> (write_at to w2 (write_at tc w fs1)),
        [Eff_ffmpeg cmd_x true; Eff_ffmpeg cmd_m true;
         Eff_move to vp (MoveFailsPartway b)]))) as [->|[_ ->]];
      destruct (rm_calls tc (<[vp:=Bytes b]> (write_at to w2 (write_at tc w fs1)),
        [Eff_ffmpeg cmd_x true; Eff_ffmpeg cmd_m true;
         Eff_move to vp (MoveFailsPartway b)])) as [->|[_ ->]]; simpl;
      rewrite ?elem_of_app, !elem_of_cons; tauto.
    + left. rewrite !rm_lookup_ne by done; simpl.
      rewrite lookup_insert_ne by done.
      by rewrite !write_at_ne by done.
Qed.

(** What is left at the end was there before, or is the destination. *)
Lemma core_run_dom e dest tc to to_early cmd_x cmd_m fs1 en ft q :
  core_run e dest tc to to_early cmd_x cmd_m fs1 en ft →
  tc ≠ "" → to ≠ "" → to_early = "" ∨ to_early = to →
  is_Some (ft.1 !! q) →
  q = dest ∨ (is_Some (fs1 !! q) ∧ q ≠ tc ∧ (to_early = to → q ≠ to)).
Proof.
  intros Hrun Htc Hto Hearly.
  destruct Hrun; intros [Hq [Hx|Hx]]%rm_is_Some; try done;
    apply rm_is_Some in Hq as [Hq [Hy|Hy]]; try done; simpl in Hq.
  all: repeat match goal with
       | H : is_Some (write_at _ _ _ !! _) |- _ =>
           apply write_at_is_Some in H as [->|H]; [done|]
       end.
  all: try (right; split; [done|]; split; [done|];
            by (intros ?; destruct Hearly; congruence)).
  all: try (right; split; [done|]; split; [done|]; by intros _).
  - destruct (decide (dest = q)) as [->|Hd]; [by left|].
    rewrite lookup_insert_ne, lookup_delete_ne in Hq by done.
    repeat match goal with
       | H : is_Some (write_at _ _ _ !! _) |- _ =>
           apply write_at_is_Some in H as [->|H]; [done|]
       end.
    right. split; [done|]; split; [done|]; by intros _.
  - destruct (decide (dest = q)) as [->|Hd]; [by left|].
    rewrite lookup_insert_ne in Hq by done.
    repeat match goal with
       | H : is_Some (write_at _ _ _ !! _) |- _ =>
           apply write_at_is_Some in H as [->|H]; [done|]
       end.
    right. split; [done|]; split; [done|]; by intros _.
Qed.

(** ** What the two ffmpeg commands write *)

Lemma grab_result m frame ss si vp vf out w :
  ffmpeg_result m frame (GrabFrame ss si vp vf out) = Some w →
  ∃ c, m !! vp = Some (Media c) ∧ existsb is_video (streams c) = true
       ∧ w = Image <$> frame.
Proof.
  simpl. destruct (m !! vp) as [[c|px|b]|]; try done.
  destruct (existsb is_video (streams c)) eqn:E; [|done].
  intros [= <-]. eauto.
Qed.

Lemma select_all seen l : select AllStreams seen l = l.
Proof. revert seen. induction l as [|s l IH]; intros seen; simpl; [done|]. by rewrite IH. Qed.

Lemma select_audio seen l :
  select (OfType SelA None) seen l = filter (fun s => is_audio s = true) l.
Proof.
  revert seen. induction l as [|s l IH]; intros seen; simpl; [done|].
  rewrite IH, filter_cons. unfold type_matches.
  destruct (decide (is_audio s = true)) as [E|E].
  - by rewrite E.
  - apply not_true_is_false in E. by rewrite E.
Qed.

Lemma select_video_from k seen l :
  (k < seen)%nat → select (OfType SelV (Some k)) seen l = [].
Proof.
  revert seen. induction l as [|s l IH]; intros seen Hk; simpl; [done|].
  unfold next_seen; simpl. destruct (is_video s); simpl.
  - rewrite (proj2 (Nat.eqb_neq seen k)) by lia. simpl. apply IH. lia.
  - by apply IH.
Qed.

Lemma select_first_video l :
  select (OfType SelV (Some 0%nat)) 0 l = option_list (first_video l).
Proof.
  unfold first_video. induction l as [|s l IH]; simpl; [done|].
  rewrite filter_cons. unfold next_seen; simpl.
  destruct (decide (is_video s = true)) as [E|E].
  - rewrite E. simpl. by rewrite select_video_from by lia.
  - apply not_true_is_false in E. rewrite E. exact IH.
Qed.

Lemma retag_copy_all l :
  map encode (retag fst AllStreams (fun p => (p.1, CodecCopy)) 0
                (map (fun s => (s, CodecEncoder "native")) l)) = l.
Proof.
  generalize 0%nat. induction l as [|s l IH]; intros n; simpl; [done|].
  by rewrite IH.
Qed.

Lemma choose_copy_all l seen :
  retag fst AllStreams (fun p => (p.1, CodecCopy)) seen
    (map (fun s => (s, CodecEncoder "native")) l)
  = map (fun s => (s, CodecCopy)) l.
Proof. revert seen. induction l as [|s l IH]; intros n; simpl; [done|]. by rewrite IH. Qed.

(** The worker's remux: every stream of the video, then the picture, all
    copied; the flag goes to the second video stream of the output. *)
Lemma gui_remux_streams l px :
  l ≠ [] →
  remux_streams [l; [cover_stream px]]
    [ MapArg 0 AllStreams false; MapArg 1 AllStreams false ]
    [ (AllStreams, CodecCopy) ] [ OfType SelV (Some 1%nat) ]
  = Some (gui_remuxed l px).
Proof.
  intros Hl. unfold remux_streams, gui_remuxed, apply_dispositions, choose_codecs.
  simpl. rewrite select_all.
  rewrite bool_decide_false by done. simpl.
  by rewrite retag_copy_all.
Qed.

(** The flag lands on the picture when the video has exactly one video
    stream. *)
Lemma gui_remuxed_one_video l px :
  count_video l = 1%nat →
  gui_remuxed l px = l ++ [Stream (Video true) "mjpeg" (Stored px)].
Proof.
  unfold gui_remuxed, count_video.
  assert (∀ l seen, length (filter (fun s => is_video s = true) l) + seen = 1
            → retag id (OfType SelV (Some 1%nat)) set_attached_pic seen
                (l ++ [cover_stream px])
              = l ++ [Stream (Video true) "mjpeg" (Stored px)])%nat as Hgen.
  { clear. induction l as [|s l IH]; intros seen Hlen; simpl in *.
    - subst seen. done.
    - rewrite filter_cons in Hlen. unfold next_seen; simpl.
      destruct (decide (is_video s = true)) as [E|E].
      + rewrite E. simpl in *. assert (seen = 0)%nat as -> by lia. simpl.
        f_equal. apply IH. lia.
      + apply not_true_is_false in E. rewrite E. simpl. f_equal. by apply IH. }
  intros Hl. apply Hgen. lia.
Qed.

(** Codec and data of every stream are as in the inputs; the streams of the
    video keep their type too, but for the flag. *)
Lemma retag_attached_data spec seen l :
  map s_data (retag id spec set_attached_pic seen l) = map s_data l
  ∧ map s_codec (retag id spec set_attached_pic seen l) = map s_codec l
  ∧ map is_video (retag id spec set_attached_pic seen l) = map is_video l
  ∧ length (retag id spec set_attached_pic seen l) = length l.
Proof.
  revert seen. induction l as [|s l IH]; intros seen; simpl; [done|].
  destruct (IH (next_seen spec seen s)) as (-> & -> & -> & ->).
  destruct (spec_hits spec seen s); [|done].
  by destruct s as [[b| | |] codec data].
Qed.

Lemma gui_remuxed_copies l px :
  map s_data (gui_remuxed l px) = map s_data l ++ [Stored px]
  ∧ map s_codec (gui_remuxed l px) = map s_codec l ++ ["mjpeg"]
  ∧ map is_video (gui_remuxed l px) = map is_video l ++ [true]
  ∧ length (gui_remuxed l px) = S (length l).
Proof.
  unfold gui_remuxed.
  destruct (retag_attached_data (OfType SelV (Some 1%nat)) 0 (l ++ [cover_stream px]))
    as (-> & -> & -> & ->).
  rewrite !map_app, length_app. simpl. repeat split; try done. lia.
Qed.

(** With a video stream in the input, the output has a flagged stream. *)
Lemma gui_remuxed_flagged l px :
  existsb is_video l = true → existsb is_attached_pic (gui_remuxed l px) = true.
Proof.
  unfold gui_remuxed.
  assert (∀ l seen, (seen ≤ 1)%nat →
            (seen = 1 ∨ existsb is_video l = true)%nat →
            existsb is_attached_pic
              (retag id (OfType SelV (Some 1%nat)) set_attached_pic seen
                 (l ++ [cover_stream px])) = true) as Hgen.
  { clear. induction l as [|s l IH]; intros seen Hle Hor; simpl in *.
    - destruct Hor as [->|?]; done.
    - unfold next_seen; simpl. destruct (is_video s) eqn:E; simpl.
      + destruct (decide (seen = 1%nat)) as [->|Hne].
        * simpl. destruct s as [[b| | |] codec data]; done.
        * assert (seen = 0%nat) as -> by lia. simpl.
          rewrite (IH 1%nat) by auto. apply orb_true_r.
      + rewrite (IH seen); [apply orb_true_r|done|].
        destruct Hor as [?|Hor]; [by left|]. by right. }
  intros Hv. apply Hgen; auto.
Qed.


Lemma retag_video_over_audio {A} (key : A → stream) k (f : A → A) seen (l : list A) rest :
  Forall (fun x => is_video (key x) = false) l →
  retag key (OfType SelV k) f seen (l ++ rest)
  = l ++ retag key (OfType SelV k) f seen rest.
Proof.
  intros H. induction H as [|x l Hx _ IH]; simpl; [done|].
  unfold next_seen; simpl. rewrite Hx. destruct k; simpl; by rewrite IH.
Qed.

Lemma audio_not_video l :
  Forall (fun s => is_video s = false) (filter (fun s => is_audio s = true) l).
Proof.
  apply Forall_forall. intros s [Hs _]%list_elem_of_filter.
  unfold is_audio, is_video in *. by destruct (s_type s).
Qed.

Lemma first_video_is_video l v : first_video l = Some v → is_video v = true.
Proof.
  unfold first_video. intros H%head_Some_elem_of.
  by apply list_elem_of_filter in H as [? _].
Qed.

(** The console script's remux: the first video stream and the audio streams
    of the video, copied, then the picture, encoded as PNG and flagged. *)
Lemma cli_remux_streams l px :
  remux_streams [l; [cover_stream px]]
    [ MapArg 0 (OfType SelV (Some 0%nat)) false;
      MapArg 0 (OfType SelA None) true;
      MapArg 1 AllStreams false ]
    [ (AllStreams, CodecCopy); (OfType SelV (Some 1%nat), CodecEncoder "png") ]
    [ OfType SelV (Some 1%nat) ]
  = (fun v => cli_remuxed v l px) <$> first_video l.
Proof.
  unfold remux_streams, cli_remuxed, apply_dispositions, choose_codecs.
  simpl. rewrite select_first_video, select_audio, ?select_all.
  destruct (first_video l) as [v|] eqn:Hv; simpl; [|done].
  pose proof (first_video_is_video _ _ Hv) as Hvid.
  pose proof (audio_not_video l) as Haud.
  set (audios := filter (fun s => is_audio s = true) l) in *.
  rewrite andb_false_r. simpl. f_equal.
  rewrite choose_copy_all. simpl. unfold next_seen at 1; simpl. rewrite Hvid. simpl.
  rewrite map_app. simpl.
  rewrite (retag_video_over_audio fst).
  2:{ apply Forall_forall. intros [s c] [s' [[= -> ->] Hs']]%list_elem_of_fmap.
      simpl. by apply (proj1 (Forall_forall _ _) Haud). }
  simpl. rewrite map_app. simpl.
  rewrite map_map. simpl. rewrite map_id.
  unfold next_seen at 1; simpl. change (encode (v, CodecCopy)) with v.
  rewrite Hvid, andb_false_r. f_equal.
  by rewrite (retag_video_over_audio id).
Qed.

(** What the remux of a video and a picture writes. *)
Lemma remux_result (m : gmap string content) vp tc maps codecs pics to c px w :
  m !! vp = Some (Media c) → m !! tc = Some (Image px) →
  ffmpeg_result m None (Remux [vp; tc] maps codecs pics to) = Some w →
  ∃ out, remux_streams [streams c; [cover_stream px]] maps codecs pics = Some out
         ∧ w = Some (Media (Container out (fmt_duration c))).
Proof.
  intros Hvp Htc. simpl. rewrite Hvp, Htc. simpl.
  destruct (remux_streams _ _ _ _) as [out|]; simpl; [|done].
  intros [= <-]. eauto.
Qed.

(** ** What a run that moved the rebuilt file leaves at the destination *)

Lemma probed_duration_media how files vp :
  ¬ (probed_duration how files vp == 0)%Q →
  ∃ c, files !! vp = Some (Media c) ∧ probed_duration how files vp = duration_of c.
Proof.
  unfold probed_duration. intros H.
  destruct how; try (by destruct H).
  destruct (files !! vp) as [[c|px|b]|]; try (by destruct H). eauto.
Qed.

Lemma picture_there (fs1 : gmap string content) tc frame :
  fs1 !! tc = Some (Bytes "") →
  picture_missing tc (write_at tc (Image <$> frame) fs1) = false →
  ∃ px, frame = Some px.
Proof.
  intros Htc. destruct frame as [px|]; [eauto|]. simpl.
  unfold picture_missing, size_if_there. rewrite Htc. simpl.
  intros [_ H]%orb_false_iff. by destruct (exists_b tc fs1).
Qed.

Lemma core_run_moved e vp tc to to_early ss si vf maps codecs pics fs1 ft c :
  core_run e vp tc to to_early (GrabFrame ss si vp vf tc)
           (Remux [vp; tc] maps codecs pics to) fs1 End_moved ft →
  tc ≠ vp → to ≠ vp →
  fs1 !! vp = Some (Media c) → fs1 !! tc = Some (Bytes "") →
  ∃ px out,
    decoded_frame e = Some px
    ∧ existsb is_video (streams c) = true
    ∧ remux_streams [streams c; [cover_stream px]] maps codecs pics = Some out
    ∧ ft.1 !! vp = Some (Media (Container out (fmt_duration c))).
Proof.
  intros Hrun Htc Hto Hvp Hcover. remember End_moved as en eqn:Hen.
  destruct Hrun as [| | | |w w2 c2 Hx Hpic Hm Hout Hmv| |]; try discriminate.
  apply grab_result in Hx as (c' & Hc' & Hvid & ->).
  rewrite Hvp in Hc'. injection Hc' as <-.
  apply picture_there in Hpic as [px Hfr]; [|done].
  rewrite Hfr in Hm, Hout. cbn [fmap option_fmap option_map write_at] in Hm, Hout.
  assert (∃ out, remux_streams [streams c; [cover_stream px]] maps codecs pics = Some out
                 ∧ w2 = Some (Media (Container out (fmt_duration c))))
    as (out & Hstreams & Hw2).
  { apply (remux_result (<[tc:=Image px]> fs1) vp tc maps codecs pics to c px w2);
      [by rewrite lookup_insert_ne|by rewrite lookup_insert_eq|done]. }
  rewrite Hw2, write_at_eq in Hout. injection Hout as <-.
  exists px, out. repeat split; [done..|].
  rewrite !rm_lookup_ne by (right; congruence). simpl. by rewrite lookup_insert_eq.
Qed.
(** ** What a run of either [try] statement guarantees *)

Lemma outcomes_app a b : Cli.outcomes (a ++ b) = Cli.outcomes a ++ Cli.outcomes b.
Proof. apply omap_app. Qed.

Lemma failure_log_silent ex : Cli.outcome_of_line (failure_log ex) = None.
Proof. by destruct ex. Qed.

Lemma cli_lines_outcomes f en : Cli.outcomes (cli_lines f en) = [cli_outcome en].
Proof.
  destruct en; unfold Cli.outcomes; simpl; rewrite ?failure_log_silent; done.
Qed.

Lemma rm_grabs p ft : grab_times (rm p ft).2 = grab_times ft.2.
Proof.
  destruct (rm_calls p ft) as [->|[_ ->]]; [done|].
  unfold grab_times. rewrite omap_app. simpl. by rewrite app_nil_r.
Qed.

(** The core grabs one frame, at the time its command names. *)
Lemma core_run_grabs e dest tc to to_early ss si vp vf ins maps codecs pics fs1 en ft :
  core_run e dest tc to to_early (GrabFrame ss si vp vf tc)
           (Remux ins maps codecs pics to) fs1 en ft →
  grab_times ft.2 = [ss].
Proof. intros Hrun. destruct Hrun; by rewrite !rm_grabs. Qed.

Lemma gui_status_embedded en : gui_status en = St_embedded → en = End_moved.
Proof. destruct en as [ex| |ex| | |]; try done; by destruct ex. Qed.

Lemma failure_status_not_embedded ex : failure_status ex ≠ St_embedded.
Proof. by destruct ex. Qed.

Lemma cli_outcome_success en : cli_outcome en = Success → en = End_moved.
Proof. by destruct en. Qed.

Lemma cli_try_facts e vp st st' c :
  cli_try e vp st st' → fs st !! vp = Some (Media c) →
  ∃ tr out o,
    trace st' = trace st ++ tr ∧ stdout st' = stdout st ++ out
    ∧ Cli.outcomes out = [o]
    ∧ guarded vp None tr
    ∧ Forall (eq (inject_Z Cli.THUMBNAIL_TIME_SECONDS)) (grab_times tr)
    ∧ (fs st' !! vp = fs st !! vp ∨ o = Success ∨ stopped_partway e vp tr)
    ∧ (o = Success →
       ∃ px v, decoded_frame e = Some px ∧ first_video (streams c) = Some v
               ∧ fs st' !! vp
                 = Some (Media (Container (cli_remuxed v (streams c) px) (fmt_duration c)))).
Proof.
  intros [ex Hno ->|tc en ft Hfresh Htc Htc0 to Hrun ->] Hvp.
  - exists [], [L_step 1; L_failed (basename vp); failure_log ex; L_step 4],
      (Failed "processing failed").
    simpl. rewrite app_nil_r. unfold Cli.outcomes; simpl. rewrite failure_log_silent.
    repeat split; auto. done.
  - assert (Hne : tc ≠ vp) by (intros ->; congruence).
    assert (Hto : to ≠ vp) by apply temp_video_differs.
    exists (Eff_mktemp tc :: ft.2), (cli_lines (basename vp) en ++ [L_step 4]), (cli_outcome en).
    simpl. split; [done|]. split; [done|].
    split; [by rewrite outcomes_app, cli_lines_outcomes|].
    split.
    { split; [rewrite list_elem_of_singleton; by intros ->|].
      eapply core_run_guarded; eauto. }
    split.
    { unfold Cli.extract_command in Hrun. unfold Cli.embed_command in Hrun.
      change (grab_times (Eff_mktemp tc :: ft.2)) with (grab_times ft.2).
      erewrite core_run_grabs by exact Hrun. by constructor. }
    split.
    { destruct (core_run_original _ vp _ _ _ _ _ _ _ _ _ Hrun Hne Hto (or_introl eq_refl))
        as [H|[->|[b Hb]]].
      - left. rewrite H. by rewrite lookup_insert_ne.
      - right; left. done.
      - right; right. destruct Hb as [Hb Hin]. exists to, b. split; [done|].
        by apply elem_of_cons; right. }
    intros ->%cli_outcome_success.
    unfold Cli.extract_command, Cli.embed_command in Hrun.
    apply (core_run_moved _ _ _ _ _ _ _ _ _ _ _ _ _ c) in Hrun
      as (px & out & Hpx & Hvid & Hout & Hfin); try done.
    + rewrite cli_remux_streams in Hout.
      destruct (first_video (streams c)) as [v|] eqn:Hv; [|done].
      injection Hout as <-. by exists px, v.
    + by rewrite lookup_insert_ne.
    + by rewrite lookup_insert_eq.
Qed.

Lemma gui_try_facts e vp second out_dir st s st' c :
  gui_try e vp second out_dir st s st' →
  Gui.final_path vp out_dir = vp →
  fs st !! vp = Some (Media c) →
  ∃ tr,
    trace st' = trace st ++ tr ∧ stdout st' = stdout st
    ∧ guarded vp None tr
    ∧ Forall (eq second) (grab_times tr)
    ∧ (fs st' !! vp = fs st !! vp ∨ s = St_embedded ∨ stopped_partway e vp tr)
    ∧ (s = St_embedded →
       ∃ px, decoded_frame e = Some px ∧ existsb is_video (streams c) = true
             ∧ fs st' !! vp
               = Some (Media (Container (gui_remuxed (streams c) px) (fmt_duration c)))).
Proof.
  intros [ex Hno -> ->|tc ex Hfresh Htc Htc0 Hno -> ->
         |tc to en ft Hfresh Htc Htc0 Hfresh2 Hto Hto0 Hrun -> ->] Hdest Hvp.
  - exists []. simpl. rewrite app_nil_r. repeat split; auto.
    intros H. by apply failure_status_not_embedded in H.
  - assert (Hne : tc ≠ vp) by (intros ->; congruence).
    exists [Eff_mktemp tc]. simpl. repeat split; auto.
    + rewrite list_elem_of_singleton. by intros ->.
    + left. by rewrite lookup_insert_ne.
    + intros H. by apply failure_status_not_embedded in H.
  - assert (Hne : tc ≠ vp) by (intros ->; congruence).
    assert (Hne2 : to ≠ vp).
    { intros ->. rewrite lookup_insert_ne in Hto by done. congruence. }
    assert (Hne3 : to ≠ tc).
    { intros ->. by rewrite lookup_insert_eq in Hto. }
    rewrite Hdest in Hrun.
    unfold Gui.ffmpeg_extract_cmd, Gui.ffmpeg_embed_cmd in Hrun.
    exists (Eff_mktemp tc :: Eff_mktemp to :: ft.2).
    simpl. split; [done|]. split; [done|].
    split.
    { split; [rewrite list_elem_of_singleton; by intros ->|].
      split; [rewrite list_elem_of_singleton; by intros ->|].
      eapply core_run_guarded; eauto. }
    split.
    { change (grab_times (Eff_mktemp tc :: Eff_mktemp to :: ft.2)) with (grab_times ft.2).
      erewrite core_run_grabs by exact Hrun. by constructor. }
    split.
    { destruct (core_run_original _ vp _ _ _ _ _ _ _ _ _ Hrun Hne Hne2 (or_intror Hne2))
        as [H|[->|[b Hb]]].
      - left. rewrite H. by rewrite !lookup_insert_ne.
      - right; left. done.
      - right; right. destruct Hb as [Hb Hin]. exists to, b. split; [done|].
        apply elem_of_cons; right. by apply elem_of_cons; right. }
    intros ->%gui_status_embedded.
    apply (core_run_moved _ _ _ _ _ _ _ _ _ _ _ _ _ c) in Hrun
      as (px & out & Hpx & Hvid & Hout & Hfin); try done.
    + rewrite gui_remux_streams in Hout by (by destruct (streams c)).
      injection Hout as <-. by exists px.
    + by rewrite !lookup_insert_ne.
    + rewrite lookup_insert_ne by done. by rewrite lookup_insert_eq.
Qed.
(** ** What a run of either pipeline guarantees *)

Lemma Qlt_bool_false a b : Qlt_bool a b = false ↔ (b <= a)%Q.
Proof.
  unfold Qlt_bool. rewrite negb_false_iff. apply Qle_bool_iff.
Qed.

Lemma Qlt_bool_true a b : Qlt_bool a b = true ↔ (a < b)%Q.
Proof.
  unfold Qlt_bool. rewrite negb_true_iff. split.
  - intros H. apply Qnot_le_lt. intros Hle%Qle_bool_iff. congruence.
  - intros H. destruct (Qle_bool b a) eqn:E; [|done].
    apply Qle_bool_iff in E. by apply Qle_not_lt in E.
Qed.

Lemma Qeq_bool_false a b : Qeq_bool a b = false ↔ ¬ (a == b)%Q.
Proof.
  split.
  - intros H Heq%Qeq_bool_iff. congruence.
  - intros H. destruct (Qeq_bool a b) eqn:E; [|done]. by apply Qeq_bool_iff in E.
Qed.

Lemma probes_untargeted vp l :
  Forall (fun eff => ∃ p, eff = Eff_probe p) l → ∀ ready tr,
  guarded vp ready (l ++ tr) ↔ guarded vp ready tr.
Proof.
  induction 1 as [|eff l [p ->] _ IH]; intros ready tr; simpl; [done|].
  rewrite IH. split; [by intros [_ ?]|]. intros H. split; [|done].
  by intros ?%elem_of_nil.
Qed.

Lemma probes_no_grabs l tr :
  Forall (fun eff => ∃ p, eff = Eff_probe p) l →
  grab_times (l ++ tr) = grab_times tr.
Proof. induction 1 as [|eff l [p ->] _ IH]; simpl; done. Qed.

Lemma stopped_partway_after e l vp tr :
  stopped_partway e vp tr → stopped_partway e vp (l ++ tr).
Proof.
  intros (tmp & b & Hb & H). exists tmp, b. split; [done|]. apply elem_of_app. by right.
Qed.

Lemma gui_probes_are_probes cfg vp :
  Forall (fun eff => ∃ p, eff = Eff_probe p) (gui_probes cfg vp).
Proof. unfold gui_probes. destruct (Gui.overwrite_existing cfg); repeat constructor; eauto. Qed.

Lemma cli_run_facts e vp st st' :
  cli_run e vp st st' →
  ∃ tr out o,
    trace st' = trace st ++ tr ∧ stdout st' = stdout st ++ out
    ∧ Cli.outcomes out = [o]
    ∧ guarded vp None tr
    ∧ (∀ ss, ss ∈ grab_times tr →
         ss = inject_Z Cli.THUMBNAIL_TIME_SECONDS
         ∧ (ss <= probed_duration (probe_format_fault e) (fs st) vp)%Q)
    ∧ (fs st' !! vp = fs st !! vp ∨ o = Success ∨ stopped_partway e vp tr)
    ∧ (o = Success →
       ∃ c px v, fs st !! vp = Some (Media c)
                 ∧ decoded_frame e = Some px ∧ first_video (streams c) = Some v
                 ∧ fs st' !! vp
                   = Some (Media (Container (cli_remuxed v (streams c) px) (fmt_duration c)))).
Proof.
  intros [Hcov ->|Hcov Hshort ->|Hcov Hlong Htry].
  - exists [Eff_probe vp],
      [L_start (basename vp); L_checking_cover; L_skip_has_cover (basename vp)],
      (Skipped "already has cover").
    simpl. do 3 (split; [done|]).
    split; [split; [by intros ?%elem_of_nil|done]|].
    split; [by intros ? ?%elem_of_nil|].
    split; [by left|done].
  - exists [Eff_probe vp; Eff_probe vp],
      [L_start (basename vp); L_checking_cover; L_no_cover;
       L_skip_short (probed_duration (probe_format_fault e) (fs st) vp)],
      (Skipped "too short for requested timestamp").
    simpl. do 3 (split; [done|]).
    split; [repeat (split; [by intros ?%elem_of_nil|]); done|].
    split; [by intros ? ?%elem_of_nil|].
    split; [by left|done].
  - apply Qlt_bool_false in Hlong.
    destruct (probed_duration_media (probe_format_fault e) (fs st) vp) as (c & Hvp & Hd).
    { intros H0. rewrite H0 in Hlong. by vm_compute in Hlong. }
    destruct (cli_try_facts _ _ _ _ c Htry Hvp)
      as (tr & out & o & Htr & Hout & Ho & Hg & Hgr & Horig & Hsucc).
    simpl in *.
    exists ([Eff_probe vp; Eff_probe vp] ++ tr),
      ([L_start (basename vp); L_checking_cover; L_no_cover] ++ out), o.
    split; [by rewrite Htr, <- app_assoc|].
    split; [by rewrite Hout, <- app_assoc|].
    split; [by rewrite outcomes_app, Ho|].
    split.
    { apply probes_untargeted; [repeat constructor; eauto|done]. }
    split.
    { intros ss Hss. change (grab_times ([Eff_probe vp; Eff_probe vp] ++ tr))
        with (grab_times tr) in Hss.
      rewrite Forall_forall in Hgr. rewrite <- (Hgr ss Hss). done. }
    split.
    { destruct Horig as [?|[?|?]]; auto. right; right.
      by apply stopped_partway_after. }
    intros Hs. destruct (Hsucc Hs) as (px & v & ? & ? & ?). by exists c, px, v.
Qed.

Lemma gui_run_facts cfg e vp mode value out_dir st s st' :
  gui_run cfg e vp mode value out_dir st s st' →
  Gui.final_path vp out_dir = vp →
  ∃ tr,
    trace st' = trace st ++ tr ∧ stdout st' = stdout st
    ∧ guarded vp None tr
    ∧ (fs st' !! vp = fs st !! vp ∨ s = St_embedded ∨ stopped_partway e vp tr)
    ∧ (s = St_embedded →
       ∃ c px, fs st !! vp = Some (Media c)
               ∧ decoded_frame e = Some px ∧ existsb is_video (streams c) = true
               ∧ fs st' !! vp
                 = Some (Media (Container (gui_remuxed (streams c) px) (fmt_duration c)))).
Proof.
  intros [Hcov -> ->|Hcov Hzero -> ->|Hcov Hzero -> Hshort -> ->|Hcov Hzero Hlong Htry] Hdest.
  - exists [Eff_probe vp]. simpl. do 2 (split; [done|]).
    split; [split; [by intros ?%elem_of_nil|done]|].
    split; [by left|done].
  - exists (gui_probes cfg vp). simpl. do 2 (split; [done|]).
    split.
    { rewrite <- (app_nil_r (gui_probes cfg vp)).
      apply probes_untargeted; [apply gui_probes_are_probes|done]. }
    split; [by left|done].
  - exists (gui_probes cfg vp). simpl. do 2 (split; [done|]).
    split.
    { rewrite <- (app_nil_r (gui_probes cfg vp)).
      apply probes_untargeted; [apply gui_probes_are_probes|done]. }
    split; [by left|done].
  - apply Qeq_bool_false in Hzero.
    destruct (probed_duration_media (probe_format_fault e) (fs st) vp Hzero) as (c & Hvp & Hd).
    destruct (gui_try_facts _ _ _ _ _ _ _ c Htry Hdest Hvp)
      as (tr & Htr & Hout & Hg & Hgr & Horig & Hsucc).
    simpl in *.
    exists (gui_probes cfg vp ++ tr).
    split; [by rewrite Htr, <- app_assoc|].
    split; [done|].
    split; [apply probes_untargeted; [apply gui_probes_are_probes|done]|].
    split.
    { destruct Horig as [?|[?|?]]; auto. right; right.
      by apply stopped_partway_after. }
    intros Hs. destruct (Hsucc Hs) as (px & ? & ? & ?). by exists c, px.
Qed.

Lemma gui_try_grabs e vp second out_dir st s st' :
  gui_try e vp second out_dir st s st' →
  ∃ tr, trace st' = trace st ++ tr ∧ Forall (eq second) (grab_times tr).
Proof.
  intros [ex Hno -> ->|tc ex Hfresh Htc Htc0 Hno -> ->
         |tc to en ft Hfresh Htc Htc0 Hfresh2 Hto Hto0 Hrun -> ->].
  - exists []. simpl. by rewrite app_nil_r.
  - exists [Eff_mktemp tc]. simpl. split; [done|]. constructor.
  - exists (Eff_mktemp tc :: Eff_mktemp to :: ft.2). simpl. split; [done|].
    unfold Gui.ffmpeg_extract_cmd, Gui.ffmpeg_embed_cmd in Hrun.
    change (grab_times (Eff_mktemp tc :: Eff_mktemp to :: ft.2)) with (grab_times ft.2).
    erewrite core_run_grabs by exact Hrun. by constructor.
Qed.

(** The worker grabs a frame only after its two duration checks, at the time
    the settings give. *)
Lemma gui_run_grabs cfg e vp mode value out_dir st s st' :
  gui_run cfg e vp mode value out_dir st s st' →
  ∃ tr, trace st' = trace st ++ tr
    ∧ ∀ ss, ss ∈ grab_times tr →
        ss = Gui.timestamp mode value (probed_duration (probe_format_fault e) (fs st) vp)
        ∧ ¬ (probed_duration (probe_format_fault e) (fs st) vp == 0)%Q
        ∧ (mode = "time" → (value <= probed_duration (probe_format_fault e) (fs st) vp)%Q).
Proof.
  intros [Hcov -> ->|Hcov Hzero -> ->|Hcov Hzero -> Hshort -> ->|Hcov Hzero Hlong Htry].
  - exists [Eff_probe vp]. simpl. split; [done|]. by intros ? ?%elem_of_nil.
  - exists (gui_probes cfg vp). simpl. split; [done|].
    rewrite <- (app_nil_r (gui_probes cfg vp)), probes_no_grabs by apply gui_probes_are_probes.
    by intros ? ?%elem_of_nil.
  - exists (gui_probes cfg vp). simpl. split; [done|].
    rewrite <- (app_nil_r (gui_probes cfg vp)), probes_no_grabs by apply gui_probes_are_probes.
    by intros ? ?%elem_of_nil.
  - destruct (gui_try_grabs _ _ _ _ _ _ _ Htry) as (tr & Htr & Hgr). simpl in Htr.
    exists (gui_probes cfg vp ++ tr).
    split; [by rewrite Htr, <- app_assoc|].
    intros ss Hss. rewrite probes_no_grabs in Hss by apply gui_probes_are_probes.
    rewrite Forall_forall in Hgr. rewrite <- (Hgr ss Hss).
    split; [done|]. split; [by apply Qeq_bool_false|].
    intros ->. rewrite bool_decide_true in Hlong by done. simpl in Hlong.
    by apply Qlt_bool_false.
Qed.
(** ** The window and its pool *)

Lemma remove_first_perm w l : w ∈ l → l ≡ₚ w :: MainApp.remove_first w l.
Proof.
  induction l as [|x l IH]; [by intros ?%elem_of_nil|].
  intros Hw. simpl. case_bool_decide as Hx; [by subst|].
  apply elem_of_cons in Hw as [->|Hw]; [done|].
  rewrite (IH Hw) at 1. apply Permutation_swap.
Qed.

Lemma worker_done_pool envs w a :
  MainApp.threadpool (MainApp.worker_done envs w a)
  = MainApp.pool_finish w (MainApp.threadpool a)
  ∧ MainApp.waiting (MainApp.worker_done envs w a) = MainApp.waiting a
  ∧ MainApp.log_view (MainApp.worker_done envs w a) = MainApp.log_view a
  ∧ MainApp.controls_enabled (MainApp.worker_done envs w a) = MainApp.controls_enabled a.
Proof.
  unfold MainApp.worker_done. by destruct (Gui.run _ _ _ _).
Qed.

Lemma deliver_pool s a :
  MainApp.threadpool (MainApp.deliver s a) = MainApp.threadpool a
  ∧ MainApp.waiting (MainApp.deliver s a) = MainApp.waiting a.
Proof.
  destruct s; simpl; try done.
  unfold MainApp.on_worker_finished. simpl. by case_match.
Qed.

(** One step that is not a start, from a state with an empty queue: the queue
    stays empty, and the threads that were active are those still active and
    the one the step saw finish. *)
Lemma fire_after_stop envs ev a a' :
  MainApp.fire envs ev a = Some a' → is_start ev = false →
  MainApp.queue (MainApp.threadpool a) = [] →
  MainApp.queue (MainApp.threadpool a') = []
  ∧ MainApp.active (MainApp.threadpool a)
    ≡ₚ finished [ev] ++ MainApp.active (MainApp.threadpool a')
  ∧ (ev = MainApp.Ev_wait_returns → MainApp.active (MainApp.threadpool a) = [])
  ∧ (MainApp.waiting a = true → ev ≠ MainApp.Ev_wait_returns →
     MainApp.waiting a' = true ∧ MainApp.log_view a' = MainApp.log_view a
     ∧ MainApp.controls_enabled a' = MainApp.controls_enabled a).
Proof.
  intros Hfire Hev Hq. destruct ev as [ok| | |w|]; simpl in *; try done.
  - destruct (MainApp.waiting a) eqn:Hw; [done|]. simpl in Hfire.
    destruct (MainApp.controls_enabled a); [done|]. injection Hfire as <-. simpl.
    split; [done|]. split; [done|]. split; [done|]. by intros ?.
  - destruct (MainApp.waiting a) eqn:Hw; [|done]. simpl in Hfire.
    case_bool_decide as Hact; [|done]. injection Hfire as <-. simpl.
    split; [done|]. split; [by rewrite Hact|]. split; [done|]. by intros _ ?.
  - case_bool_decide as Hin; [|done]. injection Hfire as <-.
    destruct (worker_done_pool envs w a) as (-> & -> & -> & ->).
    unfold MainApp.pool_finish. rewrite Hq. simpl.
    split; [done|]. split; [by apply remove_first_perm|]. split; [done|]. by intros ? _.
  - destruct (MainApp.waiting a) eqn:Hw; [done|].
    destruct (MainApp.inbox a) as [|s rest]; [done|]. injection Hfire as <-.
    destruct (deliver_pool s (MainApp.take_signal a)) as (-> & ->). simpl.
    split; [done|]. split; [done|]. split; [done|]. by intros ?.
Qed.

Lemma exec_after_stop envs evs a a' :
  MainApp.exec envs evs a = Some a' → existsb is_start evs = false →
  MainApp.queue (MainApp.threadpool a) = [] →
  MainApp.queue (MainApp.threadpool a') = []
  ∧ MainApp.active (MainApp.threadpool a)
    ≡ₚ finished evs ++ MainApp.active (MainApp.threadpool a')
  ∧ (∀ evs1 evs2, evs = evs1 ++ MainApp.Ev_wait_returns :: evs2 →
       finished evs1 ≡ₚ MainApp.active (MainApp.threadpool a))
  ∧ (MainApp.waiting a = true → MainApp.Ev_wait_returns ∉ evs →
     MainApp.waiting a' = true ∧ MainApp.log_view a' = MainApp.log_view a
     ∧ MainApp.controls_enabled a' = MainApp.controls_enabled a).
Proof.
  revert a. induction evs as [|ev evs IH]; intros a Hexec Hst Hq.
  - injection Hexec as <-. simpl. repeat split; try done.
    intros [|? ?] ? ?; simplify_eq.
  - simpl in Hexec, Hst. apply orb_false_iff in Hst as [Hev Hst].
    destruct (MainApp.fire envs ev a) as [a1|] eqn:Hfire; [|done].
    destruct (fire_after_stop _ _ _ _ Hfire Hev Hq) as (Hq1 & Hact & Hwait & Hkeep).
    destruct (IH a1 Hexec Hst Hq1) as (Hq2 & Hact2 & Hsplit & Hkeep2).
    split; [done|]. split.
    { rewrite Hact, Hact2. unfold finished. simpl.
      destruct ev; simpl; try done. }
    split.
    { intros [|ev1 evs1] evs2 Heq; simpl in Heq; injection Heq as -> ->.
      - simpl. by rewrite (Hwait eq_refl).
      - rewrite Hact. specialize (Hsplit evs1 evs2 eq_refl).
        unfold finished in *. simpl. destruct ev1; simpl; by rewrite <- ?Hsplit. }
    intros Hw Hnot. apply not_elem_of_cons in Hnot as [Hne Hnot].
    destruct (Hkeep Hw (fun H => Hne (eq_sym H))) as (Hw1 & Hl1 & Hc1).
    destruct (Hkeep2 Hw1 Hnot) as (Hw2 & Hl2 & Hc2).
    by rewrite Hl2, Hc2.
Qed.

(** A worker's [run] always returns, with the status of its file and the
    signal that it has finished. *)
Lemma gui_run_total cfg e w st :
  ∃ s st', Gui.run cfg e w st = (Ret tt, st')
    ∧ signals st' = signals st ++ [Sig_progress (basename w) s; Sig_finished].
Proof.
  unfold Gui.run, try_finally, try_except, bind.
  destruct (Gui.process_single_video _ _ _ _ _ _ st) as [r st1] eqn:Hrun.
  apply gui_process_single_video_spec in Hrun as (s & -> & Hrun).
  exists s. eexists. split; [reflexivity|].
  unfold send; simpl. rewrite <- app_assoc. simpl. f_equal.
  destruct Hrun as [? ? ->|? ? ? ->|? ? ? ? ? ->|? ? ? Htry]; try done.
  destruct Htry as [? ? ? ->|? ? ? ? ? ? ? ->|? ? ? ? ? ? ? ? ? ? ? ? ->]; done.
Qed.

(** Once the stop button is handled, letting each active worker finish and
    then [waitForDone] return is a run of the window. *)
Lemma drain envs a :
  MainApp.waiting a = true → MainApp.queue (MainApp.threadpool a) = [] →
  ∃ a', MainApp.exec envs
          (map MainApp.Ev_worker_done (MainApp.active (MainApp.threadpool a))
           ++ [MainApp.Ev_wait_returns]) a = Some a'
        ∧ last (MainApp.log_view a') = Some MainApp.Log_ended
        ∧ MainApp.controls_enabled a' = true.
Proof.
  remember (MainApp.active (MainApp.threadpool a)) as l eqn:Hl.
  revert a Hl. induction l as [|w l IH]; intros a Hl Hw Hq.
  - simpl. rewrite Hw, <- Hl. simpl. eexists. split; [done|].
    simpl. split; [|done]. by rewrite last_snoc.
  - simpl. rewrite <- Hl. rewrite bool_decide_true by (by left).
    destruct (worker_done_pool envs w a) as (Hp & Hw' & _ & _).
    assert (Hact : MainApp.active (MainApp.threadpool (MainApp.worker_done envs w a)) = l).
    { rewrite Hp. unfold MainApp.pool_finish. rewrite Hq, <- Hl. simpl.
      by rewrite bool_decide_true. }
    apply IH; [by rewrite Hact|by rewrite Hw'|].
    rewrite Hp. unfold MainApp.pool_finish. by rewrite Hq.
Qed.
(** * The statements of the design *)

Lemma run_pair {A} (m : M A) st : m st = ((m st).1, (m st).2).
Proof. by destruct (m st). Qed.

(** C1 (amended).  In place, either pipeline touches the path of the original
    only by the commit move, whose source is the output of the remux that has
    just exited with status zero and is another path.  At the end the
    original holds what it held before, unless the run announced success or
    the commit move is one that stops part-way: [shutil.move] falls back on
    copying over the destination, and a copy that fails leaves the
    destination cut short.  A move that fails without writing leaves the
    original as it was. *)
Theorem original_written_only_by_commit (cfg : Gui.config) (e : env)
    (vp mode : string) (value : Q) (st : state) :
  (∃ tr out o,
     trace (Cli.process_video e vp st).2 = trace st ++ tr
     ∧ stdout (Cli.process_video e vp st).2 = stdout st ++ out
     ∧ Cli.outcomes out = [o]
     ∧ guarded vp None tr
     ∧ (fs (Cli.process_video e vp st).2 !! vp = fs st !! vp
        ∨ o = Success ∨ stopped_partway e vp tr))
  ∧ (∃ tr s,
       (Gui.process_single_video cfg e vp mode value None st).1 = Ret s
       ∧ trace (Gui.process_single_video cfg e vp mode value None st).2 = trace st ++ tr
       ∧ guarded vp None tr
       ∧ (fs (Gui.process_single_video cfg e vp mode value None st).2 !! vp = fs st !! vp
          ∨ s = St_embedded ∨ stopped_partway e vp tr)).
Proof.
  split.
  - destruct (cli_process_video_spec _ _ _ _ _ (run_pair (Cli.process_video e vp) st))
      as [_ Hrun].
    destruct (cli_run_facts _ _ _ _ Hrun) as (tr & out & o & ? & ? & ? & ? & _ & ? & _).
    by exists tr, out, o.
  - destruct (gui_process_single_video_spec _ _ _ _ _ _ _ _ _
                (run_pair (Gui.process_single_video cfg e vp mode value None) st))
      as (s & Hs & Hrun).
    destruct (gui_run_facts _ _ _ _ _ _ _ _ _ Hrun eq_refl) as (tr & ? & _ & ? & ? & _).
    by exists tr, s.
Qed.

(** C1, as stated, fails: the worker's commit move stops after it has
    truncated the destination; the run ends as a failure and the original no
    longer holds the video. *)
Lemma commit_move_stopping_partway_cuts_the_original :
  (Gui.process_single_video ex_cfg (env_move_stops "V") ex_path "time" (inject_Z 20) None
     (init_state ex_files)).1 = Ret (St_unknown OSError)
  ∧ fs (init_state ex_files) !! ex_path = Some (Media ex_video)
  ∧ fs (Gui.process_single_video ex_cfg (env_move_stops "V") ex_path "time" (inject_Z 20) None
          (init_state ex_files)).2 !! ex_path = Some (Bytes "V").
Proof. vm_compute. repeat split. Qed.

Lemma probe_fails_no_cover how files vp :
  probe_fails how files vp → probed_cover how files vp = false.
Proof.
  unfold probe_fails, probed_cover.
  destruct how; try done. by destruct (files !! vp) as [[?|?|?]|].
Qed.

Lemma probe_fails_raises report how vp st :
  probe_fails how (fs st) vp →
  ∃ ex, ffprobe report how vp st = (Raise ex, record (Eff_probe vp) st)
        ∧ Gui.probe_errors ex = true.
Proof.
  unfold probe_fails, ffprobe, bind, modify, get, raise; simpl.
  destruct how; simpl; eauto.
  destruct (fs st !! vp) as [[?|?|?]|]; simpl; by eauto.
Qed.

(** C2 (amended).  When the stream probe fails, [has_embedded_cover] answers
    [False] in both scripts: the exception ends in the [except] clause.  The
    worker then goes on exactly as it does when told to overwrite covers, and
    the console script prints that there is no cover and probes the
    duration. *)
Theorem failed_probe_reads_as_no_cover (cfg : Gui.config) (e : env)
    (vp mode : string) (value : Q) (out_dir : option string) (st : state) :
  probe_fails (probe_streams_fault e) (fs st) vp →
  (∃ ex, ffprobe show_streams_json (probe_streams_fault e) vp st
         = (Raise ex, record (Eff_probe vp) st))
  ∧ Gui.has_embedded_cover e vp st = (Ret false, record (Eff_probe vp) st)
  ∧ Cli.has_embedded_cover e vp st
    = (Ret false, record (Eff_probe vp) (emit L_checking_cover st))
  ∧ (Gui.overwrite_existing cfg = false →
     Gui.process_single_video cfg e vp mode value out_dir st
     = Gui.process_single_video (overwriting cfg) e vp mode value out_dir
         (record (Eff_probe vp) st))
  ∧ (∃ tr out,
       trace (Cli.process_video e vp st).2 = trace st ++ Eff_probe vp :: Eff_probe vp :: tr
       ∧ stdout (Cli.process_video e vp st).2
         = stdout st ++ L_start (basename vp) :: L_checking_cover :: L_no_cover :: out).
Proof.
  intros Hfail. pose proof (probe_fails_no_cover _ _ _ Hfail) as Hno.
  split.
  { destruct (probe_fails_raises show_streams_json _ _ _ Hfail) as (ex & ? & _). eauto. }
  split; [by rewrite gui_has_embedded_cover_run, Hno|].
  split; [by rewrite cli_has_embedded_cover_run, Hno|].
  split.
  { intros Hover. unfold Gui.process_single_video. rewrite Hover. simpl.
    rewrite (bind_run _ _ _ _ _ (gui_has_embedded_cover_run _ _ _)). by rewrite Hno. }
  destruct (cli_process_video_spec _ _ _ _ _ (run_pair (Cli.process_video e vp) st))
    as [_ Hrun].
  destruct Hrun as [Hcov _|_ _ ->|_ _ Htry]; [congruence| |].
  - simpl. by exists [], [L_skip_short (probed_duration (probe_format_fault e) (fs st) vp)].
  - destruct Htry as [ex _ ->|tc en ft _ _ _ to _ ->]; simpl.
    + exists []. eexists. split; [done|]. by rewrite <- app_assoc.
    + exists (Eff_mktemp tc :: ft.2). eexists. split; [by rewrite <- app_assoc|].
      by rewrite <- app_assoc.
Qed.

Lemma failed_probe_reads_as_no_cover_witness :
  Gui.process_single_video ex_cfg env_stream_probe_exits ex_path "time" (inject_Z 20) None
    (init_state ex_files)
  = Gui.process_single_video (overwriting ex_cfg) env_stream_probe_exits ex_path "time"
      (inject_Z 20) None (record (Eff_probe ex_path) (init_state ex_files)).
Proof.
  refine (proj1 (proj2 (proj2 (proj2
    (failed_probe_reads_as_no_cover ex_cfg env_stream_probe_exits ex_path "time"
       (inject_Z 20) None (init_state ex_files) _)))) _).
  - exact I.
  - reflexivity.
Defined.

(** C2, as stated, fails: the stream probe of a file exits non-zero, and both
    scripts go on and end in success; neither reports a failure. *)
Lemma failed_probe_is_followed_by_success :
  (ffprobe show_streams_json ProbeExits ex_path (init_state ex_files)).1
    = Raise CalledProcessError
  ∧ (Gui.process_single_video ex_cfg env_stream_probe_exits ex_path "time" (inject_Z 20) None
       (init_state ex_files)).1 = Ret St_embedded
  ∧ Gui.outcome_of_status St_embedded = Success
  ∧ Cli.outcomes (stdout (Cli.process_video env_stream_probe_exits ex_path
                            (init_state ex_files)).2) = [Success].
Proof. vm_compute. repeat split. Qed.




Lemma Qeq_bool_true a b : Qeq_bool a b = true ↔ (a == b)%Q.
Proof. apply Qeq_bool_iff. Qed.

(** C4 (amended).  The worker, past the cover check: a probed duration of
    zero ends the run with the status that stands for
    [Failed "duration unavailable"]; in fixed-time mode a duration that is
    not zero and less than the time asked for ends it with the status that
    stands for [Skipped "too short for requested timestamp"].  The console
    script, past the cover check: any duration below its 20 seconds, zero
    included, ends the run as skipped.  In each case the files are as
    before. *)
Theorem duration_checks (cfg : Gui.config) (e : env) (vp mode : string)
    (value : Q) (out_dir : option string) (st : state) :
  (gui_seen_cover cfg e (fs st) vp = false →
   ((probed_duration (probe_format_fault e) (fs st) vp == 0)%Q →
    ∃ st', Gui.process_single_video cfg e vp mode value out_dir st = (Ret St_no_duration, st')
           ∧ Gui.outcome_of_status St_no_duration = Failed "duration unavailable"
           ∧ fs st' = fs st)
   ∧ (mode = "time" →
      ¬ (probed_duration (probe_format_fault e) (fs st) vp == 0)%Q →
      (probed_duration (probe_format_fault e) (fs st) vp < value)%Q →
      ∃ s st', Gui.process_single_video cfg e vp mode value out_dir st = (Ret s, st')
               ∧ s = St_too_short (probed_duration (probe_format_fault e) (fs st) vp) value
               ∧ Gui.outcome_of_status s = Skipped "too short for requested timestamp"
               ∧ fs st' = fs st))
  ∧ (probed_cover (probe_streams_fault e) (fs st) vp = false →
     (probed_duration (probe_format_fault e) (fs st) vp
      < inject_Z Cli.THUMBNAIL_TIME_SECONDS)%Q →
     ∃ st' out, Cli.process_video e vp st = (Ret tt, st')
                ∧ stdout st' = stdout st ++ out
                ∧ Cli.outcomes out = [Skipped "too short for requested timestamp"]
                ∧ fs st' = fs st).
Proof.
  split.
  - intros Hcov.
    destruct (gui_process_single_video_spec _ _ _ _ _ _ _ _ _
                (run_pair (Gui.process_single_video cfg e vp mode value out_dir) st))
      as (s & Hs & Hrun).
    rewrite (run_pair (Gui.process_single_video cfg e vp mode value out_dir) st).
    rewrite Hs. clear Hs.
    split.
    + intros Hz%Qeq_bool_true.
      destruct Hrun as [?|_ _ -> Hst|_ ? _ _ _ _|_ ? _ _]; try congruence.
      eexists. split; [done|]. split; [done|]. by rewrite Hst.
    + intros Hm Hnz%Qeq_bool_false Hlt%Qlt_bool_true.
      destruct Hrun as [?|_ ? _ _|_ _ _ _ -> Hst|_ _ Hlong _]; try congruence.
      * exists (St_too_short (probed_duration (probe_format_fault e) (fs st) vp) value).
        eexists. split; [done|]. split; [done|]. split; [done|]. by rewrite Hst.
      * rewrite Hlt, bool_decide_true in Hlong by done. done.
  - intros Hcov Hlt%Qlt_bool_true.
    destruct (cli_process_video_spec _ _ _ _ _ (run_pair (Cli.process_video e vp) st))
      as [Hr Hrun].
    rewrite (run_pair (Cli.process_video e vp) st), Hr. clear Hr.
    destruct Hrun as [?|_ _ Hst|_ ? _]; try congruence.
    eexists. eexists. split; [done|]. rewrite Hst. simpl. split; [done|]. done.
Qed.

Lemma duration_checks_witness :
  ∃ st' out,
    Cli.process_video ex_env ex_path (init_state (files_of_duration (inject_Z 5)))
    = (Ret tt, st')
    ∧ stdout st' = stdout (init_state (files_of_duration (inject_Z 5))) ++ out
    ∧ Cli.outcomes out = [Skipped "too short for requested timestamp"]
    ∧ fs st' = fs (init_state (files_of_duration (inject_Z 5))).
Proof.
  apply (proj2 (duration_checks ex_cfg ex_env ex_path "time" (inject_Z 20) None
                  (init_state (files_of_duration (inject_Z 5))))).
  - reflexivity.
  - reflexivity.
Defined.

(** C4, as stated, fails: on a file whose probed duration is zero the console
    script ends the run as skipped, not as failed. *)
Lemma console_script_skips_duration_zero :
  probed_duration ProbeRuns (files_of_duration 0) ex_path = 0%Q
  ∧ Cli.outcomes (stdout (Cli.process_video ex_env ex_path
                            (init_state (files_of_duration 0))).2)
    = [Skipped "too short for requested timestamp"].
Proof. vm_compute. repeat split. Qed.

Lemma cli_remuxed_flagged v l px : existsb is_attached_pic (cli_remuxed v l px) = true.
Proof.
  unfold cli_remuxed. simpl. rewrite existsb_app. simpl.
  by rewrite !orb_true_r.
Qed.

(** C5 (amended).  After a run in place that ends in success, a second run on
    the same path whose stream probe runs, with covers not to be overwritten,
    ends as skipped for having a cover, and leaves the files as they are. *)
Theorem second_run_in_place_is_skipped (cfg cfg2 : Gui.config) (e e2 : env)
    (vp mode mode2 : string) (value value2 : Q) (out_dir2 : option string) (st : state) :
  probe_streams_fault e2 = ProbeRuns →
  ((Gui.process_single_video cfg e vp mode value None st).1 = Ret St_embedded →
   Gui.overwrite_existing cfg2 = false →
   ∃ st2,
     Gui.process_single_video cfg2 e2 vp mode2 value2 out_dir2
       (Gui.process_single_video cfg e vp mode value None st).2
     = (Ret St_has_cover, st2)
     ∧ Gui.outcome_of_status St_has_cover = Skipped "already has cover"
     ∧ fs st2 = fs (Gui.process_single_video cfg e vp mode value None st).2)
  ∧ (Cli.outcomes (drop (length (stdout st)) (stdout (Cli.process_video e vp st).2))
     = [Success] →
     ∃ st2 out,
       Cli.process_video e2 vp (Cli.process_video e vp st).2 = (Ret tt, st2)
       ∧ stdout st2 = stdout (Cli.process_video e vp st).2 ++ out
       ∧ Cli.outcomes out = [Skipped "already has cover"]
       ∧ fs st2 = fs (Cli.process_video e vp st).2).
Proof.
  intros Hprobe. split.
  - intros Hs Hover.
    destruct (gui_process_single_video_spec _ _ _ _ _ _ _ _ _
                (run_pair (Gui.process_single_video cfg e vp mode value None) st))
      as (s & Hs' & Hrun).
    rewrite Hs in Hs'. injection Hs' as <-.
    destruct (gui_run_facts _ _ _ _ _ _ _ _ _ Hrun eq_refl) as (tr & _ & _ & _ & _ & Hsucc).
    destruct (Hsucc eq_refl) as (c & px & _ & _ & Hvid & Hfin).
    set (st1 := (Gui.process_single_video cfg e vp mode value None st).2) in *.
    assert (Hseen : gui_seen_cover cfg2 e2 (fs st1) vp = true).
    { unfold gui_seen_cover, probed_cover. rewrite Hover, Hprobe, Hfin. simpl.
      by apply gui_remuxed_flagged. }
    destruct (gui_process_single_video_spec _ _ _ _ _ _ _ _ _
                (run_pair (Gui.process_single_video cfg2 e2 vp mode2 value2 out_dir2) st1))
      as (s2 & Hs2 & Hrun2).
    rewrite (run_pair (Gui.process_single_video cfg2 e2 vp mode2 value2 out_dir2) st1), Hs2.
    destruct Hrun2 as [_ -> Hst|? _ _ _|? _ _ _ _ _|? _ _ _]; try congruence.
    eexists. split; [done|]. split; [done|]. by rewrite Hst.
  - intros Hs.
    destruct (cli_process_video_spec _ _ _ _ _ (run_pair (Cli.process_video e vp) st))
      as [_ Hrun].
    destruct (cli_run_facts _ _ _ _ Hrun) as (tr & out & o & _ & Hout & Ho & _ & _ & _ & Hsucc).
    rewrite Hout, drop_app_length in Hs.
    destruct Hsucc as (c & px & v & _ & _ & _ & Hfin); [congruence|].
    set (st1 := (Cli.process_video e vp st).2) in *.
    assert (Hseen : probed_cover (probe_streams_fault e2) (fs st1) vp = true).
    { unfold probed_cover. rewrite Hprobe, Hfin. simpl. apply cli_remuxed_flagged. }
    destruct (cli_process_video_spec _ _ _ _ _ (run_pair (Cli.process_video e2 vp) st1))
      as [Hr Hrun2].
    rewrite (run_pair (Cli.process_video e2 vp) st1), Hr.
    destruct Hrun2 as [_ Hst|? _ _|? _ _]; try congruence.
    eexists. eexists. split; [done|]. rewrite Hst. simpl. split; [done|]. done.
Qed.

Lemma second_run_in_place_is_skipped_witness :
  ∃ st2,
    Gui.process_single_video ex_cfg ex_env ex_path "time" (inject_Z 20) None
      (Gui.process_single_video ex_cfg ex_env ex_path "time" (inject_Z 20) None
         (init_state ex_files)).2
    = (Ret St_has_cover, st2)
    ∧ Gui.outcome_of_status St_has_cover = Skipped "already has cover"
    ∧ fs st2 = fs (Gui.process_single_video ex_cfg ex_env ex_path "time" (inject_Z 20) None
                     (init_state ex_files)).2.
Proof.
  apply (proj1 (second_run_in_place_is_skipped ex_cfg ex_cfg ex_env ex_env ex_path
                  "time" "time" (inject_Z 20) (inject_Z 20) None (init_state ex_files)
                  eq_refl)).
  - vm_compute. reflexivity.
  - reflexivity.
Defined.

(** C5, as stated, fails.  When the result is saved to another directory the
    file processed gets no cover, and a second run on it ends in success
    again.  In place, a second run whose stream probe exits non-zero also ends
    in success, and the file then holds two pictures. *)
Lemma second_run_can_embed_again :
  (Gui.process_single_video ex_cfg_copy ex_env ex_path "time" (inject_Z 20) (Some "/out")
     (init_state ex_files)).1 = Ret St_embedded
  ∧ (Gui.process_single_video ex_cfg_copy ex_env ex_path "time" (inject_Z 20) (Some "/out")
       (Gui.process_single_video ex_cfg_copy ex_env ex_path "time" (inject_Z 20) (Some "/out")
          (init_state ex_files)).2).1 = Ret St_embedded
  ∧ (Gui.process_single_video ex_cfg ex_env ex_path "time" (inject_Z 20) None
       (init_state ex_files)).1 = Ret St_embedded
  ∧ (Gui.process_single_video ex_cfg env_stream_probe_exits ex_path "time" (inject_Z 20) None
       (Gui.process_single_video ex_cfg ex_env ex_path "time" (inject_Z 20) None
          (init_state ex_files)).2).1 = Ret St_embedded.
Proof. vm_compute. repeat split. Qed.

(** C6 (the worker leaves a file behind).  In [process_single_video] the two
    temporary files are created by one [with] statement, and the names are
    stored only in its body.  When the first file has been created and the
    creation of the second raises, [temp_cover] is still empty, the [finally]
    block removes nothing, and the first file stays. *)
Theorem worker_leaves_the_cover_file (cfg : Gui.config) (e : env)
    (vp mode : string) (value : Q) (out_dir : option string) (st : state)
    (tc : string) (ex : exn) :
  gui_seen_cover cfg e (fs st) vp = false →
  ¬ (probed_duration (probe_format_fault e) (fs st) vp == 0)%Q →
  (mode = "time" → (value <= probed_duration (probe_format_fault e) (fs st) vp)%Q) →
  first_fresh (fs st) (tmpdir e) ".jpg" (tmp_names e) = Ret tc →
  first_fresh (<[tc := Bytes ""]> (fs st)) (tmpdir e) (splitext vp).2 (tmp_names e)
    = Raise ex →
  ∃ st',
    Gui.process_single_video cfg e vp mode value out_dir st = (Ret (failure_status ex), st')
    ∧ fs st !! tc = None
    ∧ fs st' = <[tc := Bytes ""]> (fs st)
    ∧ trace st' = trace st ++ gui_probes cfg vp ++ [Eff_mktemp tc].
Proof.
  intros Hcov Hnz%Qeq_bool_false Hlong Hfresh Hfresh2.
  destruct (gui_process_single_video_spec _ _ _ _ _ _ _ _ _
              (run_pair (Gui.process_single_video cfg e vp mode value out_dir) st))
    as (s & Hs & Hrun).
  rewrite (run_pair (Gui.process_single_video cfg e vp mode value out_dir) st), Hs.
  destruct Hrun as [?|_ ? _ _|_ _ Hm Hshort _ _|_ _ _ Htry]; try congruence.
  { apply Qlt_bool_true in Hshort. specialize (Hlong Hm). by apply Qle_not_lt in Hlong. }
  simpl in Htry.
  destruct Htry as [ex' Hno _ _|tc' ex' Hf Htc _ Hf2 -> ->
                   |tc' to en ft Hf _ _ Hf2 _ _ _ _ _]; simpl in *.
  - congruence.
  - rewrite Hfresh in Hf. injection Hf as <-. rewrite Hfresh2 in Hf2. injection Hf2 as <-.
    eexists. split; [done|]. simpl. split; [done|]. split; [done|].
    by rewrite <- app_assoc.
  - rewrite Hfresh in Hf. injection Hf as <-. congruence.
Qed.

Lemma worker_leaves_the_cover_file_witness :
  ∃ st',
    Gui.process_single_video ex_cfg ex_env ex_long_path "time" (inject_Z 20) None
      (init_state ex_long_files) = (Ret (St_unknown OSError), st')
    ∧ fs (init_state ex_long_files) !! "/tmp/tmpr1.jpg" = None
    ∧ fs st' = <["/tmp/tmpr1.jpg" := Bytes ""]> (fs (init_state ex_long_files))
    ∧ trace st' = trace (init_state ex_long_files)
                  ++ gui_probes ex_cfg ex_long_path ++ [Eff_mktemp "/tmp/tmpr1.jpg"].
Proof.
  apply (worker_leaves_the_cover_file ex_cfg ex_env ex_long_path "time" (inject_Z 20) None
           (init_state ex_long_files) "/tmp/tmpr1.jpg" OSError).
  - vm_compute. reflexivity.
  - vm_compute. discriminate.
  - intros _. vm_compute. discriminate.
  - vm_compute. reflexivity.
  - vm_compute. reflexivity.
Defined.

Lemma percent_spin_range v :
  (0 < Gui.percent_spin_value v)%Q ∧ (Gui.percent_spin_value v < 100)%Q.
Proof.
  unfold Gui.percent_spin_value, Gui.clampQ.
  destruct (Qlt_bool v (1 # 10)) eqn:Hlo; [split; reflexivity|].
  destruct (Qlt_bool (999 # 10) v) eqn:Hhi; [split; reflexivity|].
  apply Qlt_bool_false in Hlo, Hhi. split.
  - eapply Qlt_le_trans; [|exact Hlo]. reflexivity.
  - eapply Qle_lt_trans; [exact Hhi|]. reflexivity.
Qed.

Lemma time_spin_range v : (1 <= Gui.time_spin_value v <= 7200)%Z.
Proof.
  unfold Gui.time_spin_value, Gui.clampZ.
  destruct (Z.ltb_spec v 1); [lia|]. destruct (Z.ltb_spec 7200 v); lia.
Qed.






(** ** The console script, start to end *)

Lemma wp_process_video e vp st :
  wp (Cli.process_video e vp) st (fun r _ => r = Ret tt).
Proof. intros r st' H. by apply cli_process_video_spec in H as [-> _]. Qed.

Lemma wp_for_each {A} (l : list A) (body : A → M unit) st :
  (∀ x st, wp (body x) st (fun r _ => r = Ret tt)) →
  wp (for_each l body) st (fun r _ => r = Ret tt).
Proof.
  intros Hbody. revert st. induction l as [|x l IH]; intros st; simpl.
  - by apply wp_ret.
  - apply wp_bind. eapply wp_mono; [apply Hbody|]. intros r st' ->. apply IH.
Qed.

Lemma last_emit l st : last (stdout (emit l st)) = Some l.
Proof. simpl. apply last_snoc. Qed.

(** [main] returns; when it goes on to the files, the last line it prints is
    the one that says all is done. *)
Lemma wp_main c st :
  wp (Cli.main c) st (fun r st' =>
    r = Ret tt ∧ (proceeds c st = true → last (stdout st') = Some L_all_done)).
Proof.
  unfold Cli.main, Cli.is_file, proceeds.
  apply wp_bind, wp_bind, wp_get, wp_ret.
  destruct (bool_decide (is_Some (fs st !! Cli.typed_path c))) eqn:Hfile;
    destruct (Cli.is_dir c (Cli.typed_path c)) eqn:Hdir; simpl.
  all: try (apply wp_print; split; [done|]; by intros ?).
  all: apply wp_bind, wp_print.
  all: destruct (bool_decide (Cli.typed_confirm c ∈ ["y"; "yes"])) eqn:Hyes; simpl.
  all: try (apply wp_print; split; [done|]; by intros ?).
  all: apply wp_bind.
  all: match goal with
       | |- wp ?m ?s _ =>
           apply (wp_mono m s (fun r _ => r = Ret tt));
             [|intros r st' ->; apply wp_print; split; [done|]; intros _; apply last_emit]
       end.
  - case_match; [apply wp_process_video|by apply wp_print].
  - case_match; [apply wp_process_video|by apply wp_print].
  - apply wp_bind, wp_print. apply wp_for_each. intros [dirpath filenames] st1.
    apply wp_for_each. intros filename st2.
    case_match; [apply wp_process_video|by apply wp_ret].
Qed.

Lemma check_ffmpeg_run how st :
  Cli.check_ffmpeg how st
  = match how with
    | ToolRuns => (Ret tt, st)
    | _ => (Raise (NameError "sys"),
            emit L_download_hint (emit (L_tool_missing "ffmpeg") st))
    end.
Proof. by destruct how. Qed.




(** ** Which files a run leaves *)

Lemma cli_run_dom e vp st st' :
  cli_run e vp st st' → dom (fs st') ⊆ dom (fs st).
Proof.
  intros [_ ->|_ _ ->|_ Hlong Htry]; simpl; [done..|].
  apply Qlt_bool_false in Hlong.
  destruct (probed_duration_media (probe_format_fault e) (fs st) vp) as (c & Hvp & _).
  { intros H0. rewrite H0 in Hlong. by vm_compute in Hlong. }
  destruct Htry as [ex _ ->|tc en ft _ Htc Htc0 to Hrun ->]; simpl in *; [done|].
  intros q Hq%elem_of_dom. apply elem_of_dom.
  eapply core_run_dom in Hq as [->|(Hq & Hne & _)]; [| |exact Hrun|done| |by left].
  - by rewrite Hvp.
  - by rewrite lookup_insert_ne in Hq.
  - apply temp_video_nonempty.
Qed.

Lemma gui_run_dom cfg e vp mode value out_dir st s st' :
  gui_run cfg e vp mode value out_dir st s st' →
  dom (fs st') ⊆ dom (fs st) ∪ {[ Gui.final_path vp out_dir ]} ∪ left_behind e vp (fs st).
Proof.
  intros [_ _ ->|_ _ _ ->|_ _ _ _ _ ->|_ _ _ Htry]; simpl; [set_solver..|].
  unfold left_behind.
  destruct Htry as [ex _ _ ->|tc ex Hf _ _ Hf2 _ ->
                   |tc to en ft Hf _ Htc0 Hf2 Hto Hto0 Hrun _ ->]; simpl in *.
  - set_solver.
  - rewrite Hf, Hf2, dom_insert. intros q [Hq|Hq]%elem_of_union.
    + by apply elem_of_union_r.
    + by apply elem_of_union_l, elem_of_union_l.
  - rewrite Hf, Hf2.
    intros q Hq%elem_of_dom.
    eapply core_run_dom in Hq as [->|(Hq & Hne & Hne2)]; [| |exact Hrun|done|done|by right].
    + set_solver.
    + specialize (Hne2 eq_refl). rewrite !lookup_insert_ne in Hq by done.
      apply elem_of_dom in Hq. set_solver.
Qed.

(** The console script leaves none of the files it creates: after a run,
    every file there is was there before. *)
Theorem console_script_leaves_no_file (e : env) (vp : string) (st : state) :
  dom (fs (Cli.process_video e vp st).2) ⊆ dom (fs st).
Proof.
  destruct (cli_process_video_spec _ _ _ _ _ (run_pair (Cli.process_video e vp) st))
    as [_ Hrun].
  by apply cli_run_dom in Hrun.
Qed.

(** The worker leaves, of the files it creates, the rebuilt file at its
    destination, and the cover file in the one case above. *)
Theorem worker_leaves_only_destination_and_leak (cfg : Gui.config) (e : env)
    (vp mode : string) (value : Q) (out_dir : option string) (st : state) :
  dom (fs (Gui.process_single_video cfg e vp mode value out_dir st).2)
  ⊆ dom (fs st) ∪ {[ Gui.final_path vp out_dir ]} ∪ left_behind e vp (fs st).
Proof.
  destruct (gui_process_single_video_spec _ _ _ _ _ _ _ _ _
              (run_pair (Gui.process_single_video cfg e vp mode value out_dir) st))
    as (s & _ & Hrun).
  by apply gui_run_dom in Hrun.
Qed.

(** * More of what the code does *)

(** ** The console script and the name of its temporary output *)

Lemma failure_log_not_step ex n : L_step n ≠ failure_log ex.
Proof. by destruct ex. Qed.

Ltac step_among H :=
  repeat (apply elem_of_cons in H as [H|H];
          [first [discriminate H|by apply failure_log_not_step in H|idtac]|]);
  try (by apply elem_of_nil in H).

Lemma cli_lines_step2 f en :
  L_step 2 ∈ cli_lines f en →
  match en with
  | End_extract_raised _ | End_no_picture => False
  | _ => True
  end.
Proof. destruct en as [ex| | | | |]; simpl; try done; intros H; step_among H. Qed.

Lemma cli_run_temp_video e vp st st' :
  cli_run e vp st st' →
  L_step 2 ∈ drop (length (stdout st)) (stdout st') →
  fs st' !! ((splitext vp).1 +:+ ".temp_video" +:+ (splitext vp).2) = None.
Proof.
  intros [_ ->|_ _ ->|_ _ Htry]; simpl.
  - rewrite drop_app_length. intros H. step_among H.
  - rewrite drop_app_length. intros H. step_among H.
  - destruct Htry as [ex _ ->|tc en ft _ _ _ to Hrun ->]; simpl.
    + rewrite <- app_assoc, drop_app_length. simpl. intros H. step_among H.
    + rewrite <- app_assoc, drop_app_length. simpl. intros H.
      do 3 (apply elem_of_cons in H as [H|H]; [discriminate H|]).
      apply elem_of_app in H as [H|H]; [|step_among H].
      apply cli_lines_step2 in H.
      destruct Hrun; try done; apply rm_lookup_eq, temp_video_nonempty.
Qed.

(** A run of the console script that gets to its second step leaves nothing
    at [<root>.temp_video<ext>], whether the run succeeds or not, and whether
    or not a file of that name was there before. *)
Theorem console_script_clears_the_temp_video_path (e : env) (vp : string) (st : state) :
  L_step 2 ∈ drop (length (stdout st)) (stdout (Cli.process_video e vp st).2) →
  fs (Cli.process_video e vp st).2
    !! ((splitext vp).1 +:+ ".temp_video" +:+ (splitext vp).2) = None.
Proof.
  destruct (cli_process_video_spec _ _ _ _ _ (run_pair (Cli.process_video e vp) st))
    as [_ Hrun].
  by apply (cli_run_temp_video e).
Qed.

Lemma console_script_clears_the_temp_video_path_witness :
  fs (init_state ex_files_with_namesake) !! "/v/a.temp_video.mp4" = Some (Bytes "mine")
  ∧ Cli.outcomes (stdout (Cli.process_video env_mux_exits ex_path
                            (init_state ex_files_with_namesake)).2)
    = [Failed "processing failed"]
  ∧ fs (Cli.process_video env_mux_exits ex_path (init_state ex_files_with_namesake)).2
      !! "/v/a.temp_video.mp4" = None.
Proof.
  split; [reflexivity|]. split; [vm_compute; reflexivity|].
  apply (console_script_clears_the_temp_video_path env_mux_exits ex_path
           (init_state ex_files_with_namesake)).
  vm_compute. do 5 right. left.
Defined.

(** ** The worker with a destination that is not the original *)

Lemma rm_untargeted vp p ft :
  p = "" ∨ p ≠ vp →
  Forall (fun eff => vp ∉ targets eff) ft.2 →
  Forall (fun eff => vp ∉ targets eff) (rm p ft).2.
Proof.
  intros [->|Hp] H; [by rewrite rm_empty|].
  destruct (rm_calls p ft) as [->|[_ ->]]; [done|].
  apply Forall_app. split; [done|]. constructor; [|done].
  simpl. rewrite list_elem_of_singleton. by intros ->.
Qed.

Lemma core_run_untouched e vp dest tc to to_early ss si input vf ins maps codecs pics
    fs1 en ft :
  core_run e dest tc to to_early (GrabFrame ss si input vf tc)
           (Remux ins maps codecs pics to) fs1 en ft →
  tc ≠ vp → to ≠ vp → to_early = "" ∨ to_early ≠ vp → dest ≠ vp →
  ft.1 !! vp = fs1 !! vp ∧ Forall (fun eff => vp ∉ targets eff) ft.2.
Proof.
  intros Hrun Htc Hto Hearly Hdest.
  assert (Hvtc : tc = "" ∨ vp ≠ tc) by (right; congruence).
  assert (Hvto : to = "" ∨ vp ≠ to) by (right; congruence).
  assert (Hve : to_early = "" ∨ vp ≠ to_early) by (destruct Hearly; [left|right]; congruence).
  destruct Hrun; (split;
    [ rewrite !rm_lookup_ne by done; simpl;
      rewrite ?lookup_insert_ne, ?lookup_delete_ne by done;
      by rewrite ?write_at_ne by done
    | do 2 (apply rm_untargeted; [by auto|]); simpl;
      repeat (constructor;
              [simpl; rewrite ?elem_of_cons, elem_of_nil; intros [?|[?|?]] || intros [?|?];
               congruence|]);
      constructor ]).
Qed.

Lemma gui_run_untouched cfg e vp mode value out_dir st s st' :
  gui_run cfg e vp mode value out_dir st s st' →
  Gui.final_path vp out_dir ≠ vp →
  fs st' !! vp = fs st !! vp
  ∧ ∃ tr, trace st' = trace st ++ tr ∧ Forall (fun eff => vp ∉ targets eff) tr.
Proof.
  intros [_ _ ->|_ _ _ ->|_ _ _ _ _ ->|_ Hzero _ Htry] Hdest; simpl.
  - split; [done|]. eexists. split; [done|]. repeat constructor. by intros ?%elem_of_nil.
  - split; [done|]. eexists. split; [done|].
    eapply Forall_impl; [apply gui_probes_are_probes|]. intros ? [p ->]. by intros ?%elem_of_nil.
  - split; [done|]. eexists. split; [done|].
    eapply Forall_impl; [apply gui_probes_are_probes|]. intros ? [p ->]. by intros ?%elem_of_nil.
  - apply Qeq_bool_false in Hzero.
    destruct (probed_duration_media (probe_format_fault e) (fs st) vp Hzero) as (c & Hvp & _).
    assert (Hprobes : Forall (fun eff => vp ∉ targets eff) (gui_probes cfg vp)).
    { eapply Forall_impl; [apply gui_probes_are_probes|].
      intros ? [p ->]. by intros ?%elem_of_nil. }
    destruct Htry as [ex _ _ ->|tc ex _ Htc _ _ _ ->
                     |tc to en ft _ Htc _ _ Hto _ Hrun _ ->]; simpl in *.
    + split; [done|]. exists (gui_probes cfg vp). done.
    + assert (Hne : tc ≠ vp) by (intros ->; congruence).
      split; [by rewrite lookup_insert_ne|].
      exists (gui_probes cfg vp ++ [Eff_mktemp tc]). split; [by rewrite <- app_assoc|].
      apply Forall_app. split; [done|]. constructor; [|done].
      simpl. rewrite list_elem_of_singleton. by intros ->.
    + assert (Hne : tc ≠ vp) by (intros ->; congruence).
      assert (Hne2 : to ≠ vp).
      { intros ->. rewrite lookup_insert_ne in Hto by done. congruence. }
      unfold Gui.ffmpeg_extract_cmd, Gui.ffmpeg_embed_cmd in Hrun.
      destruct (core_run_untouched _ vp _ _ _ _ _ _ _ _ _ _ _ _ _ _ _ Hrun Hne Hne2
                  (or_intror Hne2) Hdest) as [Hfs Htr].
      split; [by rewrite Hfs, !lookup_insert_ne|].
      exists (gui_probes cfg vp ++ Eff_mktemp tc :: Eff_mktemp to :: ft.2).
      split; [by rewrite <- app_assoc|].
      apply Forall_app. split; [done|].
      constructor; [simpl; rewrite list_elem_of_singleton; by intros ->|].
      constructor; [simpl; rewrite list_elem_of_singleton; by intros ->|done].
Qed.

(** When the rebuilt file goes to another path than the original, the worker
    leaves the original as it is in every outcome, and no call it makes has
    the original as its target. *)
Theorem worker_saving_elsewhere_leaves_the_original (cfg : Gui.config) (e : env)
    (vp mode : string) (value : Q) (out_dir : option string) (st : state) :
  Gui.final_path vp out_dir ≠ vp →
  fs (Gui.process_single_video cfg e vp mode value out_dir st).2 !! vp = fs st !! vp
  ∧ ∃ tr, trace (Gui.process_single_video cfg e vp mode value out_dir st).2 = trace st ++ tr
          ∧ Forall (fun eff => vp ∉ targets eff) tr.
Proof.
  intros Hdest.
  destruct (gui_process_single_video_spec _ _ _ _ _ _ _ _ _
              (run_pair (Gui.process_single_video cfg e vp mode value out_dir) st))
    as (s & _ & Hrun).
  by apply (gui_run_untouched _ _ _ _ _ _ _ _ _ Hrun).
Qed.

Lemma worker_saving_elsewhere_leaves_the_original_witness :
  (Gui.process_single_video ex_cfg_copy ex_env ex_path "time" (inject_Z 20) (Some "/out")
     (init_state ex_files)).1 = Ret St_embedded
  ∧ fs (Gui.process_single_video ex_cfg_copy ex_env ex_path "time" (inject_Z 20) (Some "/out")
          (init_state ex_files)).2 !! ex_path = Some (Media ex_video).
Proof.
  split; [vm_compute; reflexivity|].
  assert (Hdest : Gui.final_path ex_path (Some "/out") ≠ ex_path)
    by (vm_compute; discriminate).
  rewrite (proj1 (worker_saving_elsewhere_leaves_the_original ex_cfg_copy ex_env ex_path
                    "time" (inject_Z 20) (Some "/out") (init_state ex_files) Hdest)).
  reflexivity.
Defined.

(** ** The worker on a file that has two video streams or more *)

Lemma count_video_cons s l :
  count_video (s :: l) = ((if is_video s then 1 else 0) + count_video l)%nat.
Proof.
  unfold count_video. rewrite filter_cons.
  destruct (decide (is_video s = true)) as [E|E].
  - by rewrite E.
  - apply not_true_is_false in E. by rewrite E.
Qed.

Lemma retag_video_app (f : stream → stream) k seen l r :
  retag id (OfType SelV k) f seen (l ++ r)
  = retag id (OfType SelV k) f seen l
    ++ retag id (OfType SelV k) f (seen + count_video l) r.
Proof.
  revert seen. induction l as [|s l IH]; intros seen; simpl.
  - unfold count_video. simpl. by rewrite Nat.add_0_r.
  - rewrite IH, count_video_cons. unfold next_seen; simpl.
    destruct (is_video s); simpl; [|done].
    by replace (seen + S (count_video l))%nat with (S seen + count_video l)%nat by lia.
Qed.

Lemma set_attached_pic_flagged s : is_attached_pic s = true → set_attached_pic s = s.
Proof.
  destruct s as [[[|]| | |] codec data]; unfold is_attached_pic, set_attached_pic; simpl;
    done.
Qed.

Lemma retag_keeps_flagged spec seen l s :
  s ∈ l → is_attached_pic s = true → s ∈ retag id spec set_attached_pic seen l.
Proof.
  intros Hin Hs. revert seen. induction Hin as [s l|s x l _ IH]; intros seen; simpl.
  - unfold id. destruct (spec_hits spec seen s).
    + rewrite set_attached_pic_flagged by done. apply list_elem_of_here.
    + apply list_elem_of_here.
  - apply list_elem_of_further, IH, Hs.
Qed.

(** With two video streams or more in the original, the picture the worker
    adds is not the stream that gets the flag. *)
Lemma gui_remuxed_many_videos l px :
  (2 ≤ count_video l)%nat →
  gui_remuxed l px
  = retag id (OfType SelV (Some 1%nat)) set_attached_pic 0 l ++ [cover_stream px].
Proof.
  intros Hl. unfold gui_remuxed. rewrite retag_video_app. f_equal. simpl.
  rewrite (proj2 (Nat.eqb_neq (count_video l) 1)) by lia. done.
Qed.

(** A run of the worker that ends in success on a file with two video
    streams or more (a file that has a cover already, processed with covers
    to be overwritten, is one) appends the new picture as a video stream
    that is not flagged as attached picture; the streams of the original
    keep their data, and those that were flagged are in the result as they
    were. *)
Theorem worker_appends_unflagged_picture (cfg : Gui.config) (e : env)
    (vp mode : string) (value : Q) (st : state) (c : container) :
  fs st !! vp = Some (Media c) →
  (2 ≤ count_video (streams c))%nat →
  (Gui.process_single_video cfg e vp mode value None st).1 = Ret St_embedded →
  ∃ px l',
    decoded_frame e = Some px
    ∧ fs (Gui.process_single_video cfg e vp mode value None st).2 !! vp
      = Some (Media (Container (l' ++ [Stream (Video false) "mjpeg" (Stored px)])
                               (fmt_duration c)))
    ∧ map s_data l' = map s_data (streams c)
    ∧ map s_codec l' = map s_codec (streams c)
    ∧ ∀ s, s ∈ streams c → is_attached_pic s = true → s ∈ l'.
Proof.
  intros Hvp Hmany Hs.
  destruct (gui_process_single_video_spec _ _ _ _ _ _ _ _ _
              (run_pair (Gui.process_single_video cfg e vp mode value None) st))
    as (s & Hs' & Hrun).
  rewrite Hs in Hs'. injection Hs' as <-.
  destruct (gui_run_facts _ _ _ _ _ _ _ _ _ Hrun eq_refl) as (tr & _ & _ & _ & _ & Hsucc).
  destruct (Hsucc eq_refl) as (c' & px & Hc' & Hpx & Hvid & Hfin).
  rewrite Hvp in Hc'. injection Hc' as <-.
  exists px, (retag id (OfType SelV (Some 1%nat)) set_attached_pic 0 (streams c)).
  split; [done|]. split; [by rewrite Hfin, gui_remuxed_many_videos|].
  destruct (retag_attached_data (OfType SelV (Some 1%nat)) 0 (streams c)) as (? & ? & _).
  split; [done|]. split; [done|].
  intros s0 Hin Hflag. by apply retag_keeps_flagged.
Qed.

Lemma worker_appends_unflagged_picture_witness :
  fs (Gui.process_single_video (overwriting ex_cfg) ex_env ex_path "time" (inject_Z 20) None
        (init_state ex_files_covered)).2 !! ex_path
  = Some (Media (Container
      [ Stream (Video false) "h264" (Stored "V");
        Stream Audio "aac" (Stored "A");
        Stream (Video true) "mjpeg" (Stored "OLD");
        Stream (Video false) "mjpeg" (Stored "PIX") ]
      (Some (inject_Z 60)))).
Proof.
  destruct (worker_appends_unflagged_picture (overwriting ex_cfg) ex_env ex_path "time"
              (inject_Z 20) (init_state ex_files_covered)
              (Container ex_covered_streams (Some (inject_Z 60))))
    as (px & l' & _ & _ & _ & _ & _).
  - reflexivity.
  - vm_compute. lia.
  - vm_compute. reflexivity.
  - vm_compute. reflexivity.
Defined.

(** ** Both scripts without ffprobe *)

Lemma probed_cover_fails how files vp : how ≠ ProbeRuns → probed_cover how files vp = false.
Proof. by destruct how. Qed.

Lemma probed_duration_fails how files vp : how ≠ ProbeRuns → probed_duration how files vp = 0%Q.
Proof. by destruct how. Qed.

(** The start-up check of the console script runs ffmpeg only.  With ffmpeg
    answering and ffprobe failing at each call, the console script reports
    the file as shorter than 20 seconds, with a duration of zero, and the
    worker reports that the duration is not available; neither changes a
    file, and neither calls ffmpeg. *)
Theorem without_ffprobe_nothing_is_processed (cfg : Gui.config) (e : env)
    (vp mode : string) (value : Q) (out_dir : option string) (st : state) :
  probe_streams_fault e ≠ ProbeRuns → probe_format_fault e ≠ ProbeRuns →
  Cli.check_ffmpeg ToolRuns st = (Ret tt, st)
  ∧ (∃ st',
       Cli.process_video e vp st = (Ret tt, st')
       ∧ fs st' = fs st
       ∧ stdout st' = stdout st ++ [L_start (basename vp); L_checking_cover; L_no_cover;
                                    L_skip_short 0]
       ∧ trace st' = trace st ++ [Eff_probe vp; Eff_probe vp])
  ∧ (∃ st',
       Gui.process_single_video cfg e vp mode value out_dir st = (Ret St_no_duration, st')
       ∧ fs st' = fs st
       ∧ trace st' = trace st ++ gui_probes cfg vp).
Proof.
  intros Hs Hf. split; [done|]. split.
  - destruct (cli_process_video_spec _ _ _ _ _ (run_pair (Cli.process_video e vp) st))
      as [Hr Hrun].
    rewrite (run_pair (Cli.process_video e vp) st), Hr.
    destruct Hrun as [Hcov _|_ _ Hst|_ Hlong _].
    + by rewrite probed_cover_fails in Hcov.
    + eexists. split; [done|]. rewrite Hst. simpl.
      by rewrite probed_duration_fails.
    + by rewrite probed_duration_fails in Hlong.
  - destruct (gui_process_single_video_spec _ _ _ _ _ _ _ _ _
                (run_pair (Gui.process_single_video cfg e vp mode value out_dir) st))
      as (s & Hr & Hrun).
    rewrite (run_pair (Gui.process_single_video cfg e vp mode value out_dir) st), Hr.
    destruct Hrun as [Hcov _ _|_ _ -> Hst|_ Hz _ _ _ _|_ Hz _ _].
    + unfold gui_seen_cover in Hcov. rewrite probed_cover_fails, andb_false_r in Hcov by done.
      done.
    + eexists. split; [done|]. by rewrite Hst.
    + by rewrite probed_duration_fails in Hz.
    + by rewrite probed_duration_fails in Hz.
Qed.

Lemma without_ffprobe_nothing_is_processed_witness :
  ∃ st',
    Cli.process_video env_no_ffprobe ex_path (init_state ex_files) = (Ret tt, st')
    ∧ fs st' = fs (init_state ex_files)
    ∧ stdout st' = stdout (init_state ex_files)
                   ++ [L_start (basename ex_path); L_checking_cover; L_no_cover;
                       L_skip_short 0]
    ∧ trace st' = trace (init_state ex_files) ++ [Eff_probe ex_path; Eff_probe ex_path].
Proof.
  assert (Hs : probe_streams_fault env_no_ffprobe ≠ ProbeRuns) by discriminate.
  assert (Hf : probe_format_fault env_no_ffprobe ≠ ProbeRuns) by discriminate.
  exact (proj1 (proj2 (without_ffprobe_nothing_is_processed ex_cfg env_no_ffprobe ex_path
                         "time" (inject_Z 20) None (init_state ex_files) Hs Hf))).
Defined.

(** ** [main] of the console script *)



Lemma rm_probes p ft q : Eff_probe q ∈ (rm p ft).2 → Eff_probe q ∈ ft.2.
Proof.
  destruct (rm_calls p ft) as [->|[_ ->]]; [done|].
  intros [H|H]%elem_of_app; [done|]. by apply list_elem_of_singleton in H.
Qed.

Lemma core_run_no_probe e dest tc to to_early cmd_x cmd_m fs1 en ft q :
  core_run e dest tc to to_early cmd_x cmd_m fs1 en ft → Eff_probe q ∉ ft.2.
Proof.
  intros Hrun Hq. destruct Hrun; do 2 apply rm_probes in Hq; simpl in Hq;
    repeat (apply elem_of_cons in Hq as [Hq|Hq]; [discriminate Hq|]);
    by apply elem_of_nil in Hq.
Qed.

(** [process_video] probes no path but its own. *)
Lemma cli_run_probes e vp st st' :
  cli_run e vp st st' →
  ∃ tr, trace st' = trace st ++ tr ∧ ∀ q, Eff_probe q ∈ tr → q = vp.
Proof.
  intros [_ ->|_ _ ->|_ _ Htry]; simpl.
  - eexists. split; [done|]. intros q Hq. apply list_elem_of_singleton in Hq. congruence.
  - eexists. split; [done|]. intros q Hq.
    repeat (apply elem_of_cons in Hq as [Hq|Hq]; [congruence|]). by apply elem_of_nil in Hq.
  - destruct Htry as [ex _ ->|tc en ft _ _ _ to Hrun ->]; simpl.
    + eexists. split; [done|]. intros q Hq.
      repeat (apply elem_of_cons in Hq as [Hq|Hq]; [congruence|]). by apply elem_of_nil in Hq.
    + exists ([Eff_probe vp; Eff_probe vp] ++ Eff_mktemp tc :: ft.2).
      split; [by rewrite <- app_assoc|]. intros q Hq.
      do 2 (apply elem_of_cons in Hq as [Hq|Hq]; [congruence|]).
      apply elem_of_cons in Hq as [Hq|Hq]; [discriminate Hq|].
      by eapply core_run_no_probe in Hq.
Qed.

(** Probes made since the trace was [tr0], all of paths that satisfy [good]. *)
Lemma wp_process_video_probes (good : string → Prop) tr0 e vp st :
  good vp →
  (∃ tr, trace st = tr0 ++ tr ∧ ∀ q, Eff_probe q ∈ tr → good q) →
  wp (Cli.process_video e vp) st (fun r st' =>
    r = Ret tt ∧ ∃ tr, trace st' = tr0 ++ tr ∧ ∀ q, Eff_probe q ∈ tr → good q).
Proof.
  intros Hvp (tr & Htr & Hgood) r st' Hrun.
  apply cli_process_video_spec in Hrun as [-> Hrun]. split; [done|].
  apply cli_run_probes in Hrun as (tr' & Htr' & Hvp').
  exists (tr ++ tr'). split; [by rewrite Htr', Htr, <- app_assoc|].
  intros q [Hq|Hq]%elem_of_app; [by apply Hgood|]. by rewrite (Hvp' q Hq).
Qed.

Lemma wp_for_each_keeps {A} (I : state → Prop) (l : list A) (body : A → M unit) st :
  I st →
  (∀ x st, x ∈ l → I st → wp (body x) st (fun r st' => r = Ret tt ∧ I st')) →
  wp (for_each l body) st (fun r st' => r = Ret tt ∧ I st').
Proof.
  revert st. induction l as [|x l IH]; intros st HI Hbody; simpl.
  - by apply wp_ret.
  - apply wp_bind. eapply wp_mono; [apply Hbody; [by left|done]|].
    intros r st' [-> HI']. apply IH; [done|].
    intros y st'' Hy. apply Hbody. by right.
Qed.

Lemma wp_print_keeps (I : state → Prop) l st :
  I (emit l st) → wp (print l) st (fun r st' => r = Ret tt ∧ I st').
Proof. intros HI. by apply wp_print. Qed.



(** ** The counter of workers and the end of a batch *)

Lemma remove_first_length w l :
  w ∈ l → length l = S (length (MainApp.remove_first w l)).
Proof. intros H. by rewrite (remove_first_perm w l H) at 1. Qed.

Lemma pool_start_length w p :
  (length (MainApp.active (MainApp.pool_start w p))
   + length (MainApp.queue (MainApp.pool_start w p))
   = S (length (MainApp.active p) + length (MainApp.queue p)))%nat.
Proof.
  unfold MainApp.pool_start. case_match; simpl; rewrite length_app; simpl; lia.
Qed.

Lemma pool_start_all_length l p :
  (length (MainApp.active (fold_left (fun p w => MainApp.pool_start w p) l p))
   + length (MainApp.queue (fold_left (fun p w => MainApp.pool_start w p) l p))
   = length l + (length (MainApp.active p) + length (MainApp.queue p)))%nat.
Proof.
  revert p. induction l as [|w l IH]; intros p; simpl; [done|].
  rewrite IH, pool_start_length. lia.
Qed.

Lemma filter_finished_app (l1 l2 : list signal) :
  length (filter (fun s => is_finished s = true) (l1 ++ l2))
  = (length (filter (fun s => is_finished s = true) l1)
     + length (filter (fun s => is_finished s = true) l2))%nat.
Proof. by rewrite filter_app, length_app. Qed.

Lemma ended_count_snoc (log : list MainApp.log_entry) entry :
  length (filter (fun l => is_ended l = true) (log ++ [entry]))
  = (length (filter (fun l => is_ended l = true) log)
     + (if is_ended entry then 1 else 0))%nat.
Proof.
  rewrite filter_app, length_app. f_equal.
  rewrite filter_cons, filter_nil. destruct (is_ended entry); by case_decide.
Qed.

(** After [start_processing] the counter is the number of files pending. *)
Lemma start_counts ok a :
  idle a → startable ok a →
  MainApp.waiting (MainApp.start_processing ok a) = false
  ∧ signals (MainApp.world (MainApp.start_processing ok a)) = []
  ∧ MainApp.active_workers (MainApp.start_processing ok a)
    = Z.of_nat (pending (MainApp.start_processing ok a))
  ∧ (0 < pending (MainApp.start_processing ok a))%nat
  ∧ MainApp.controls_enabled (MainApp.start_processing ok a) = false
  ∧ ended_count (MainApp.start_processing ok a) = ended_count a.
Proof.
  intros (Hw & Hc & Hact & Hq & Hin & Hsig) (Hfiles & Hok).
  unfold MainApp.start_processing, MainApp.activeThreadCount. rewrite Hact. simpl.
  rewrite bool_decide_false by done.
  assert (Gui.save_to_new_dir (MainApp.cfg a) && negb ok = false) as ->.
  { destruct (Gui.save_to_new_dir (MainApp.cfg a)); [by rewrite Hok|done]. }
  unfold pending, ended_count. simpl. rewrite Hin, Hq. simpl.
  rewrite pool_start_all_length. simpl.
  split; [done|]. split; [done|]. split; [f_equal; lia|]. split.
  { destruct (MainApp.files a); [done|simpl; lia]. }
  split; [done|].
  rewrite filter_app, length_app. simpl. lia.
Qed.

(** A worker that ends hands its two signals to the event loop; the number
    of files pending stays. *)
Lemma worker_done_counts envs w a a' :
  MainApp.fire envs (MainApp.Ev_worker_done w) a = Some a' →
  signals (MainApp.world a) = [] →
  pending a' = pending a
  ∧ (length (MainApp.queue (MainApp.threadpool a'))
     ≤ length (MainApp.queue (MainApp.threadpool a)))%nat
  ∧ MainApp.active_workers a' = MainApp.active_workers a
  ∧ MainApp.log_view a' = MainApp.log_view a
  ∧ MainApp.controls_enabled a' = MainApp.controls_enabled a
  ∧ MainApp.waiting a' = MainApp.waiting a
  ∧ signals (MainApp.world a') = [].
Proof.
  simpl. case_bool_decide as Hin; [|done]. intros [= <-] Hsig.
  unfold MainApp.worker_done.
  destruct (gui_run_total (MainApp.cfg a) (envs w) w (MainApp.world a))
    as (s & st' & -> & Hs).
  rewrite Hsig in Hs. simpl in Hs.
  unfold pending. simpl. rewrite Hs, filter_finished_app. simpl.
  pose proof (remove_first_length _ _ Hin) as Hlen.
  unfold MainApp.pool_finish.
  destruct (MainApp.queue (MainApp.threadpool a)) as [|next rest]; simpl;
    rewrite ?length_app; simpl; repeat split; lia.
Qed.

Lemma filter_finished_cons s (rest : list signal) :
  length (filter (fun s => is_finished s = true) (s :: rest))
  = ((if is_finished s then 1 else 0)
     + length (filter (fun s => is_finished s = true) rest))%nat.
Proof. rewrite filter_cons. destruct (is_finished s); by case_decide. Qed.

Lemma hit_same k p : hit k p p = 0%nat.
Proof.
  unfold hit. destruct (k =? 0)%nat; [|done]. simpl.
  destruct (Nat.eqb_spec p 0) as [->|]; [done|]. done.
Qed.

Lemma hit_pred k p :
  hit k (S p) p = (if (k =? 0)%nat && (p =? 0)%nat then 1 else 0)%nat.
Proof. unfold hit. simpl. by rewrite andb_true_r. Qed.

(** The event loop handles the oldest signal. *)
Lemma deliver_counts envs a a' k :
  MainApp.fire envs MainApp.Ev_deliver a = Some a' →
  MainApp.active_workers a = Z.of_nat (pending a + k) →
  MainApp.waiting a = false ∧ MainApp.waiting a' = false
  ∧ MainApp.world a' = MainApp.world a
  ∧ MainApp.threadpool a' = MainApp.threadpool a
  ∧ (pending a' ≤ pending a)%nat
  ∧ MainApp.active_workers a' = Z.of_nat (pending a' + k)
  ∧ ended_count a' = (ended_count a + hit k (pending a) (pending a'))%nat
  ∧ MainApp.controls_enabled a'
    = (if (hit k (pending a) (pending a') =? 1)%nat then true
       else MainApp.controls_enabled a).
Proof.
  simpl. destruct (MainApp.waiting a) eqn:Hw; [done|].
  destruct (MainApp.inbox a) as [|s rest] eqn:Hin; [done|]. intros [= <-] Haw.
  assert (Hp : pending a
               = ((if is_finished s then 1 else 0)
                  + (length (MainApp.active (MainApp.threadpool a))
                     + length (MainApp.queue (MainApp.threadpool a))
                     + length (filter (fun s => is_finished s = true) rest)))%nat).
  { unfold pending. rewrite Hin, filter_finished_cons. lia. }
  set (p := (length (MainApp.active (MainApp.threadpool a))
             + length (MainApp.queue (MainApp.threadpool a))
             + length (filter (fun s => is_finished s = true) rest))%nat) in *.
  destruct s as [filename st|ex|]; simpl in Hp.
  - assert (Hp' : pending (MainApp.deliver (Sig_progress filename st) (MainApp.take_signal a))
                  = p) by (unfold pending; simpl; by rewrite Hin).
    rewrite Hp', Hp, hit_same. unfold ended_count. simpl. rewrite ended_count_snoc. simpl.
    rewrite Hp in Haw. repeat split; try done; lia.
  - assert (Hp' : pending (MainApp.deliver (Sig_error ex) (MainApp.take_signal a))
                  = p) by (unfold pending; simpl; by rewrite Hin).
    rewrite Hp', Hp, hit_same. unfold ended_count. simpl. rewrite ended_count_snoc. simpl.
    rewrite Hp in Haw. repeat split; try done; lia.
  - rewrite Hp in Haw. rewrite Hp.
    unfold MainApp.deliver, MainApp.on_worker_finished. simpl.
    destruct (MainApp.active_workers a - 1 =? 0)%Z eqn:Hz.
    + apply Z.eqb_eq in Hz.
      assert (k = 0%nat) as -> by lia. assert (Hp0 : p = 0%nat) by lia.
      unfold pending at 1 2 3 4. unfold ended_count. simpl. rewrite Hin. simpl. fold p.
      rewrite hit_pred, Hp0, ended_count_snoc. simpl.
      repeat split; try done; lia.
    + apply Z.eqb_neq in Hz.
      unfold pending at 1 2 3 4. unfold ended_count. simpl. rewrite Hin. simpl. fold p.
      rewrite hit_pred.
      assert ((k =? 0)%nat && (p =? 0)%nat = false) as ->.
      { destruct (Nat.eqb_spec k 0) as [->|]; [|done].
        destruct (Nat.eqb_spec p 0) as [Hp0|]; [|done]. lia. }
      simpl. repeat split; try done; lia.
Qed.

Lemma hit_compose k p p1 p' :
  (p' ≤ p1)%nat → (p1 ≤ p)%nat → (hit k p p1 + hit k p1 p')%nat = hit k p p'.
Proof.
  unfold hit. intros H1 H2. destruct (k =? 0)%nat; [|done]. simpl.
  destruct (Nat.eqb_spec p1 0), (Nat.eqb_spec p' 0), (Nat.ltb_spec 0 p),
    (Nat.ltb_spec 0 p1); simpl; lia.
Qed.

Lemma hit_range k p p' : hit k p p' = 0%nat ∨ hit k p p' = 1%nat.
Proof. unfold hit. case_match; auto. Qed.

(** While workers end and signals are handled, the counter stays [k] above
    the number of files pending, and the end of the batch is logged when, and
    only when, the counter gets to zero. *)
Lemma work_phase envs evs a a' k :
  forallb is_work evs = true →
  MainApp.exec envs evs a = Some a' →
  MainApp.waiting a = false → signals (MainApp.world a) = [] →
  MainApp.active_workers a = Z.of_nat (pending a + k) →
  MainApp.waiting a' = false ∧ signals (MainApp.world a') = []
  ∧ MainApp.active_workers a' = Z.of_nat (pending a' + k)
  ∧ (pending a' ≤ pending a)%nat
  ∧ ended_count a' = (ended_count a + hit k (pending a) (pending a'))%nat
  ∧ MainApp.controls_enabled a'
    = (if (hit k (pending a) (pending a') =? 1)%nat then true
       else MainApp.controls_enabled a).
Proof.
  revert a. induction evs as [|ev evs IH]; intros a Hwork Hexec Hw Hsig Haw.
  - injection Hexec as <-. rewrite hit_same. simpl. repeat split; try done; lia.
  - simpl in Hwork. apply andb_true_iff in Hwork as [Hev Hwork].
    simpl in Hexec. destruct (MainApp.fire envs ev a) as [a1|] eqn:Hfire; [|done].
    destruct ev as [| | |w|]; try done.
    + destruct (worker_done_counts _ _ _ _ Hfire Hsig)
        as (Hp & _ & Haw1 & Hlog & Hc & Hw1 & Hsig1).
      destruct (IH a1 Hwork Hexec) as (? & ? & ? & ? & He & Hc');
        [congruence|done|congruence|].
      unfold ended_count in *. rewrite Hp, Hlog, Hc in *. done.
    + destruct (deliver_counts _ _ _ k Hfire Haw)
        as (_ & Hw1 & Hworld & _ & Hle & Haw1 & He1 & Hc1).
      destruct (IH a1 Hwork Hexec) as (? & ? & ? & Hle' & He & Hc');
        [done|congruence|done|].
      split; [done|]. split; [done|]. split; [done|]. split; [lia|].
      pose proof (hit_compose k (pending a) (pending a1) (pending a') Hle' Hle) as Hsum.
      split; [lia|]. rewrite Hc', Hc1.
      destruct (hit_range k (pending a) (pending a1)) as [Hx|Hx],
               (hit_range k (pending a1) (pending a')) as [Hy|Hy],
               (hit_range k (pending a) (pending a')) as [Hz|Hz];
        rewrite Hx, Hy, Hz in *; simpl; done || lia.
Qed.

(** While the window waits in [waitForDone], nothing happens but workers
    ending. *)
Lemma waiting_phase envs evs a a' :
  MainApp.exec envs evs a = Some a' →
  MainApp.waiting a = true → MainApp.Ev_wait_returns ∉ evs →
  signals (MainApp.world a) = [] → MainApp.queue (MainApp.threadpool a) = [] →
  MainApp.waiting a' = true ∧ signals (MainApp.world a') = []
  ∧ pending a' = pending a
  ∧ MainApp.active_workers a' = MainApp.active_workers a
  ∧ MainApp.log_view a' = MainApp.log_view a.
Proof.
  revert a. induction evs as [|ev evs IH]; intros a Hexec Hw Hnot Hsig Hq.
  - by injection Hexec as <-.
  - apply not_elem_of_cons in Hnot as [Hne Hnot].
    simpl in Hexec. destruct (MainApp.fire envs ev a) as [a1|] eqn:Hfire; [|done].
    destruct ev as [ok| | |w|]; simpl in Hfire; rewrite ?Hw in Hfire; try done.
    destruct (worker_done_counts _ _ _ _ Hfire Hsig)
      as (Hp & Hq1 & Haw1 & Hlog & _ & Hw1 & Hsig1).
    rewrite Hq in Hq1.
    destruct (IH a1 Hexec) as (? & ? & ? & ? & ?); [congruence|done|done| |].
    { destruct (MainApp.queue (MainApp.threadpool a1)); [done|simpl in Hq1; lia]. }
    repeat split; congruence.
Qed.

Lemma exec_app envs evs1 evs2 a :
  MainApp.exec envs (evs1 ++ evs2) a
  = match MainApp.exec envs evs1 a with
    | Some a1 => MainApp.exec envs evs2 a1
    | None => None
    end.
Proof.
  revert a. induction evs1 as [|ev evs1 IH]; intros a; simpl; [done|].
  destruct (MainApp.fire envs ev a); [apply IH|done].
Qed.

(** From a start, and as long as the stop button is not used: the counter
    [active_workers] is the number of files whose [finished] signal has not
    been handled; the end of the batch is logged once, at the moment the last
    of these signals is handled, and the start button is enabled from then
    on. *)
Theorem end_of_batch_is_logged_once (envs : string → env) (ok : bool)
    (a0 a : MainApp.app) (evs : list MainApp.event) :
  idle a0 → startable ok a0 →
  forallb is_work evs = true →
  MainApp.exec envs evs (MainApp.start_processing ok a0) = Some a →
  MainApp.active_workers a = Z.of_nat (pending a)
  ∧ ended_count a = (ended_count a0 + (if (pending a =? 0)%nat then 1 else 0))%nat
  ∧ MainApp.controls_enabled a = (pending a =? 0)%nat.
Proof.
  intros Hidle Hstart Hwork Hexec.
  destruct (start_counts ok a0 Hidle Hstart) as (Hw & Hsig & Haw & Hpos & Hc & He).
  destruct (work_phase envs evs _ a 0 Hwork Hexec Hw Hsig)
    as (_ & _ & Haw' & _ & He' & Hc'); [by rewrite Nat.add_0_r|].
  rewrite Nat.add_0_r in Haw'. split; [done|].
  rewrite He', Hc', He, Hc. unfold hit. simpl.
  rewrite (proj2 (Nat.ltb_lt _ _) Hpos), andb_true_r.
  by destruct (pending a =? 0)%nat.
Qed.

Lemma end_of_batch_is_logged_once_witness :
  ∃ a,
    MainApp.exec (fun _ => ex_env)
      [MainApp.Ev_worker_done ex_path; MainApp.Ev_deliver; MainApp.Ev_deliver]
      (MainApp.start_processing true ex_app_one) = Some a
    ∧ MainApp.active_workers a = Z.of_nat (pending a)
    ∧ ended_count a = (ended_count ex_app_one + (if (pending a =? 0)%nat then 1 else 0))%nat
    ∧ MainApp.controls_enabled a = (pending a =? 0)%nat.
Proof.
  eexists. split; [vm_compute; reflexivity|].
  apply (end_of_batch_is_logged_once (fun _ => ex_env) true ex_app_one _
           [MainApp.Ev_worker_done ex_path; MainApp.Ev_deliver; MainApp.Ev_deliver]).
  - repeat split.
  - split; [discriminate|discriminate].
  - reflexivity.
  - vm_compute. reflexivity.
Defined.

(** With the stop button: once [waitForDone] has returned and every signal
    has been handled, the end of the batch has been logged twice when the
    stop found the queue empty, and once when it removed runnables from the
    queue; in that case the counter stays at the number removed. *)
Theorem end_of_batch_after_stop (envs : string → env) (ok : bool)
    (a0 a1 a2 a3 : MainApp.app) (evs1 evs2 evs3 : list MainApp.event) :
  idle a0 → startable ok a0 →
  forallb is_work evs1 = true →
  MainApp.exec envs evs1 (MainApp.start_processing ok a0) = Some a1 →
  MainApp.Ev_wait_returns ∉ evs2 →
  MainApp.exec envs (MainApp.Ev_stop :: evs2 ++ [MainApp.Ev_wait_returns]) a1 = Some a2 →
  forallb is_work evs3 = true →
  MainApp.exec envs evs3 a2 = Some a3 →
  pending a3 = 0%nat →
  ended_count a3
  = (ended_count a0
     + (if bool_decide (MainApp.queue (MainApp.threadpool a1) = []) then 2 else 1))%nat
  ∧ MainApp.active_workers a3
    = Z.of_nat (length (MainApp.queue (MainApp.threadpool a1))).
Proof.
  intros Hidle Hstart Hwork1 Hexec1 Hnot Hexec2 Hwork3 Hexec3 Hdone.
  destruct (start_counts ok a0 Hidle Hstart) as (Hw & Hsig & Haw & Hpos & Hc & He).
  destruct (work_phase envs evs1 _ a1 0 Hwork1 Hexec1 Hw Hsig)
    as (Hw1 & Hsig1 & Haw1 & _ & He1 & Hc1); [by rewrite Nat.add_0_r|].
  rewrite Nat.add_0_r in Haw1.
  (* the stop *)
  simpl in Hexec2. rewrite Hw1 in Hexec2. simpl in Hexec2.
  destruct (MainApp.controls_enabled a1) eqn:Hc1'; [done|].
  assert (Hhit : hit 0 (pending (MainApp.start_processing ok a0)) (pending a1) = 0%nat).
  { destruct (hit_range 0 (pending (MainApp.start_processing ok a0)) (pending a1))
      as [H|H]; [done|]. rewrite H in Hc1. simpl in Hc1. by rewrite Hc1 in Hc. }
  rewrite Hhit, Nat.add_0_r in He1.
  assert (Hpos1 : (0 < pending a1)%nat).
  { unfold hit in Hhit. simpl in Hhit.
    rewrite (proj2 (Nat.ltb_lt _ _) Hpos), andb_true_r in Hhit.
    destruct (Nat.eqb_spec (pending a1) 0); [done|lia]. }
  rewrite exec_app in Hexec2.
  destruct (MainApp.exec envs evs2 (MainApp.stop_requested a1)) as [a'|] eqn:Hexec2';
    [|done].
  destruct (waiting_phase envs evs2 _ a' Hexec2' eq_refl Hnot Hsig1 eq_refl)
    as (Hw' & Hsig' & Hp' & Haw' & Hlog').
  simpl in Hexec2. rewrite Hw' in Hexec2. simpl in Hexec2.
  case_bool_decide as Hact; [|done]. injection Hexec2 as <-.
  set (k := length (MainApp.queue (MainApp.threadpool a1))).
  assert (Hps : pending a1 = (pending (MainApp.stop_requested a1) + k)%nat).
  { unfold pending, k. simpl. lia. }
  destruct (work_phase envs evs3 (MainApp.stop_completed a') a3 k Hwork3 Hexec3)
    as (_ & _ & Haw3 & _ & He3 & _); [done|done| |].
  { simpl. rewrite Haw'. simpl. rewrite Haw1, Hps. f_equal.
    unfold pending in *. simpl in *. lia. }
  rewrite Hdone in Haw3, He3. split; [|done].
  rewrite He3. unfold ended_count at 1. simpl. rewrite ended_count_snoc. simpl.
  rewrite Hlog'. simpl. rewrite ended_count_snoc. simpl.
  fold (ended_count a1). rewrite He1, He.
  assert (Hpc : pending (MainApp.stop_completed a') = pending (MainApp.stop_requested a1)).
  { rewrite <- Hp'. done. }
  rewrite Hpc. unfold hit. simpl.
  case_bool_decide as Hq.
  - assert (k = 0%nat) as Hk by (unfold k; by rewrite Hq).
    rewrite Hk in *. simpl.
    rewrite (proj2 (Nat.ltb_lt 0 (pending (MainApp.stop_requested a1)))) by lia. lia.
  - assert (k ≠ 0%nat) as Hk.
    { unfold k. by destruct (MainApp.queue (MainApp.threadpool a1)). }
    rewrite (proj2 (Nat.eqb_neq k 0)) by done. simpl. lia.
Qed.

Lemma end_of_batch_after_stop_witness :
  ∃ a3,
    MainApp.exec (fun _ => ex_env)
      [MainApp.Ev_stop; MainApp.Ev_worker_done ex_path; MainApp.Ev_wait_returns;
       MainApp.Ev_deliver; MainApp.Ev_deliver]
      (MainApp.start_processing true ex_app_one) = Some a3
    ∧ ended_count a3 = 2%nat
    ∧ MainApp.active_workers a3 = 0%Z.
Proof.
  eexists. split; [vm_compute; reflexivity|].
  refine (end_of_batch_after_stop (fun _ => ex_env) true ex_app_one
            (MainApp.start_processing true ex_app_one) _ _
            [] [MainApp.Ev_worker_done ex_path] [MainApp.Ev_deliver; MainApp.Ev_deliver]
            _ _ eq_refl eq_refl _ _ eq_refl _ _).
  - repeat split.
  - split; discriminate.
  - intros H. apply list_elem_of_singleton in H. discriminate.
  - vm_compute. reflexivity.
  - vm_compute. reflexivity.
  - vm_compute. reflexivity.
Defined.

(** ** The list of custom formats *)

Lemma lower_ascii_idemp a : lower_ascii (lower_ascii a) = lower_ascii a.
Proof. destruct a as [[] [] [] [] [] [] [] []]; reflexivity. Qed.

Lemma chars_str l : chars (str l) = l.
Proof. apply String.list_ascii_of_string_of_list_ascii. Qed.

Lemma lower_idemp s : lower (lower s) = lower s.
Proof.
  unfold lower. rewrite chars_str. f_equal. rewrite <- list_fmap_compose.
  apply list_fmap_ext. intros _ a _. apply lower_ascii_idemp.
Qed.

Lemma lower_cons a s : lower (String a s) = String (lower_ascii a) (lower s).
Proof. done. Qed.

Lemma typed_format_normal w text :
  CustomFormatWidget.typed_format w = Some text → normal_format text.
Proof.
  unfold CustomFormatWidget.typed_format.
  set (t := lower (CustomFormatWidget.strip (CustomFormatWidget.format_input w))).
  assert (Ht : lower t = t) by apply lower_idemp.
  case_bool_decide; [done|].
  destruct (starts_with "." t) eqn:Hdot; intros [= <-].
  - by split.
  - change ("." +:+ t) with (String "." t). split.
    + unfold starts_with. simpl. by destruct t.
    + by rewrite lower_cons, Ht.
Qed.

(** [add_format] keeps the list free of repeats, and what it adds starts
    with a dot and has no upper-case letter. *)
Theorem add_format_keeps_the_list_normal (w : CustomFormatWidget.widget) :
  NoDup (CustomFormatWidget.format_list w) →
  Forall normal_format (CustomFormatWidget.format_list w) →
  NoDup (CustomFormatWidget.format_list (CustomFormatWidget.add_format w).1)
  ∧ Forall normal_format (CustomFormatWidget.format_list (CustomFormatWidget.add_format w).1).
Proof.
  intros Hnd Hall. unfold CustomFormatWidget.add_format.
  destruct (CustomFormatWidget.typed_format w) as [text|] eqn:Ht; [|done].
  case_bool_decide as Hin; [done|]. simpl. split.
  - apply NoDup_app. split; [done|]. split; [|apply NoDup_singleton].
    intros x Hx ->%list_elem_of_singleton. done.
  - apply Forall_app. split; [done|]. constructor; [|done].
    by apply (typed_format_normal w).
Qed.

Lemma add_format_keeps_the_list_normal_witness :
  CustomFormatWidget.format_list
    (CustomFormatWidget.add_format (CustomFormatWidget.Widget "  TS " [".ts2"])).1
  = [".ts2"; ".ts"]
  ∧ NoDup [".ts2"; ".ts"] ∧ Forall normal_format [".ts2"; ".ts"].
Proof.
  split; [reflexivity|].
  assert (Hnd : NoDup (CustomFormatWidget.format_list
                         (CustomFormatWidget.Widget "  TS " [".ts2"]))).
  { apply NoDup_singleton. }
  assert (Hall : Forall normal_format (CustomFormatWidget.format_list
                                         (CustomFormatWidget.Widget "  TS " [".ts2"]))).
  { repeat constructor. }
  exact (add_format_keeps_the_list_normal _ Hnd Hall).
Defined.

(** ** The files of the window *)

Lemma fold_left_keeps {A B} (P : B → Prop) (f : B → A → B) (l : list A) (b : B) :
  P b → (∀ b x, x ∈ l → P b → P (f b x)) → P (fold_left f l b).
Proof.
  revert b. induction l as [|x l IH]; intros b Hb Hf; simpl; [done|].
  apply IH; [apply Hf; [by left|done]|].
  intros b' y Hy. apply Hf. by right.
Qed.

Lemma add_file_to_list_synced path p : synced p → synced (FileList.add_file_to_list path p).
Proof.
  intros [Hnd Hsame]. unfold FileList.add_file_to_list.
  case_bool_decide as Hin; [done|]. split; simpl.
  - apply NoDup_app. split; [done|]. split; [|apply NoDup_singleton].
    intros x Hx ->%list_elem_of_singleton. apply Hin. by apply Hsame.
  - intros x. rewrite elem_of_union, elem_of_singleton, elem_of_app, list_elem_of_singleton.
    by rewrite Hsame.
Qed.

Lemma add_directory_synced d path exts p :
  synced p → synced (FileList.add_directory d path exts p).
Proof.
  intros Hp. unfold FileList.add_directory.
  apply fold_left_keeps; [done|]. intros p1 [root names] _ Hp1.
  apply fold_left_keeps; [done|]. intros p2 file _ Hp2.
  case_match; [by apply add_file_to_list_synced|done].
Qed.

Lemma unselected_sublist (selected : list nat) (l : list string) (g : nat → nat) :
  omap (fun '(i, x) => if bool_decide (i ∈ selected) then None else Some x)
       (imap (fun i x => (g i, x)) l)
  `sublist_of` l.
Proof.
  revert g. induction l as [|x l IH]; intros g; simpl; [constructor|].
  case_bool_decide.
  - apply sublist_cons. apply (IH (g ∘ S)).
  - apply sublist_skip. apply (IH (g ∘ S)).
Qed.

Lemma unselected_elem (selected : list nat) (l : list string) x :
  x ∈ omap (fun '(i, x) => if bool_decide (i ∈ selected) then None else Some x)
           (imap (fun i x => (i, x)) l)
  ↔ ∃ i, l !! i = Some x ∧ i ∉ selected.
Proof.
  rewrite list_elem_of_omap. split.
  - intros ([i y] & Hin & Hy). apply elem_of_lookup_imap in Hin as (j & z & [= -> ->] & Hz).
    case_bool_decide; [done|]. injection Hy as ->. eauto.
  - intros (i & Hi & Hsel). exists (i, x). split.
    + apply elem_of_lookup_imap. eauto.
    + by rewrite bool_decide_false.
Qed.

Lemma discard_selected (selected : list nat) (rows : list (nat * string)) S L :
  FileList.file_list
    (fold_left (fun p '(i, text) =>
       if bool_decide (i ∈ selected)
       then FileList.Panel (FileList.files p ∖ {[ text ]}) (FileList.file_list p)
       else p) rows (FileList.Panel S L)) = L
  ∧ ∀ x, x ∈ FileList.files
             (fold_left (fun p '(i, text) =>
                if bool_decide (i ∈ selected)
                then FileList.Panel (FileList.files p ∖ {[ text ]}) (FileList.file_list p)
                else p) rows (FileList.Panel S L))
         ↔ x ∈ S ∧ ¬ ∃ i, (i, x) ∈ rows ∧ i ∈ selected.
Proof.
  revert S. induction rows as [|[i t] rows IH]; intros S; simpl.
  - split; [done|]. intros x. split; [|by intros [? _]].
    intros Hx. split; [done|]. intros (i & Hi & _). by apply elem_of_nil in Hi.
  - case_bool_decide as Hsel; simpl.
    + destruct (IH (S ∖ {[ t ]})) as [-> Hx]. split; [done|]. intros x.
      rewrite Hx, elem_of_difference, elem_of_singleton. split.
      * intros [[HS Hne] Hno]. split; [done|]. intros (j & Hj & Hjs).
        apply elem_of_cons in Hj as [[= -> ->]|Hj]; [done|]. apply Hno. eauto.
      * intros [HS Hno]. split; [split; [done|]|].
        -- intros ->. apply Hno. exists i. split; [by left|done].
        -- intros (j & Hj & Hjs). apply Hno. exists j. split; [by right|done].
    + destruct (IH S) as [-> Hx]. split; [done|]. intros x. rewrite Hx. split.
      * intros [HS Hno]. split; [done|]. intros (j & Hj & Hjs).
        apply elem_of_cons in Hj as [[= -> ->]|Hj]; [done|]. apply Hno. eauto.
      * intros [HS Hno]. split; [done|]. intros (j & Hj & Hjs).
        apply Hno. exists j. split; [by right|done].
Qed.

Lemma remove_selected_files_synced active selected p :
  synced p → synced (FileList.remove_selected_files active selected p).
Proof.
  intros [Hnd Hsame]. unfold FileList.remove_selected_files.
  case_match; [done|].
  destruct (discard_selected selected
              (imap (fun i x => (i, x)) (FileList.file_list p)) (FileList.files p)
              (omap (fun '(i, x) => if bool_decide (i ∈ selected) then None else Some x)
                    (imap (fun i x => (i, x)) (FileList.file_list p))))
    as [Hl Hf].
  split.
  - rewrite Hl. eapply sublist_NoDup; [done|apply (unselected_sublist selected _ id)].
  - intros x. rewrite Hl, Hf, unselected_elem, Hsame. split.
    + intros [Hx Hno]. apply list_elem_of_lookup in Hx as [i Hi].
      exists i. split; [done|]. intros Hsel. apply Hno. exists i. split; [|done].
      apply elem_of_lookup_imap. eauto.
    + intros (i & Hi & Hsel). split; [by eapply list_elem_of_lookup_2|].
      intros (j & Hj & Hjs). apply elem_of_lookup_imap in Hj as (j' & y & [= -> ->] & Hy).
      by rewrite (NoDup_lookup _ _ _ _ Hnd Hi Hy) in Hsel.
Qed.

(** Every way the window has of changing its files keeps the list shown and
    the set that is processed in step: the same paths, none twice in the
    list. *)
Theorem file_list_stays_in_step (d : FileList.disk) (exts paths chosen : list string)
    (folder : string) (active : nat) (selected : list nat) (p : FileList.panel) :
  synced p →
  synced (FileList.handle_dropped_files d exts paths p)
  ∧ synced (FileList.select_files chosen p)
  ∧ synced (FileList.select_folder d exts folder p)
  ∧ synced (FileList.clear_file_list active p)
  ∧ synced (FileList.remove_selected_files active selected p).
Proof.
  intros Hp. split; [|split; [|split; [|split]]].
  - unfold FileList.handle_dropped_files. apply fold_left_keeps; [done|].
    intros p1 path _ Hp1. repeat case_match; try done.
    + by apply add_directory_synced.
    + by apply add_file_to_list_synced.
  - unfold FileList.select_files. apply fold_left_keeps; [done|].
    intros p1 f _ Hp1. by apply add_file_to_list_synced.
  - unfold FileList.select_folder. case_match; [done|]. by apply add_directory_synced.
  - unfold FileList.clear_file_list. case_match; [done|]. split; simpl.
    + constructor.
    + intros x. by rewrite elem_of_empty, elem_of_nil.
  - by apply remove_selected_files_synced.
Qed.

Lemma file_list_stays_in_step_witness :
  synced (FileList.handle_dropped_files ex_disk [".mp4"; ".ts"] ["/v"; "/v/a.mp4"] ex_panel)
  ∧ FileList.file_list
      (FileList.handle_dropped_files ex_disk [".mp4"; ".ts"] ["/v"; "/v/a.mp4"] ex_panel)
    = ["/v/a.mp4"; "/v/CLIP.TS"].
Proof.
  assert (Hp : synced ex_panel).
  { split; simpl; [apply NoDup_singleton|].
    intros x. by rewrite elem_of_singleton, list_elem_of_singleton. }
  split; [|vm_compute; reflexivity].
  exact (proj1 (file_list_stays_in_step ex_disk [".mp4"; ".ts"] ["/v"; "/v/a.mp4"] [] ""
                  0 [] ex_panel Hp)).
Defined.

Lemma add_file_to_list_files path p x :
  x ∈ FileList.files (FileList.add_file_to_list path p) → x ∈ FileList.files p ∨ x = path.
Proof.
  unfold FileList.add_file_to_list. case_bool_decide; simpl; [by left|].
  rewrite elem_of_union, elem_of_singleton. tauto.
Qed.

(** A drop adds nothing but files dropped and files found under folders
    dropped, and of these only the ones whose name ends, in lower case, in a
    supported extension; with no extension supported it adds nothing. *)
Theorem drop_adds_supported_files_only (d : FileList.disk) (exts paths : list string)
    (p : FileList.panel) (x : string) :
  x ∈ FileList.files (FileList.handle_dropped_files d exts paths p) →
  x ∈ FileList.files p ∨ (exts ≠ [] ∧ droppable d exts paths x).
Proof.
  unfold FileList.handle_dropped_files.
  apply (fold_left_keeps
           (fun p' => x ∈ FileList.files p' →
                      x ∈ FileList.files p ∨ (exts ≠ [] ∧ droppable d exts paths x)));
    [by left|].
  intros p1 path Hpath Hp1.
  destruct (FileList.isdir d path) eqn:Hdir.
  - unfold FileList.add_directory.
    apply (fold_left_keeps
             (fun p' => x ∈ FileList.files p' →
                        x ∈ FileList.files p ∨ (exts ≠ [] ∧ droppable d exts paths x)));
      [done|].
    intros p2 [root names] Hwalk Hp2.
    apply (fold_left_keeps
             (fun p' => x ∈ FileList.files p' →
                        x ∈ FileList.files p ∨ (exts ≠ [] ∧ droppable d exts paths x)));
      [done|].
    intros p3 file Hfile Hp3.
    destruct (ends_with_any exts (lower file)) eqn:Hext; [|done].
    intros [Hx| ->]%add_file_to_list_files; [by apply Hp3|].
    right. split; [by intros ->|]. right. by exists path, root, names, file.
  - destruct (FileList.isfile d path) eqn:Hfile; [|done].
    destruct (ends_with_any exts (lower path)) eqn:Hext; [|done].
    intros [Hx| ->]%add_file_to_list_files; [by apply Hp1|].
    right. split; [by intros ->|]. by left.
Qed.

Lemma drop_adds_supported_files_only_witness :
  "/v/notes.txt"
    ∉ FileList.files (FileList.handle_dropped_files ex_disk [".mp4"; ".ts"]
                        ["/v"; "/v/notes.txt"] ex_panel).
Proof.
  intros Hin.
  destruct (drop_adds_supported_files_only ex_disk [".mp4"; ".ts"] ["/v"; "/v/notes.txt"]
              ex_panel "/v/notes.txt" Hin) as [Hx|[_ [Hd|Hd]]].
  - simpl in Hx. apply elem_of_singleton in Hx. discriminate.
  - destruct Hd as (_ & _ & _ & Hext). discriminate.
  - destruct Hd as (path & root & names & file & Hpath & Hdir & Hwalk & Hfile & Hext & Hx).
    repeat (apply elem_of_cons in Hpath as [->|Hpath]); [| |by apply elem_of_nil in Hpath].
    + simpl in Hwalk. apply list_elem_of_singleton in Hwalk. injection Hwalk as -> ->.
      repeat (apply elem_of_cons in Hfile as [->|Hfile]); discriminate.
    + discriminate.
Defined.

(** ** The format added and the files accepted *)

(** Once a format has been typed and added, a file dropped is accepted when
    its name ends with that format in any letter case. *)
Theorem added_format_accepts_any_case (w : CustomFormatWidget.widget)
    (format_checks : list (string * bool)) (d : FileList.disk)
    (path text : string) (p : FileList.panel) :
  CustomFormatWidget.typed_format w = Some text →
  FileList.isdir d path = false → FileList.isfile d path = true →
  ends_with text (lower path) = true →
  path ∈ FileList.files
           (FileList.handle_dropped_files d
              (FileList.get_supported_extensions format_checks
                 (CustomFormatWidget.add_format w).1)
              [path] p).
Proof.
  intros Ht Hdir Hfile Hends.
  assert (Hin : text ∈ CustomFormatWidget.format_list (CustomFormatWidget.add_format w).1).
  { unfold CustomFormatWidget.add_format. rewrite Ht.
    case_bool_decide as Hin; simpl; [done|]. apply elem_of_app. right. by left. }
  simpl. rewrite Hdir, Hfile.
  assert (ends_with_any
            (FileList.get_supported_extensions format_checks
               (CustomFormatWidget.add_format w).1) (lower path) = true) as ->.
  { unfold ends_with_any, FileList.get_supported_extensions,
      CustomFormatWidget.get_formats.
    rewrite existsb_app. apply orb_true_iff. right.
    apply existsb_exists. exists text. split; [by apply list_elem_of_In|done]. }
  unfold FileList.add_file_to_list. case_bool_decide; simpl; [done|].
  apply elem_of_union. right. by apply elem_of_singleton.
Qed.

Lemma added_format_accepts_any_case_witness :
  "/v/CLIP.TS"
    ∈ FileList.files
        (FileList.handle_dropped_files ex_disk
           (FileList.get_supported_extensions [(".mp4", true); (".mkv", false)]
              (CustomFormatWidget.add_format (CustomFormatWidget.Widget "  TS " [])).1)
           ["/v/CLIP.TS"] ex_panel).
Proof.
  apply (added_format_accepts_any_case (CustomFormatWidget.Widget "  TS " [])
           [(".mp4", true); (".mkv", false)] ex_disk "/v/CLIP.TS" ".ts" ex_panel);
    reflexivity.
Defined.

(** ** The output directory that is the video's own *)

Lemma rfind_from_app c l1 l2 i last :
  rfind_from c (l1 ++ l2) i last
  = rfind_from c l2 (i + Z.of_nat (length l1)) (rfind_from c l1 i last).
Proof.
  revert i last. induction l1 as [|a l1 IH]; intros i last; simpl.
  - by rewrite Z.add_0_r.
  - rewrite IH. f_equal. lia.
Qed.

Lemma rfind_from_absent c l i last : c ∉ l → rfind_from c l i last = last.
Proof.
  revert i. induction l as [|a l IH]; intros i Hc; simpl; [done|].
  apply not_elem_of_cons in Hc as [Hne Hc].
  rewrite (proj2 (Ascii.eqb_neq a c)) by done. by apply IH.
Qed.

Lemma chars_app a b : chars (a +:+ b) = chars a ++ chars b.
Proof.
  induction a as [|x a IH]; [done|].
  rewrite string_app_cons. unfold chars in *. simpl. by rewrite IH.
Qed.

Lemma chars_length s : length (chars s) = String.length s.
Proof. unfold chars. induction s as [|a s IH]; simpl; [done|by rewrite IH]. Qed.

Lemma basename_join s name :
  "/"%char ∉ chars name → basename (s +:+ "/" +:+ name) = name.
Proof.
  intros Hname. unfold basename, slice_from.
  assert (Hc : chars (s +:+ "/" +:+ name) = chars s ++ "/"%char :: chars name).
  { by rewrite !chars_app. }
  assert (Hr : rfind "/" (s +:+ "/" +:+ name) = Z.of_nat (length (chars s))).
  { unfold rfind. rewrite Hc, rfind_from_app. simpl.
    rewrite rfind_from_absent by done. lia. }
  rewrite Hr, Hc.
  replace (Z.to_nat (Z.of_nat (length (chars s)) + 1)) with (length (chars s) + 1)%nat
    by lia.
  rewrite <- drop_drop, drop_app_length. simpl. by rewrite drop_0, str_chars.
Qed.

Lemma starts_with_slash name : "/"%char ∉ chars name → starts_with "/" name = false.
Proof.
  destruct name as [|a name]; [done|]. intros Hname.
  unfold starts_with.
  change (String.prefix "/" (String a name))
    with (if Ascii.ascii_dec "/" a then String.prefix "" name else false).
  destruct (Ascii.ascii_dec "/" a) as [<-|]; [|done].
  destruct Hname. apply list_elem_of_here.
Qed.

(** When the output directory is the folder that holds the video, the
    destination is the video itself: a successful run replaces the video, as
    a run with no output directory does. *)
Theorem saving_into_the_folder_of_the_video_replaces_it (cfg : Gui.config) (e : env)
    (d name mode : string) (value : Q) (st : state) :
  "/"%char ∉ chars name → d ≠ "" → ends_with "/" d = false →
  Gui.final_path (d +:+ "/" +:+ name) (Some d) = d +:+ "/" +:+ name
  ∧ ((Gui.process_single_video cfg e (d +:+ "/" +:+ name) mode value (Some d) st).1
     = Ret St_embedded →
     ∃ c px,
       fs st !! (d +:+ "/" +:+ name) = Some (Media c)
       ∧ fs (Gui.process_single_video cfg e (d +:+ "/" +:+ name) mode value (Some d) st).2
           !! (d +:+ "/" +:+ name)
         = Some (Media (Container (gui_remuxed (streams c) px) (fmt_duration c)))).
Proof.
  intros Hname Hd Hslash.
  assert (Hdest : Gui.final_path (d +:+ "/" +:+ name) (Some d) = d +:+ "/" +:+ name).
  { unfold Gui.final_path. rewrite bool_decide_false by done.
    rewrite basename_join by done. unfold path_join.
    rewrite starts_with_slash by done. rewrite bool_decide_false by done.
    by rewrite Hslash. }
  split; [done|]. intros Hs.
  destruct (gui_process_single_video_spec _ _ _ _ _ _ _ _ _
              (run_pair (Gui.process_single_video cfg e (d +:+ "/" +:+ name) mode value
                           (Some d)) st))
    as (s & Hs' & Hrun).
  rewrite Hs in Hs'. injection Hs' as <-.
  destruct (gui_run_facts _ _ _ _ _ _ _ _ _ Hrun Hdest) as (tr & _ & _ & _ & _ & Hsucc).
  destruct (Hsucc eq_refl) as (c & px & Hc & _ & _ & Hfin). by exists c, px.
Qed.

Lemma saving_into_the_folder_of_the_video_replaces_it_witness :
  Gui.final_path "/v/a.mp4" (Some "/v") = "/v/a.mp4"
  ∧ ∃ c px,
      fs (init_state ex_files) !! "/v/a.mp4" = Some (Media c)
      ∧ fs (Gui.process_single_video ex_cfg_copy ex_env "/v/a.mp4" "time" (inject_Z 20)
              (Some "/v") (init_state ex_files)).2 !! "/v/a.mp4"
        = Some (Media (Container (gui_remuxed (streams c) px) (fmt_duration c))).
Proof.
  assert (Hname : "/"%char ∉ chars "a.mp4").
  { intros H. repeat (apply elem_of_cons in H as [H|H]; [discriminate H|]).
    by apply elem_of_nil in H. }
  assert (Hd : "/v" ≠ "") by discriminate.
  destruct (saving_into_the_folder_of_the_video_replaces_it ex_cfg_copy ex_env "/v" "a.mp4"
              "time" (inject_Z 20) (init_state ex_files) Hname Hd eq_refl) as [Hdest Hrun].
  split; [exact Hdest|]. apply Hrun. vm_compute. reflexivity.
Defined.

(** ** The size of the pool *)

Lemma pool_start_bound w p :
  (length (MainApp.active p) ≤ MainApp.max_thread_count p)%nat →
  (length (MainApp.active (MainApp.pool_start w p))
   ≤ MainApp.max_thread_count (MainApp.pool_start w p))%nat.
Proof.
  intros H. unfold MainApp.pool_start.
  destruct (Nat.ltb_spec (length (MainApp.active p)) (MainApp.max_thread_count p)); simpl;
    [rewrite length_app; simpl; lia|done].
Qed.

Lemma fire_pool_bound envs ev a a' :
  MainApp.fire envs ev a = Some a' →
  (length (MainApp.active (MainApp.threadpool a))
   ≤ MainApp.max_thread_count (MainApp.threadpool a))%nat →
  (length (MainApp.active (MainApp.threadpool a'))
   ≤ MainApp.max_thread_count (MainApp.threadpool a'))%nat.
Proof.
  intros Hfire Hle. destruct ev as [ok| | |w|]; simpl in Hfire.
  - destruct (_ || _); [done|]. injection Hfire as <-.
    unfold MainApp.start_processing, MainApp.activeThreadCount.
    destruct (Nat.ltb_spec 0 (length (MainApp.active (MainApp.threadpool a))))
      as [Hpos|Hzero]; [done|].
    repeat case_match; try done. simpl.
    apply (fold_left_keeps
             (fun p => (length (MainApp.active p) ≤ MainApp.max_thread_count p)%nat));
      [simpl; lia|].
    intros p w _ Hp. by apply pool_start_bound.
  - destruct (_ || _); [done|]. by injection Hfire as <-.
  - destruct (_ && _); [|done]. by injection Hfire as <-.
  - case_bool_decide as Hin; [|done]. injection Hfire as <-.
    destruct (worker_done_pool envs w a) as (-> & _).
    pose proof (remove_first_length _ _ Hin) as Hlen.
    unfold MainApp.pool_finish.
    destruct (MainApp.queue (MainApp.threadpool a)); simpl;
      rewrite ?length_app; simpl; lia.
  - destruct (MainApp.waiting a); [done|].
    destruct (MainApp.inbox a) as [|s rest]; [done|]. injection Hfire as <-.
    by destruct (deliver_pool s (MainApp.take_signal a)) as (-> & _).
Qed.



(** ** The original is never removed *)

Lemma rm_keeps vp p ft :
  p = "" ∨ p ≠ vp → is_Some (ft.1 !! vp) → is_Some ((rm p ft).1 !! vp).
Proof.
  intros Hp H. rewrite rm_lookup_ne; [done|]. destruct Hp; [by left|right; congruence].
Qed.

Lemma write_at_keeps vp p w (m : gmap string content) :
  is_Some (m !! vp) → is_Some (write_at p w m !! vp).
Proof.
  intros H. destruct w as [c|]; simpl; [|done].
  destruct (decide (p = vp)) as [->|Hne].
  - rewrite lookup_insert_eq. by eexists.
  - by rewrite lookup_insert_ne.
Qed.

Lemma core_run_keeps e vp dest tc to to_early cmd_x cmd_m fs1 en ft :
  core_run e dest tc to to_early cmd_x cmd_m fs1 en ft →
  tc ≠ vp → to ≠ vp → to_early = "" ∨ to_early ≠ vp →
  is_Some (fs1 !! vp) → is_Some (ft.1 !! vp).
Proof.
  intros Hrun Htc Hto Hearly Hvp.
  destruct Hrun; do 2 (apply rm_keeps; [by auto|]); simpl;
    repeat apply write_at_keeps; try done.
  - destruct (decide (dest = vp)) as [->|Hne].
    + rewrite lookup_insert_eq. by eexists.
    + rewrite lookup_insert_ne, lookup_delete_ne by done.
      by repeat apply write_at_keeps.
  - destruct (decide (dest = vp)) as [->|Hne].
    + rewrite lookup_insert_eq. by eexists.
    + rewrite lookup_insert_ne by done. by repeat apply write_at_keeps.
Qed.

Lemma cli_run_keeps e vp st st' :
  cli_run e vp st st' → is_Some (fs st !! vp) → is_Some (fs st' !! vp).
Proof.
  intros [_ ->|_ _ ->|_ _ Htry] Hvp; simpl; [done..|].
  destruct Htry as [ex _ ->|tc en ft _ Htc _ to Hrun ->]; simpl in *; [done|].
  assert (Hne : tc ≠ vp). { intros ->. rewrite Htc in Hvp. by destruct Hvp. }
  eapply core_run_keeps; [exact Hrun|done|apply temp_video_differs|by left|].
  by rewrite lookup_insert_ne.
Qed.

Lemma gui_run_keeps cfg e vp mode value out_dir st s st' :
  gui_run cfg e vp mode value out_dir st s st' →
  is_Some (fs st !! vp) → is_Some (fs st' !! vp).
Proof.
  intros [_ _ ->|_ _ _ ->|_ _ _ _ _ ->|_ _ _ Htry] Hvp; simpl; [done..|].
  destruct Htry as [ex _ _ ->|tc ex _ Htc _ _ _ ->
                   |tc to en ft _ Htc _ _ Hto _ Hrun _ ->]; simpl in *.
  - done.
  - assert (Hne : tc ≠ vp). { intros ->. rewrite Htc in Hvp. by destruct Hvp. }
    by rewrite lookup_insert_ne.
  - assert (Hne : tc ≠ vp). { intros ->. rewrite Htc in Hvp. by destruct Hvp. }
    assert (Hne2 : to ≠ vp).
    { intros ->. rewrite lookup_insert_ne in Hto by done. rewrite Hto in Hvp.
      by destruct Hvp. }
    eapply core_run_keeps; [exact Hrun|done|done|by right|].
    by rewrite !lookup_insert_ne.
Qed.

(** Neither script ever leaves the path of the video without a file: after
    any run, with any outcome and any destination, something is at the path
    that held the video. *)
Theorem the_video_path_is_never_left_empty (cfg : Gui.config) (e : env)
    (vp mode : string) (value : Q) (out_dir : option string) (st : state) :
  is_Some (fs st !! vp) →
  is_Some (fs (Cli.process_video e vp st).2 !! vp)
  ∧ is_Some (fs (Gui.process_single_video cfg e vp mode value out_dir st).2 !! vp).
Proof.
  intros Hvp. split.
  - destruct (cli_process_video_spec _ _ _ _ _ (run_pair (Cli.process_video e vp) st))
      as [_ Hrun].
    by apply (cli_run_keeps e vp st).
  - destruct (gui_process_single_video_spec _ _ _ _ _ _ _ _ _
                (run_pair (Gui.process_single_video cfg e vp mode value out_dir) st))
      as (s & _ & Hrun).
    by apply (gui_run_keeps cfg e vp mode value out_dir st s).
Qed.

Lemma the_video_path_is_never_left_empty_witness :
  is_Some (fs (Cli.process_video env_mux_exits ex_path (init_state ex_files)).2 !! ex_path)
  ∧ is_Some (fs (Gui.process_single_video ex_cfg env_mux_exits ex_path "time" (inject_Z 20)
                   None (init_state ex_files)).2 !! ex_path).
Proof.
  apply (the_video_path_is_never_left_empty ex_cfg env_mux_exits ex_path "time"
           (inject_Z 20) None (init_state ex_files)).
  by eexists.
Defined.
